(** * photo-mesh: the minimal AI service, embedded and verified

    A shallow embedding of [src/ai/minimal_ai_service.py]: the colour
    classifier, the region colour aggregator, the brightness analyser, the
    emotion mapper, the caption composer, the keyword collector, the two
    embedding encoders and the top-level image analysis that chains them.

    Modelling conventions.

    - Python dictionaries are association lists in insertion order
      ([dict_get], [dict_set]): the emotion slots of the embedding follow the
      iteration order of the emotion dictionary, so order is part of the
      behaviour.
    - Scores, confidences and embedding slots are IEEE binary64 values
      ([float], the kernel's primitive floats), which is what a Python float
      is; [py_max] and [py_min] are the builtins on two arguments.
    - Image statistics (channel means, brightness, aspect ratio) are the exact
      rationals [Q] that the imaging library's doubles round; [py_int]
      truncates toward zero.  For rasters of fewer than 2^45 pixels the
      rounded quotient and the exact one have the same truncation and compare
      alike with the thresholds of the code.
    - The Euclidean distance [(...) ** 0.5] is kept as its radicand
      ([sq_distance]): for channels in 0..255 the radicands are integers below
      2^18, the square root is strictly increasing on them, and
      [float('inf')] is [None].
    - A [try]/[except] is a body in the [result] monad and a handler applied
      by the function that wraps it.
    - What the interpreter and the imaging library supply is taken as section
      variables: decoding the bytes to an RGB raster, the luminance of a
      pixel, the builtin [hash], and the order in which a [set] is listed.
    - What [ImageStat] answers for the mean of a band without pixels depends
      on the release of the imaging library (an exception, or 0); it is the
      field [empty_mean] of the class [Pillow], and every statement holds for
      every such library unless it names one. *)

From Stdlib Require Import ZArith QArith Floats Uint63 Lia Bool Ascii String.
From stdpp Require Import base list list_numbers strings sets sorting.

Set Warnings "-inexact-float".
Local Open Scope Z_scope.

(** ** Exceptions and the [result] monad *)

Inductive exn : Type :=
| ZeroDivisionError
| KeyError (key : string)
| OSError (msg : string)
| RuntimeError (msg : string).

(** [str(e)] *)
Definition str_exn (e : exn) : string :=
  match e with
  | ZeroDivisionError => "division by zero"
  | KeyError key => String "'" key +:+ "'"
  | OSError msg => msg
  | RuntimeError msg => msg
  end.

Inductive result (A : Type) : Type :=
| Ok (a : A)
| Raise (e : exn).
Arguments Ok {A} a.
Arguments Raise {A} e.

Definition bind {A B : Type} (m : result A) (k : A -> result B) : result B :=
  match m with
  | Ok a => k a
  | Raise e => Raise e
  end.

Notation "'let!' x ':=' m 'in' k" := (bind m (fun x => k))
  (at level 10, x name, m at level 100, k at level 200).

(** [try: body / except: return default] *)
Definition try_except {A : Type} (body : result A) (default : A) : A :=
  match body with
  | Ok a => a
  | Raise _ => default
  end.

Definition raises {A : Type} (m : result A) : Prop := exists e, m = Raise e.

(** [for x in xs: acc = step(acc, x)] where the step may raise. *)
Fixpoint for_each {A S : Type} (step : S -> A -> result S) (xs : list A) (s : S)
  : result S :=
  match xs with
  | [] => Ok s
  | x :: xs' => let! s' := step s x in for_each step xs' s'
  end.

(** ** Python builtins *)

Definition py_max (a b : float) : float := if PrimFloat.ltb a b then b else a.
Definition py_min (a b : float) : float := if PrimFloat.ltb b a then b else a.

(** [int(x)] on a number: truncation toward zero. *)
Definition py_int (x : Q) : Z := Z.quot (Qnum x) (Z.pos (Qden x)).

(** [float(n)] for the small non-negative integers that reach it. *)
Definition float_of_Z (n : Z) : float := PrimFloat.of_uint63 (Uint63.of_Z n).

Definition Qgtb (x y : Q) : bool := negb (Qle_bool x y).
Definition Qltb (x y : Q) : bool := negb (Qle_bool y x).

(** [0.0 <= x <= 1.0] *)
Definition in_unit (x : float) : bool :=
  PrimFloat.leb 0%float x && PrimFloat.leb x 1%float.

Definition str_in (x : string) (xs : list string) : bool :=
  bool_decide (x ∈ xs).

(** *** Dictionaries with string keys, in insertion order *)

Definition dict (V : Type) : Type := list (string * V).

Fixpoint dict_get {V : Type} (d : dict V) (k : string) : option V :=
  match d with
  | [] => None
  | (k', v) :: d' => if String.eqb k' k then Some v else dict_get d' k
  end.

(** [d[k] = v]: an existing key keeps its position, a new one goes last. *)
Fixpoint dict_set {V : Type} (d : dict V) (k : string) (v : V) : dict V :=
  match d with
  | [] => [(k, v)]
  | (k', v') :: d' =>
      if String.eqb k' k then (k', v) :: d' else (k', v') :: dict_set d' k v
  end.

Definition dict_keys {V : Type} (d : dict V) : list string := map fst d.

(** [d.get(k, default)] *)
Definition dict_get_default {V : Type} (d : dict V) (k : string) (default : V) : V :=
  match dict_get d k with
  | Some v => v
  | None => default
  end.

(** *** Strings *)

Definition lower_ascii (c : ascii) : ascii :=
  let n := nat_of_ascii c in
  if (65 <=? n)%nat && (n <=? 90)%nat then ascii_of_nat (n + 32) else c.

(** [s.lower()], on the ASCII letters. *)
Fixpoint lower (s : string) : string :=
  match s with
  | EmptyString => EmptyString
  | String c s' => String (lower_ascii c) (lower s')
  end.

Definition is_space (c : ascii) : bool :=
  let n := nat_of_ascii c in
  ((9 <=? n)%nat && (n <=? 13)%nat) || ((28 <=? n)%nat && (n <=? 32)%nat).

(** [s.split()]: the maximal runs of non-blank characters.  [cur] is the
    token being read, reversed. *)
Fixpoint split_aux (s : string) (cur : list ascii) : list string :=
  let flush := match cur with
               | [] => []
               | _ => [string_of_list_ascii (rev cur)]
               end in
  match s with
  | EmptyString => flush
  | String c s' =>
      if is_space c then flush ++ split_aux s' [] else split_aux s' (c :: cur)
  end.

Definition split (s : string) : list string := split_aux s [].

Fixpoint startswith (s p : string) : bool :=
  match p, s with
  | EmptyString, _ => true
  | String _ _, EmptyString => false
  | String a p', String b s' => Ascii.eqb a b && startswith s' p'
  end.

(** [sub in s] on strings *)
Fixpoint contains (sub s : string) : bool :=
  startswith s sub
  || match s with
     | EmptyString => false
     | String _ s' => contains sub s'
     end.

(** [sep.join(parts)] *)
Fixpoint join (sep : string) (parts : list string) : string :=
  match parts with
  | [] => ""
  | [p] => p
  | p :: rest => p +:+ sep +:+ join sep rest
  end.

(** ** The colour classifier *)

Definition RGB : Type := Z * Z * Z.

(** [self.color_names], in the order of the literal. *)
Definition color_names : dict (list RGB) :=
  [ ("red",    [(255, 0, 0); (139, 0, 0); (220, 20, 60)]);
    ("green",  [(0, 128, 0); (0, 255, 0); (34, 139, 34)]);
    ("blue",   [(0, 0, 255); (0, 0, 139); (30, 144, 255)]);
    ("yellow", [(255, 255, 0); (255, 215, 0); (255, 165, 0)]);
    ("purple", [(128, 0, 128); (75, 0, 130); (138, 43, 226)]);
    ("orange", [(255, 165, 0); (255, 140, 0); (255, 69, 0)]);
    ("pink",   [(255, 192, 203); (255, 20, 147); (255, 105, 180)]);
    ("brown",  [(165, 42, 42); (139, 69, 19); (160, 82, 45)]);
    ("gray",   [(128, 128, 128); (169, 169, 169); (105, 105, 105)]);
    ("black",  [(0, 0, 0); (25, 25, 25); (47, 79, 79)]);
    ("white",  [(255, 255, 255); (248, 248, 255); (245, 245, 245)]) ]%string.

(** The radicand of [distance]. *)
Definition sq_distance (r g b : Z) (target : RGB) : Z :=
  let '(target_r, target_g, target_b) := target in
  (r - target_r) ^ 2 + (g - target_g) ^ 2 + (b - target_b) ^ 2.

(** [distance < min_distance], with [None] for [float('inf')]. *)
Definition closer (distance : Z) (min_distance : option Z) : bool :=
  match min_distance with
  | None => true
  | Some m => distance <? m
  end.

(** The state of the search: [(min_distance, closest_color)]. *)
Definition search_state : Type := option Z * string.

Definition search_prototype (r g b : Z) (color_name : string)
    (st : search_state) (target : RGB) : search_state :=
  let distance := sq_distance r g b target in
  if closer distance (fst st) then (Some distance, color_name) else st.

Definition search_color (r g b : Z) (st : search_state)
    (entry : string * list RGB) : search_state :=
  foldl (search_prototype r g b (fst entry)) st (snd entry).

Definition grayscale_test (r g b : Z) : bool :=
  (Z.abs (r - g) <? 30) && (Z.abs (g - b) <? 30) && (Z.abs (r - b) <? 30).

Definition rgb_to_color_name (r g b : Q) : string :=
  let r := py_int r in
  let g := py_int g in
  let b := py_int b in
  if grayscale_test r g b then
    if r <? 60 then "black"
    else if r >? 200 then "white"
    else "gray"
  else
    snd (foldl (search_color r g b) (None, "mixed"%string) color_names).

(** ** Images and their statistics *)

(** A decoded RGB raster: [image.size] and [image.getpixel((x, y))]. *)
Record Image : Type := mkImage {
  width : Z;
  height : Z;
  getpixel : Z -> Z -> RGB
}.

(** [image.getdata()]: the pixels, row by row. *)
Definition getdata (image : Image) : list RGB :=
  y ← seqZ 0 (height image); x ← seqZ 0 (width image); [getpixel image x y].

Definition box : Type := Z * Z * Z * Z.

(** [image.crop((x0, y0, x1, y1))], for a box inside the image
    (the five boxes of [regions] are). *)
Definition crop (image : Image) (region : box) : Image :=
  let '(x0, y0, x1, y1) := region in
  {| width := x1 - x0;
     height := y1 - y0;
     getpixel := fun x y => getpixel image (x0 + x) (y0 + y) |}.

Fixpoint sumZ (l : list Z) : Z :=
  match l with
  | [] => 0
  | n :: l' => n + sumZ l'
  end.

(** The installed imaging library.  [ImageStat.Stat(...).mean] is
    [sum / count] for each band.  What it does on a band without pixels is
    the library's choice and differs between releases of Pillow: some raise
    [ZeroDivisionError], others return 0.  The repository pins no release,
    so the outcome is a field of the library. *)
Class Pillow : Type := { empty_mean : result Q }.

(** One entry of [ImageStat.Stat(...).mean]. *)
Definition band_mean {lib : Pillow} {P : Type} (band : P -> Z) (data : list P)
  : result Q :=
  match length data with
  | O => empty_mean
  | S n => Ok (sumZ (map band data) # Pos.of_succ_nat n)
  end.

Definition band_r (p : RGB) : Z := fst (fst p).
Definition band_g (p : RGB) : Z := snd (fst p).
Definition band_b (p : RGB) : Z := snd p.

(** [r, g, b = ImageStat.Stat(image).mean] *)
Definition stat_mean {lib : Pillow} (image : Image) : result (Q * Q * Q) :=
  let data := getdata image in
  let! r := band_mean band_r data in
  let! g := band_mean band_g data in
  let! b := band_mean band_b data in
  Ok (r, g, b).

Definition classify_mean (m : Q * Q * Q) : string :=
  let '(r, g, b) := m in rgb_to_color_name r g b.

(** ** The region colour aggregator *)

Definition regions (width height : Z) : list box :=
  [ (0, 0, width / 2, height / 2);
    (width / 2, 0, width, height / 2);
    (0, height / 2, width / 2, height);
    (width / 2, height / 2, width, height);
    (width / 4, height / 4, 3 * width / 4, 3 * height / 4) ].

(** The body of the loop over the regions, with its [except: continue]. *)
Definition count_region {lib : Pillow} (image : Image) (color_counts : dict Z)
    (region : box) : dict Z :=
  match stat_mean (crop image region) with
  | Ok m =>
      let color := classify_mean m in
      dict_set color_counts color (dict_get_default color_counts color 0 + 1)
  | Raise _ => color_counts
  end.

(** [sorted(items, key=lambda x: x[1], reverse=True)]: stable, so items of
    equal count keep their order. *)
Fixpoint insert_desc (item : string * Z) (l : list (string * Z))
  : list (string * Z) :=
  match l with
  | [] => [item]
  | item' :: l' =>
      if snd item <? snd item' then item' :: insert_desc item l'
      else item :: item' :: l'
  end.

Definition sorted_desc (items : list (string * Z)) : list (string * Z) :=
  foldr insert_desc [] items.

Definition append_new (colors : list string) (item : string * Z) : list string :=
  let color := fst item in
  if str_in color colors then colors else colors ++ [color].

Definition analyze_colors_body {lib : Pillow} (image : Image)
  : result (list string) :=
  let! m := stat_mean image in
  let dominant_color := classify_mean m in
  let colors := [dominant_color] in
  let color_counts :=
    foldl (count_region image) [] (regions (width image) (height image)) in
  let sorted_colors := sorted_desc color_counts in
  let colors := foldl append_new colors (take 4 sorted_colors) in
  Ok (take 3 colors).

Definition analyze_colors {lib : Pillow} (image : Image) : list string :=
  try_except (analyze_colors_body image) ["mixed"%string].

(** ** The emotion mapper *)

Definition color_emotions : dict (dict float) :=
  [ ("red",    [("energetic", 0.8); ("passionate", 0.7); ("exciting", 0.6)]);
    ("blue",   [("calm", 0.8); ("peaceful", 0.7); ("cool", 0.6)]);
    ("green",  [("natural", 0.8); ("peaceful", 0.6); ("fresh", 0.7)]);
    ("yellow", [("happy", 0.8); ("cheerful", 0.7); ("bright", 0.6)]);
    ("purple", [("mysterious", 0.7); ("elegant", 0.6); ("creative", 0.5)]);
    ("orange", [("warm", 0.8); ("energetic", 0.6); ("friendly", 0.7)]);
    ("pink",   [("romantic", 0.8); ("soft", 0.7); ("feminine", 0.6)]);
    ("brown",  [("earthy", 0.8); ("natural", 0.6); ("warm", 0.5)]);
    ("black",  [("dramatic", 0.8); ("mysterious", 0.7); ("elegant", 0.6)]);
    ("white",  [("clean", 0.8); ("pure", 0.7); ("minimal", 0.6)]);
    ("gray",   [("neutral", 0.8); ("calm", 0.5); ("balanced", 0.6)]) ]%string%float.

(** [emotions[emotion] = max(emotions.get(emotion, 0), score)] *)
Definition keep_max (emotions : dict float) (item : string * float) : dict float :=
  let '(emotion, score) := item in
  dict_set emotions emotion (py_max (dict_get_default emotions emotion 0%float) score).

Definition color_moods (emotions : dict float) (color : string) : dict float :=
  match dict_get color_emotions color with
  | Some table => foldl keep_max emotions table
  | None => emotions
  end.

(** [emotions[emotion] = min(emotions[emotion], 1.0)] *)
Definition clamp_one (emotions : dict float) (emotion : string) : dict float :=
  dict_set emotions emotion
    (py_min (dict_get_default emotions emotion 0%float) 1%float).

Definition analyze_emotions_from_colors (colors : list string) (brightness : Q)
  : dict float :=
  let emotions := foldl color_moods [] colors in
  let emotions :=
    if Qgtb brightness 180 then
      let emotions := dict_set emotions "bright" 0.8%float in
      dict_set emotions "cheerful"
        (dict_get_default emotions "cheerful" 0 + 0.3)%float
    else if Qltb brightness 80 then
      let emotions := dict_set emotions "moody" 0.7%float in
      dict_set emotions "dramatic"
        (dict_get_default emotions "dramatic" 0 + 0.3)%float
    else
      dict_set emotions "balanced" 0.6%float in
  foldl clamp_one emotions (dict_keys emotions).

(** ** Pseudo-objects and the caption composer *)

Record BoundingBox : Type := mkBoundingBox {
  bb_x : Z;
  bb_y : Z;
  bb_width : Z;
  bb_height : Z
}.

(** An object dictionary.  The code reads it both with [obj["name"]], which
    raises on a missing key, and with [obj.get("name", "")] and
    [obj.get("confidence", 0.5)], so a key may be absent. *)
Record PseudoObject : Type := mkObject {
  name : option string;
  confidence : option float;
  bounding_box : option BoundingBox
}.

(** [obj["name"]] *)
Definition getitem_name (obj : PseudoObject) : result string :=
  match name obj with
  | Some n => Ok n
  | None => Raise (KeyError "name")
  end.

(** [[obj["name"] for obj in objects]] *)
Definition object_names (objects : list PseudoObject) : result (list string) :=
  for_each (fun names obj => let! n := getitem_name obj in Ok (names ++ [n]))
           objects [].

(** [[obj["name"] for obj in objects if obj["name"] in ["landscape", "portrait"]]] *)
Definition orientation_names (objects : list PseudoObject) : result (list string) :=
  for_each (fun names obj =>
              let! n := getitem_name obj in
              if str_in n ["landscape"; "portrait"]%string
              then (let! n' := getitem_name obj in Ok (names ++ [n']))
              else Ok names)
           objects [].

Definition generate_basic_caption_body (colors : list string)
    (objects : list PseudoObject) (brightness : Q) : result string :=
  let parts : list string :=
    if Qgtb brightness 200 then ["A bright"%string]
    else if Qltb brightness 80 then ["A dark"%string]
    else ["A"%string] in
  let color_text :=
    match colors with
    | c0 :: c1 :: _ => c0 +:+ " and " +:+ c1
    | [c0] => c0
    | [] => "colorful"%string
    end in
  let parts := parts ++ [color_text] in
  let! orientations := orientation_names objects in
  let parts :=
    match orientations with
    | o :: _ => parts ++ [o]
    | [] => parts
    end in
  let parts := parts ++ ["image"%string] in
  Ok (join " " parts).

Definition generate_basic_caption (colors : list string)
    (objects : list PseudoObject) (brightness : Q) : string :=
  try_except (generate_basic_caption_body colors objects brightness)
             "A photograph"%string.

(** ** The analysis result *)

Record Concept : Type := mkConcept {
  concept : string;
  concept_confidence : float;
  category : string
}.

(** The [result] dictionary of [analyze_image_basic]; the field names are its
    keys. *)
Record AnalysisResult : Type := mkResult {
  objects : list PseudoObject;
  text : list string;
  caption : string;
  emotions : dict float;
  colors : list string;
  search_keywords : list string;
  relationships : list string;
  semantic_concepts : list Concept;
  clip_embedding : list float
}.

(** [result["clip_embedding"] = features] *)
Definition set_clip_embedding (result : AnalysisResult) (features : list float)
  : AnalysisResult :=
  {| objects := objects result;
     text := text result;
     caption := caption result;
     emotions := emotions result;
     colors := colors result;
     search_keywords := search_keywords result;
     relationships := relationships result;
     semantic_concepts := semantic_concepts result;
     clip_embedding := features |}.

(** What [analyze_image_basic] returns: the result dictionary, or the
    dictionary [{"error": str(e)}]. *)
Inductive Response : Type :=
| Analysis (r : AnalysisResult)
| Error (error : string).

(** [list(response.keys())] *)
Definition response_keys (resp : Response) : list string :=
  match resp with
  | Analysis _ =>
      [ "objects"; "text"; "caption"; "emotions"; "colors"; "search_keywords";
        "relationships"; "semantic_concepts"; "clip_embedding" ]%string
  | Error _ => [ "error"%string ]
  end.

(** [enumerate(xs)] *)
Definition enumerate {A : Type} (xs : list A) : list (nat * A) :=
  zip (seq 0 (length xs)) xs.

(** ** The image embedding encoder *)

(** [features[i] = v] is the list update [<[i := v]>]: every index the
    encoder writes is below 50 (at most 10 for a colour, 17 for an object,
    18 + 19 for a mood, 38 + 11 for a keyword), so the assignment never
    raises. *)

Definition color_map : dict nat :=
  [ ("red", 0); ("green", 1); ("blue", 2); ("yellow", 3); ("purple", 4);
    ("orange", 5); ("pink", 6); ("brown", 7); ("black", 8); ("white", 9);
    ("gray", 10) ]%string%nat.

Definition object_features : dict nat :=
  [ ("landscape", 11); ("portrait", 12); ("bright_image", 13);
    ("dark_image", 14); ("high_resolution", 15); ("medium_resolution", 16);
    ("low_resolution", 17) ]%string%nat.

Definition emotion_start : nat := 18.

Definition set_color (features : list float) (color : string) : list float :=
  match dict_get color_map color with
  | Some i => <[i := 1%float]> features
  | None => features
  end.

Definition set_object (features : list float) (obj : PseudoObject) : list float :=
  let obj_name := default ""%string (name obj) in
  match dict_get object_features obj_name with
  | Some i => <[i := default 0.5%float (confidence obj)]> features
  | None => features
  end.

Definition set_emotion (features : list float) (item : nat * (string * float))
  : list float :=
  let '(i, (_, score)) := item in
  if (i <? 20)%nat then <[(emotion_start + i)%nat := score]> features
  else features.

Section Service.

Context {lib : Pillow}.

(** [Image.open(io.BytesIO(image_bytes))] followed by the conversion to
    RGB: it raises, or yields a raster. *)
Variable Image_open : list Byte.byte -> result Image.

(** The luminance of one pixel under [image.convert('L')]. *)
Variable luma : RGB -> Z.

(** The builtin [hash].  It is the one call that the body of the image
    encoder makes to the interpreter, and it is allowed to raise so that
    the handler of the encoder is exercised. *)
Variable hash : string -> result Z.

(** [list(keywords)] for the set built by adding the given strings in
    order. *)
Variable list_of_set : list string -> list string.

Definition set_keyword (features : list float) (item : nat * string)
  : result (list float) :=
  let '(i, keyword) := item in
  if (i <? 12)%nat then
    let! h := hash keyword in
    let hash_val := Z.abs h mod 100 in
    Ok (<[(38 + i)%nat := (float_of_Z hash_val / 100)%float]> features)
  else Ok features.

Definition generate_simple_embedding_body (analysis_result : AnalysisResult)
  : result (list float) :=
  let features := replicate 50 0%float in
  let features := foldl set_color features (colors analysis_result) in
  let features := foldl set_object features (objects analysis_result) in
  let features :=
    foldl set_emotion features
          (enumerate (take 20 (emotions analysis_result))) in
  for_each set_keyword
           (enumerate (take 12 (search_keywords analysis_result))) features.

Definition generate_simple_embedding (analysis_result : AnalysisResult)
  : list float :=
  try_except (generate_simple_embedding_body analysis_result)
             (replicate 50 0%float).

(** ** The brightness analyser *)

Definition analyze_brightness_body (image : Image) : result Q :=
  let grayscale := map luma (getdata image) in
  band_mean id grayscale.

Definition analyze_brightness (image : Image) : Q :=
  try_except (analyze_brightness_body image) 128%Q.

(** ** The top-level image analysis *)

Definition full_image (w h : Z) : option BoundingBox :=
  Some {| bb_x := 0; bb_y := 0; bb_width := w; bb_height := h |}.

Definition size_category (total_pixels : Z) : string :=
  if total_pixels >? 2000000 then "high_resolution"
  else if total_pixels >? 500000 then "medium_resolution"
  else "low_resolution".

Definition color_concept (color : string) : Concept :=
  {| concept := color +:+ " tones";
     concept_confidence := 0.7;
     category := "visual" |}.

Definition emotion_concepts (emotions : dict float) : list Concept :=
  flat_map (fun '(emotion, confidence) =>
              if PrimFloat.ltb 0.5 confidence
              then [ {| concept := emotion;
                        concept_confidence := confidence;
                        category := "emotion" |} ]
              else [])
           emotions.

(** The pseudo-objects: orientation, then resolution tier, then
    brightness. *)
Definition pseudo_objects (w h : Z) (aspect_ratio brightness : Q)
  : list PseudoObject :=
  let total_pixels := w * h in
  let objs : list PseudoObject :=
    if Qgtb aspect_ratio 1.5 then
      [ mkObject (Some "landscape"%string) (Some 0.9%float) (full_image w h) ]
    else if Qltb aspect_ratio 0.67 then
      [ mkObject (Some "portrait"%string) (Some 0.9%float) (full_image w h) ]
    else [] in
  let objs :=
    objs ++ [ mkObject (Some (size_category total_pixels))
                       (Some 0.8%float) (full_image w h) ] in
  if Qgtb brightness 200 then
    objs ++ [ mkObject (Some "bright_image"%string) (Some 0.7%float)
                       (full_image w h) ]
  else if Qltb brightness 80 then
    objs ++ [ mkObject (Some "dark_image"%string) (Some 0.7%float)
                       (full_image w h) ]
  else objs.

(** The strings added to the [keywords] set, in the order they are added. *)
Definition collect_keywords (result_colors names : list string)
    (result_emotions : dict float) (aspect_ratio : Q) : list string :=
  let keywords := result_colors ++ names ++ dict_keys result_emotions in
  if Qgtb aspect_ratio 1.3 then keywords ++ ["wide"; "horizontal"]%string
  else if Qltb aspect_ratio 0.8 then keywords ++ ["tall"; "vertical"]%string
  else keywords.

Definition analyze_image_basic_body (image_bytes : list Byte.byte)
  : result AnalysisResult :=
  let! image := Image_open image_bytes in
  let w := width image in
  let h := height image in
  let! aspect_ratio :=
    (if h =? 0 then Raise ZeroDivisionError else Ok (w # Z.to_pos h)) in
  let result_colors := analyze_colors image in
  let brightness := analyze_brightness image in
  let objs := pseudo_objects w h aspect_ratio brightness in
  let result_emotions := analyze_emotions_from_colors result_colors brightness in
  let result_caption := generate_basic_caption result_colors objs brightness in
  let! names := object_names objs in
  let keywords := collect_keywords result_colors names result_emotions aspect_ratio in
  let concepts :=
    map color_concept (take 3 result_colors) ++ emotion_concepts result_emotions in
  let result :=
    {| objects := objs;
       text := [];
       caption := result_caption;
       emotions := result_emotions;
       colors := result_colors;
       search_keywords := list_of_set keywords;
       relationships := [];
       semantic_concepts := concepts;
       clip_embedding := [] |} in
  Ok (set_clip_embedding result (generate_simple_embedding result)).

Definition analyze_image_basic (image_bytes : list Byte.byte) : Response :=
  match analyze_image_basic_body image_bytes with
  | Ok r => Analysis r
  | Raise e => Error (str_exn e)
  end.

End Service.

(** ** The query embedding encoder *)

Definition color_words : list string :=
  [ "red"; "green"; "blue"; "yellow"; "purple"; "orange"; "pink"; "brown";
    "black"; "white"; "gray" ]%string.

(** [any(color in word for word in words)] *)
Definition any_contains (color : string) (words : list string) : bool :=
  existsb (contains color) words.

(** [any(word in vocabulary for word in words)] *)
Definition any_in (vocabulary words : list string) : bool :=
  existsb (fun word => str_in word vocabulary) words.

Definition set_color_word (words : list string) (embedding : list float)
    (item : nat * string) : list float :=
  let '(i, color) := item in
  if any_contains color words then <[i := 1%float]> embedding else embedding.

Definition set_if (cond : bool) (i : nat) (embedding : list float) : list float :=
  if cond then <[i := 1%float]> embedding else embedding.

Definition query_embedding (query : string) : list float :=
  let words := split (lower query) in
  let embedding := replicate 50 0%float in
  let embedding := foldl (set_color_word words) embedding (enumerate color_words) in
  let embedding := set_if (any_in ["bright"; "light"; "sunny"]%string words) 13 embedding in
  let embedding := set_if (any_in ["dark"; "night"; "shadow"]%string words) 14 embedding in
  let embedding := set_if (any_in ["wide"; "landscape"; "horizontal"]%string words) 11 embedding in
  let embedding := set_if (any_in ["tall"; "portrait"; "vertical"]%string words) 12 embedding in
  embedding.

(** The body of the [/search/semantic] response. *)
Record SearchResponse : Type := mkSearchResponse {
  query : string;
  embedding : list float
}.

Definition semantic_search (query : string) : SearchResponse :=
  {| query := query; embedding := query_embedding query |}.

(** ** The [/detect] route of the minimal service *)

(** [jsonify(result.get("objects", []))]: the error dictionary has no key
    "objects", so on a failed analysis the route answers with the empty
    list. *)
Definition detect_objects {lib : Pillow}
    (Image_open : list Byte.byte -> result Image) (luma : RGB -> Z)
    (hash : string -> result Z) (list_of_set : list string -> list string)
    (image_data : list Byte.byte) : list PseudoObject :=
  match analyze_image_basic Image_open luma hash list_of_set image_data with
  | Analysis r => objects r
  | Error _ => []
  end.

(** ** Notions used in the statements *)



(** The classifier's name for the colour [c]. *)
Definition color_name_of (c : RGB) : string :=
  rgb_to_color_name (inject_Z (band_r c)) (inject_Z (band_g c)) (inject_Z (band_b c)).


(** [f'] is [f] overwritten in place: each slot is unchanged or holds a value
    that [W] allows at that index. *)
Definition writes (W : nat -> float -> Prop) (f f' : list float) : Prop :=
  length f' = length f
  /\ forall i : nat, f' !! i = f !! i \/ exists v, f' !! i = Some v /\ W i v.

(** What each loop of the image encoder may write, and where. *)
Definition color_writes (colors : list string) (i : nat) (v : float) : Prop :=
  v = 1%float
  /\ exists color, color ∈ colors /\ dict_get color_map color = Some i.

Definition object_writes (objs : list PseudoObject) (i : nat) (v : float) : Prop :=
  exists obj, obj ∈ objs
    /\ dict_get object_features (default ""%string (name obj)) = Some i
    /\ v = default 0.5%float (confidence obj).

Definition emotion_writes (emotions : dict float) (i : nat) (v : float) : Prop :=
  exists (j : nat) (emotion : string),
    take 20 emotions !! j = Some (emotion, v) /\ i = (18 + j)%nat.

Definition keyword_writes (hash : string -> result Z) (keywords : list string)
    (i : nat) (v : float) : Prop :=
  exists (j : nat) (keyword : string) (h : Z),
    take 12 keywords !! j = Some keyword
    /\ hash keyword = Ok h
    /\ i = (38 + j)%nat
    /\ v = (float_of_Z (Z.abs h mod 100) / 100)%float.

Definition encoder_writes (hash : string -> result Z) (r : AnalysisResult)
    (i : nat) (v : float) : Prop :=
  color_writes (colors r) i v
  \/ object_writes (objects r) i v
  \/ emotion_writes (emotions r) i v
  \/ keyword_writes hash (search_keywords r) i v.

(** The scores of the colour tables, and the scores the mapper can hold
    before it clamps them: a table score, or a table score or 0 plus 0.3. *)
Definition table_scores : list float := [0.5; 0.6; 0.7; 0.8]%float.

Definition raw_scores : list float :=
  table_scores ++ map (fun a => (a + 0.3)%float) (0%float :: table_scores).

(** The resolution-tier pseudo-object of a [w] by [h] image. *)
Definition tier_object (w h : Z) : PseudoObject :=
  mkObject (Some (size_category (w * h))) (Some 0.8%float) (full_image w h).

Definition is_resolution_tier (obj : PseudoObject) : bool :=
  str_in (default ""%string (name obj))
         ["high_resolution"; "medium_resolution"; "low_resolution"]%string.

(** The slots that the image encoder writes for an analysis result. *)
Definition slot_used (r : AnalysisResult) (i : nat) : Prop :=
  (exists color, color ∈ colors r /\ dict_get color_map color = Some i)
  \/ (exists obj, obj ∈ objects r
                  /\ dict_get object_features (default ""%string (name obj)) = Some i)
  \/ (18 <= i < 18 + length (take 20 (emotions r)))%nat
  \/ (38 <= i < 38 + length (take 12 (search_keywords r)))%nat.

(** The palette as the search visits it: every prototype with the name that
    owns it, in iteration order. *)
Definition prototypes : list (string * RGB) :=
  flat_map (fun entry => map (fun target => (fst entry, target)) (snd entry))
           color_names.

(** Every character of the string is blank. *)
Fixpoint blank (s : string) : bool :=
  match s with
  | EmptyString => true
  | String c s' => is_space c && blank s'
  end.

(** The colour name a region votes for, when its mean exists. *)
Definition region_color {lib : Pillow} (image : Image) (region : box)
  : option string :=
  match stat_mean (crop image region) with
  | Ok m => Some (classify_mean m)
  | Raise _ => None
  end.

(** The number of regions of the list that vote for [color]. *)
Fixpoint votes_in {lib : Pillow} (image : Image) (rs : list box) (color : string)
  : Z :=
  match rs with
  | [] => 0
  | region :: rs' =>
      (if bool_decide (region_color image region = Some color) then 1 else 0)
      + votes_in image rs' color
  end.

(** The number of the five regions of the image that vote for [color]. *)
Definition votes {lib : Pillow} (image : Image) (color : string) : Z :=
  votes_in image (regions (width image) (height image)) color.

(** The weight that a colour's table gives to a mood, if any. *)
Definition table_score (color emotion : string) : option float :=
  match dict_get color_emotions color with
  | Some table => dict_get table emotion
  | None => None
  end.

(** What one detected colour does to the score of one mood. *)
Definition mood_step (emotion : string) (score : option float) (color : string)
  : option float :=
  match table_score color emotion with
  | Some s => Some (py_max (default 0%float score) s)
  | None => score
  end.

(** The moods after the colour loop and the brightness rules, before the
    scores are clamped. *)
Definition emotions_before_clamp (colors : list string) (brightness : Q)
  : dict float :=
  let emotions := foldl color_moods [] colors in
  if Qgtb brightness 180 then
    let emotions := dict_set emotions "bright" 0.8%float in
    dict_set emotions "cheerful"
      (dict_get_default emotions "cheerful" 0 + 0.3)%float
  else if Qltb brightness 80 then
    let emotions := dict_set emotions "moody" 0.7%float in
    dict_set emotions "dramatic"
      (dict_get_default emotions "dramatic" 0 + 0.3)%float
  else
    dict_set emotions "balanced" 0.6%float.

(** The moods that the brightness rules write. *)
Definition brightness_moods : list string :=
  [ "bright"; "cheerful"; "moody"; "dramatic"; "balanced" ]%string.

(** The names of the pseudo-objects, in the order they are appended. *)
Definition pseudo_object_names (w h : Z) (aspect_ratio brightness : Q)
  : list string :=
  (if Qgtb aspect_ratio 1.5 then ["landscape"%string]
   else if Qltb aspect_ratio 0.67 then ["portrait"%string]
   else [])
  ++ [size_category (w * h)]
  ++ (if Qgtb brightness 200 then ["bright_image"%string]
      else if Qltb brightness 80 then ["dark_image"%string]
      else []).

(** Some object of the list has the name [n]. *)
Definition has_object (objs : list PseudoObject) (n : string) : Prop :=
  exists obj, obj ∈ objs /\ name obj = Some n.

(** The colour part of the caption. *)
Definition color_text (colors : list string) : string :=
  match colors with
  | c0 :: c1 :: _ => c0 +:+ " and " +:+ c1
  | [c0] => c0
  | [] => "colorful"
  end.

(** The pixel [(x, y)] lies in the box. *)
Definition in_box (x y : Z) (region : box) : bool :=
  let '(x0, y0, x1, y1) := region in
  (x0 <=? x) && (x <? x1) && (y0 <=? y) && (y <? y1).

(** ** Sample inputs *)

(** The two behaviours of the library on a band without pixels. *)
Definition mean_raises : Pillow := {| empty_mean := Raise ZeroDivisionError |}.

Definition mean_zero : Pillow := {| empty_mean := Ok 0%Q |}.

Definition green_image : Image := mkImage 3 2 (fun _ _ => (10, 200, 30)).

Definition two_tone_image : Image :=
  mkImage 4 2 (fun x _ => if x <? 2 then (255, 0, 0) else (0, 0, 255)).

Definition empty_image : Image := mkImage 0 3 (fun _ _ => (9, 9, 9)).

Definition flat_image : Image := mkImage 3 0 (fun _ _ => (9, 9, 9)).


Definition night_image : Image := mkImage 2 3 (fun _ _ => (5, 5, 20)).

Definition landscape_object : PseudoObject :=
  mkObject (Some "landscape"%string) (Some 0.9%float)
           (Some (mkBoundingBox 0 0 1600 900)).

Definition sample_result : AnalysisResult :=
  {| objects :=
       [ landscape_object;
         mkObject (Some "medium_resolution"%string) (Some 0.8%float)
                  (Some (mkBoundingBox 0 0 1600 900)) ];
     text := [];
     caption := "A blue and gray landscape image";
     emotions := [ ("calm", 0.8); ("peaceful", 0.7); ("cool", 0.6);
                   ("neutral", 0.8); ("balanced", 0.6) ]%string%float;
     colors := [ "blue"; "gray" ]%string;
     search_keywords := [ "blue"; "gray"; "landscape"; "calm"; "wide" ]%string;
     relationships := [];
     semantic_concepts := [];
     clip_embedding := [] |}.

Definition sample_luma (p : RGB) : Z :=
  (band_r p * 299 + band_g p * 587 + band_b p * 114) / 1000.

Definition sample_hash (s : string) : result Z :=
  Ok (Z.of_nat (String.length s) * 37 - 50).

Definition failing_hash (s : string) : result Z :=
  Raise (RuntimeError "hash").

Definition open_as (image : Image) (image_bytes : list Byte.byte) : result Image :=
  Ok image.

Definition open_fails (image_bytes : list Byte.byte) : result Image :=
  Raise (OSError "cannot identify image file").

(** The search state holds a distance and a palette name. *)
Definition found (names : list string) (st : search_state) : Prop :=
  is_Some (fst st) /\ snd st ∈ names.

(** * Properties *)

(** ** Concrete runs of the emotion mapper and of the query encoder *)

(** C3: for the detected colours ["blue"] and brightness 128 the emotion
    mapper returns exactly calm 0.8, peaceful 0.7, cool 0.6 and balanced 0.6,
    in this order and with no other key. *)
Theorem emotions_blue_128 :
  analyze_emotions_from_colors ["blue"%string] 128
  = [ ("calm", 0.8); ("peaceful", 0.7); ("cool", 0.6); ("balanced", 0.6) ]%string%float.
Proof. vm_compute. reflexivity. Qed.

(** C5: the query "bright blue sky" splits into the tokens bright, blue and
    sky and is encoded as a vector of 50 slots: slot 2 is 1.0 because a token
    contains "blue", slot 13 is 1.0 because a token is "bright", and every
    other slot, so every slot from 15 to 49, is 0.0. *)
Theorem query_bright_blue_sky :
  let words := split (lower "bright blue sky") in
  let e := embedding (semantic_search "bright blue sky") in
  words = ["bright"; "blue"; "sky"]%string
  /\ length e = 50%nat
  /\ any_contains "blue" words = true
  /\ e !! 2%nat = Some 1%float
  /\ any_in ["bright"; "light"; "sunny"]%string words = true
  /\ e !! 13%nat = Some 1%float
  /\ (forall i : nat, (15 <= i < 50)%nat -> e !! i = Some 0%float)
  /\ e = <[13%nat := 1%float]> (<[2%nat := 1%float]> (replicate 50 0%float)).
Proof.
  cbv zeta.
  assert (He : embedding (semantic_search "bright blue sky")
               = <[13%nat := 1%float]> (<[2%nat := 1%float]> (replicate 50 0%float)))
    by (vm_compute; reflexivity).
  rewrite He.
  repeat split; try (vm_compute; reflexivity).
  intros i [Hlo Hhi].
  rewrite !list_lookup_insert_ne by lia.
  apply lookup_replicate_2. lia.
Qed.

(** ** The colour classifier *)

Lemma grayscale_test_true (r g b : Z) :
  grayscale_test r g b = true
  <-> Z.abs (r - g) < 30 /\ Z.abs (g - b) < 30 /\ Z.abs (r - b) < 30.
Proof.
  unfold grayscale_test.
  rewrite !andb_true_iff, !Z.ltb_lt. tauto.
Qed.

(** C4: when the three channels are pairwise less than 30 apart the result
    is decided by the first channel alone, whatever the palette holds: black
    below 60, white above 200, gray from 60 to 200. *)
Theorem grayscale_takes_priority (r g b : Q) :
  Z.abs (py_int r - py_int g) < 30 ->
  Z.abs (py_int g - py_int b) < 30 ->
  Z.abs (py_int r - py_int b) < 30 ->
  (py_int r < 60 -> rgb_to_color_name r g b = "black"%string)
  /\ (200 < py_int r -> rgb_to_color_name r g b = "white"%string)
  /\ (60 <= py_int r <= 200 -> rgb_to_color_name r g b = "gray"%string).
Proof.
  intros Hrg Hgb Hrb.
  assert (Hgray : grayscale_test (py_int r) (py_int g) (py_int b) = true)
    by (apply grayscale_test_true; auto).
  unfold rgb_to_color_name. rewrite Hgray.
  repeat split; intros H.
  - destruct (Z.ltb_spec (py_int r) 60); [reflexivity | lia].
  - destruct (Z.ltb_spec (py_int r) 60); [lia |].
    destruct (Z.gtb_spec (py_int r) 200); [reflexivity | lia].
  - destruct (Z.ltb_spec (py_int r) 60); [lia |].
    destruct (Z.gtb_spec (py_int r) 200); [lia | reflexivity].
Qed.

Lemma grayscale_takes_priority_witness :
  rgb_to_color_name 229 200 228 = "white"%string
  /\ rgb_to_color_name (101 # 2) 40 30 = "black"%string
  /\ rgb_to_color_name 100 120 (257 # 2) = "gray"%string.
Proof.
  split; [| split].
  - refine (proj1 (proj2 (grayscale_takes_priority 229 200 228 _ _ _)) _);
      vm_compute; reflexivity.
  - refine (proj1 (grayscale_takes_priority (101 # 2) 40 30 _ _ _) _);
      vm_compute; reflexivity.
  - refine (proj2 (proj2 (grayscale_takes_priority 100 120 (257 # 2) _ _ _)) _);
      vm_compute; try reflexivity.
    split; discriminate.
Defined.

(** The priority matters: for (229, 200, 228) the palette search alone would
    answer pink, and the classifier answers white. *)
Lemma grayscale_overrides_palette :
  snd (foldl (search_color 229 200 228) (None, "mixed"%string) color_names)
  = "pink"%string
  /\ rgb_to_color_name 229 200 228 = "white"%string.
Proof. split; vm_compute; reflexivity. Qed.

(** The test is strict: at a difference of exactly 30 the palette decides. *)
Lemma grayscale_boundary_uses_palette :
  grayscale_test 230 200 230 = false
  /\ rgb_to_color_name 230 200 230 = "pink"%string.
Proof. split; vm_compute; reflexivity. Qed.

Lemma search_prototype_found r g b names color_name st target :
  color_name ∈ names ->
  fst st = None \/ found names st ->
  found names (search_prototype r g b color_name st target).
Proof.
  intros Hname Hst. unfold search_prototype.
  destruct (closer (sq_distance r g b target) (fst st)) eqn:Hcl.
  - split; simpl; eauto.
  - destruct Hst as [Hnone | Hfound]; [| exact Hfound].
    rewrite Hnone in Hcl. discriminate.
Qed.

Lemma search_color_found r g b names entry st :
  fst entry ∈ names ->
  snd entry <> [] ->
  fst st = None \/ found names st ->
  found names (search_color r g b st entry).
Proof.
  intros Hname Hne Hst. unfold search_color.
  destruct (snd entry) as [| target rest]; [congruence |]. clear Hne.
  simpl foldl.
  pose proof (search_prototype_found r g b names (fst entry) st target Hname Hst)
    as Hfirst.
  revert Hfirst.
  generalize (search_prototype r g b (fst entry) st target) as st1.
  induction rest as [| t rest IH]; intros st1 H1; simpl; [exact H1 |].
  apply IH. apply search_prototype_found; auto.
Qed.

Lemma search_found r g b names entries st :
  Forall (fun entry => fst entry ∈ names /\ snd entry <> []) entries ->
  entries <> [] ->
  fst st = None \/ found names st ->
  found names (foldl (search_color r g b) st entries).
Proof.
  intros Hall Hne Hst.
  destruct entries as [| e entries]; [congruence |]. clear Hne.
  apply Forall_cons in Hall as [[He1 He2] Hall].
  simpl foldl.
  pose proof (search_color_found r g b names e st He1 He2 Hst) as Hfirst.
  revert Hfirst.
  generalize (search_color r g b st e) as st1.
  induction Hall as [| e' entries' [H1 H2] _ IH]; intros st1 Hst1; simpl.
  - exact Hst1.
  - apply IH. apply search_color_found; auto.
Qed.

Lemma color_names_nonempty :
  Forall (fun entry : string * list RGB =>
            fst entry ∈ dict_keys color_names /\ snd entry <> [])
         color_names.
Proof.
  unfold color_names, dict_keys.
  repeat (apply Forall_cons_2;
          [split; [simpl; set_solver | discriminate] |]).
  apply Forall_nil_2.
Qed.

Lemma rgb_to_color_name_palette (r g b : Q) :
  rgb_to_color_name r g b ∈ dict_keys color_names.
Proof.
  unfold rgb_to_color_name.
  destruct (grayscale_test _ _ _).
  - destruct (_ <? _); [| destruct (_ >? _)]; simpl; set_solver.
  - apply (search_found (py_int r) (py_int g) (py_int b)
             (dict_keys color_names) color_names (None, "mixed"%string)).
    + apply color_names_nonempty.
    + discriminate.
    + left. reflexivity.
Qed.

Lemma mixed_not_in_palette : "mixed"%string ∉ dict_keys color_names.
Proof. apply (bool_decide_unpack _). vm_compute. exact I. Qed.

(** ** Dictionaries *)

Lemma dict_set_Forall {V : Type} (P : string * V -> Prop) (d : dict V) k v :
  Forall P d -> (forall k', k' = k -> P (k', v)) -> Forall P (dict_set d k v).
Proof.
  intros Hd Hkv. induction Hd as [| [k' v'] d Hx Hd IH]; simpl.
  - repeat constructor. auto.
  - destruct (String.eqb_spec k' k) as [-> | Hne]; constructor; auto.
Qed.

(** ** The region colour aggregator *)

Lemma insert_desc_perm item l : insert_desc item l ≡ₚ item :: l.
Proof.
  induction l as [| item' l IH]; simpl; [reflexivity |].
  destruct (_ <? _); [| reflexivity].
  rewrite IH. apply Permutation_swap.
Qed.

Lemma sorted_desc_perm items : sorted_desc items ≡ₚ items.
Proof.
  unfold sorted_desc. induction items as [| item items IH]; simpl; [reflexivity |].
  rewrite insert_desc_perm, IH. reflexivity.
Qed.

Lemma count_region_keys {lib : Pillow} (P : string -> Prop) image region color_counts :
  (forall m, stat_mean (crop image region) = Ok m -> P (classify_mean m)) ->
  Forall (fun item => P (fst item)) color_counts ->
  Forall (fun item => P (fst item)) (count_region image color_counts region).
Proof.
  intros Hm Hd. unfold count_region.
  destruct (stat_mean (crop image region)) as [m | e]; [| exact Hd].
  apply dict_set_Forall; [exact Hd |].
  intros k' ->. simpl. auto.
Qed.

Lemma count_regions_keys {lib : Pillow} (P : string -> Prop) image rs color_counts :
  (forall region m, region ∈ rs -> stat_mean (crop image region) = Ok m ->
                    P (classify_mean m)) ->
  Forall (fun item => P (fst item)) color_counts ->
  Forall (fun item => P (fst item)) (foldl (count_region image) color_counts rs).
Proof.
  revert color_counts.
  induction rs as [| region rs IH]; intros color_counts Hm Hd; simpl; [exact Hd |].
  apply IH.
  - intros region' m Hin. apply Hm. right. exact Hin.
  - apply count_region_keys; [| exact Hd].
    intros m. apply Hm. left.
Qed.

(** The candidates of the ranking: keys of the tally, whatever their rank. *)
Lemma ranked_keys {lib : Pillow} (P : string -> Prop) image n :
  (forall region m, region ∈ regions (width image) (height image) ->
                    stat_mean (crop image region) = Ok m -> P (classify_mean m)) ->
  Forall (fun item => P (fst item))
         (take n (sorted_desc (foldl (count_region image) []
                                     (regions (width image) (height image))))).
Proof.
  intros Hm. apply Forall_take.
  rewrite sorted_desc_perm.
  apply count_regions_keys; [exact Hm | constructor].
Qed.

Lemma append_new_extends items : forall colors,
  exists extra,
    foldl append_new colors items = colors ++ extra
    /\ (forall x, x ∈ extra -> x ∈ map fst items /\ x ∉ colors)
    /\ NoDup extra.
Proof.
  induction items as [| item items IH]; intros colors; simpl.
  - exists []. rewrite app_nil_r. split; [reflexivity |].
    split; [| constructor]. intros x Hx. inversion Hx.
  - unfold append_new at 2. unfold str_in.
    destruct (bool_decide_reflect (fst item ∈ colors)) as [Hin | Hnin].
    + destruct (IH colors) as (extra & Heq & Hex & Hnd).
      exists extra. split; [exact Heq |]. split; [| exact Hnd].
      intros x Hx. destruct (Hex x Hx) as [H1 H2].
      split; [right; exact H1 | exact H2].
    + destruct (IH (colors ++ [fst item])) as (extra & Heq & Hex & Hnd).
      exists (fst item :: extra). rewrite Heq, <- app_assoc. simpl.
      split; [reflexivity |]. split.
      * intros x Hx. apply elem_of_cons in Hx as [-> | Hx].
        -- split; [left | exact Hnin].
        -- destruct (Hex x Hx) as [H1 H2]. split; [right; exact H1 |].
           intros Hc. apply H2. apply elem_of_app. left. exact Hc.
      * constructor; [| exact Hnd].
        intros Hc. destruct (Hex _ Hc) as [_ H2]. apply H2.
        apply elem_of_app. right. left.
Qed.

Lemma analyze_colors_body_Ok {lib : Pillow} image l :
  analyze_colors_body image = Ok l ->
  exists m, stat_mean image = Ok m
    /\ l = take 3 (foldl append_new [classify_mean m]
                    (take 4 (sorted_desc
                               (foldl (count_region image) []
                                      (regions (width image) (height image)))))).
Proof.
  unfold analyze_colors_body.
  destruct (stat_mean image) as [m | e]; simpl; [| discriminate].
  intros [= <-]. exists m. split; reflexivity.
Qed.

Lemma analyze_colors_body_palette {lib : Pillow} image l :
  analyze_colors_body image = Ok l ->
  Forall (fun color => color ∈ dict_keys color_names) l.
Proof.
  intros Hl. apply analyze_colors_body_Ok in Hl as (m & _ & ->).
  apply Forall_take.
  destruct (append_new_extends
              (take 4 (sorted_desc (foldl (count_region image) []
                                          (regions (width image) (height image)))))
              [classify_mean m]) as (extra & -> & Hextra & _).
  apply Forall_app. split.
  - apply Forall_cons_2; [| apply Forall_nil_2].
    destruct m as [[r g] b]. apply rgb_to_color_name_palette.
  - apply Forall_forall. intros x Hx. apply Hextra in Hx as [Hx _].
    apply list_elem_of_fmap in Hx as (item & -> & Hitem).
    pose proof (ranked_keys (fun color => color ∈ dict_keys color_names) image 4) as Hr.
    rewrite Forall_forall in Hr. apply Hr; [| exact Hitem].
    intros region [[r g] b] _ _. apply rgb_to_color_name_palette.
Qed.

(** C10: an input that fails the grayscale test is named after one of the
    eleven palette colours; the initial value "mixed" of the search never
    comes out of the classifier, and it is in the detected colours only when
    the aggregator took its fallback, which returns ["mixed"] alone. *)
Theorem mixed_only_from_fallback {lib : Pillow} :
  dict_keys color_names
  = [ "red"; "green"; "blue"; "yellow"; "purple"; "orange"; "pink"; "brown";
      "gray"; "black"; "white" ]%string
  /\ (forall r g b : Q,
        grayscale_test (py_int r) (py_int g) (py_int b) = false ->
        rgb_to_color_name r g b ∈ dict_keys color_names)
  /\ (forall r g b : Q, rgb_to_color_name r g b <> "mixed"%string)
  /\ (forall image : Image,
        "mixed"%string ∈ analyze_colors image ->
        raises (analyze_colors_body image)
        /\ analyze_colors image = ["mixed"%string]).
Proof.
  split; [reflexivity |]. split; [| split].
  - intros r g b _. apply rgb_to_color_name_palette.
  - intros r g b Heq.
    apply mixed_not_in_palette. rewrite <- Heq. apply rgb_to_color_name_palette.
  - intros image. unfold analyze_colors.
    destruct (analyze_colors_body image) as [l | e] eqn:Hbody; simpl.
    + intros Hin. exfalso. apply mixed_not_in_palette.
      apply analyze_colors_body_palette in Hbody.
      rewrite Forall_forall in Hbody. apply Hbody. exact Hin.
    + intros _. split; [exists e |]; reflexivity.
Qed.

Lemma mixed_only_from_fallback_witness :
  rgb_to_color_name 200 30 (91 # 2) ∈ dict_keys color_names
  /\ raises (analyze_colors_body (lib := mean_raises) empty_image)
  /\ analyze_colors (lib := mean_raises) empty_image = ["mixed"%string].
Proof.
  destruct (mixed_only_from_fallback (lib := mean_raises))
    as (_ & Hpalette & _ & Hmixed).
  split.
  - apply Hpalette. vm_compute. reflexivity.
  - apply Hmixed. vm_compute. left.
Defined.

(** *** Solid-colour images *)



Lemma getdata_elem image p :
  p ∈ getdata image <->
  exists x y, 0 <= x < width image /\ 0 <= y < height image
              /\ p = getpixel image x y.
Proof.
  unfold getdata. rewrite list_elem_of_bind. split.
  - intros (y & Hp & Hy). apply list_elem_of_bind in Hp as (x & Hp & Hx).
    apply list_elem_of_singleton in Hp.
    apply elem_of_seqZ in Hy. apply elem_of_seqZ in Hx.
    exists x, y. repeat split; try lia. exact Hp.
  - intros (x & y & Hx & Hy & ->). exists y. split.
    + apply list_elem_of_bind. exists x. split; [left |].
      apply elem_of_seqZ. lia.
    + apply elem_of_seqZ. lia.
Qed.


Lemma getdata_nonempty image :
  0 < width image -> 0 < height image -> getdata image <> [].
Proof.
  intros Hw Hh Hnil.
  assert (Hin : getpixel image 0 0 ∈ getdata image).
  { apply getdata_elem. exists 0, 0. repeat split; lia. }
  rewrite Hnil in Hin. inversion Hin.
Qed.

(** On a raster without pixels every band has the library's empty mean. *)
Lemma stat_mean_empty {lib : Pillow} image :
  getdata image = [] ->
  stat_mean image = let! q := empty_mean in Ok (q, q, q).
Proof.
  intros Hnil. unfold stat_mean, band_mean. rewrite Hnil. cbn [length].
  destruct empty_mean; reflexivity.
Qed.




(** On an image at least two pixels wide and high each region has a pixel. *)
Lemma regions_pixels image region :
  2 <= width image -> 2 <= height image ->
  region ∈ regions (width image) (height image) ->
  getdata (crop image region) <> [].
Proof.
  intros Hw Hh Hin.
  pose proof (Z.div_mod (width image) 2 ltac:(lia)).
  pose proof (Z.mod_pos_bound (width image) 2 ltac:(lia)).
  pose proof (Z.div_mod (height image) 2 ltac:(lia)).
  pose proof (Z.mod_pos_bound (height image) 2 ltac:(lia)).
  pose proof (Z.div_mod (width image) 4 ltac:(lia)).
  pose proof (Z.mod_pos_bound (width image) 4 ltac:(lia)).
  pose proof (Z.div_mod (height image) 4 ltac:(lia)).
  pose proof (Z.mod_pos_bound (height image) 4 ltac:(lia)).
  pose proof (Z.div_mod (3 * width image) 4 ltac:(lia)).
  pose proof (Z.mod_pos_bound (3 * width image) 4 ltac:(lia)).
  pose proof (Z.div_mod (3 * height image) 4 ltac:(lia)).
  pose proof (Z.mod_pos_bound (3 * height image) 4 ltac:(lia)).
  apply getdata_nonempty; unfold regions in Hin;
    repeat (apply elem_of_cons in Hin as [-> | Hin];
            [cbn [crop width height]; lia |]);
    inversion Hin.
Qed.


Lemma analyze_colors_Ok {lib : Pillow} image m :
  stat_mean image = Ok m ->
  analyze_colors image
  = take 3 (foldl append_new [classify_mean m]
              (take 4 (sorted_desc
                         (foldl (count_region image) []
                                (regions (width image) (height image)))))).
Proof.
  intros Hm. unfold analyze_colors, analyze_colors_body. rewrite Hm. reflexivity.
Qed.


Lemma analyze_colors_head {lib : Pillow} image m :
  stat_mean image = Ok m ->
  exists rest, analyze_colors image = classify_mean m :: rest
               /\ (classify_mean m ∉ rest)
               /\ NoDup rest
               /\ (length rest <= 2)%nat.
Proof.
  intros Hm. rewrite (analyze_colors_Ok image m Hm).
  destruct (append_new_extends
              (take 4 (sorted_desc (foldl (count_region image) []
                                          (regions (width image) (height image)))))
              [classify_mean m]) as (extra & -> & Hextra & Hnd).
  simpl. exists (take 2 extra). split; [reflexivity |].
  split; [| split].
  - intros Hin. apply elem_of_take in Hin as (i & Hi & _).
    apply list_elem_of_lookup_2 in Hi.
    destruct (Hextra _ Hi) as [_ Hnot]. apply Hnot. left.
  - apply (sublist_NoDup (take 2 extra) extra Hnd), sublist_take.
  - rewrite length_take. lia.
Qed.




(** ** In-place writes to the feature vector *)

Lemma writes_refl W f : writes W f f.
Proof. split; [reflexivity | intros i; left; reflexivity]. Qed.

Lemma writes_trans W f1 f2 f3 :
  writes W f1 f2 -> writes W f2 f3 -> writes W f1 f3.
Proof.
  intros [Hl12 H12] [Hl23 H23]. split; [congruence |].
  intros i. destruct (H23 i) as [Heq | Hw]; [| right; exact Hw].
  rewrite Heq. apply H12.
Qed.

Lemma writes_mono (W W' : nat -> float -> Prop) f f' :
  (forall i v, W i v -> W' i v) -> writes W f f' -> writes W' f f'.
Proof.
  intros Himp [Hl H]. split; [exact Hl |].
  intros i. destruct (H i) as [Heq | (v & Hv & Hw)]; [left; exact Heq |].
  right. exists v. split; [exact Hv | apply Himp; exact Hw].
Qed.

Lemma writes_insert (W : nat -> float -> Prop) f i v :
  W i v -> writes W f (<[i := v]> f).
Proof.
  intros Hw. split; [apply length_insert |].
  intros j. destruct (decide (i = j)) as [<- | Hne].
  - destruct (decide (i < length f)%nat) as [Hlt | Hge].
    + right. exists v. split; [apply list_lookup_insert_eq; exact Hlt | exact Hw].
    + left. rewrite list_insert_ge by lia. reflexivity.
  - left. apply list_lookup_insert_ne. exact Hne.
Qed.

Lemma writes_foldl {A : Type} W (step : list float -> A -> list float) xs :
  forall f,
    (forall x f0, x ∈ xs -> writes W f0 (step f0 x)) ->
    writes W f (foldl step f xs).
Proof.
  induction xs as [| x xs IH]; intros f Hstep; simpl; [apply writes_refl |].
  apply (writes_trans W f (step f x)).
  - apply Hstep. left.
  - apply IH. intros x' f0 Hin. apply Hstep. right. exact Hin.
Qed.

Lemma writes_for_each {A : Type} W (step : list float -> A -> result (list float)) xs :
  forall f f',
    (forall x f0 f1, x ∈ xs -> step f0 x = Ok f1 -> writes W f0 f1) ->
    for_each step xs f = Ok f' ->
    writes W f f'.
Proof.
  induction xs as [| x xs IH]; intros f f' Hstep; simpl.
  - intros [= <-]. apply writes_refl.
  - destruct (step f x) as [f1 | e] eqn:Hf1; simpl; [| discriminate].
    intros Hrest. apply (writes_trans W f f1).
    + apply (Hstep x f f1); [left | exact Hf1].
    + apply IH; [| exact Hrest].
      intros x' f0 f2 Hin. apply Hstep. right. exact Hin.
Qed.

Lemma enumerate_lookup {A : Type} (xs : list A) j i x :
  enumerate xs !! j = Some (i, x) <-> i = j /\ xs !! j = Some x.
Proof.
  unfold enumerate. rewrite lookup_zip_Some, lookup_seq. split.
  - intros [[-> _] Hx]. split; [reflexivity | exact Hx].
  - intros [-> Hx]. split; [| exact Hx].
    split; [reflexivity |]. apply lookup_lt_Some in Hx. exact Hx.
Qed.

Lemma enumerate_elem {A : Type} (xs : list A) i x :
  (i, x) ∈ enumerate xs <-> xs !! i = Some x.
Proof.
  rewrite list_elem_of_lookup. split.
  - intros [j Hj]. apply enumerate_lookup in Hj as [-> Hx]. exact Hx.
  - intros Hx. exists i. apply enumerate_lookup. split; [reflexivity | exact Hx].
Qed.

Lemma dict_get_elem {V : Type} (d : dict V) k v :
  dict_get d k = Some v -> (k, v) ∈ d.
Proof.
  induction d as [| [k' v'] d IH]; simpl; [discriminate |].
  destruct (String.eqb_spec k' k) as [-> | Hne].
  - intros [= ->]. left.
  - intros H. right. apply IH. exact H.
Qed.

Lemma color_map_range color i :
  dict_get color_map color = Some i -> (i < 11)%nat.
Proof.
  intros H. apply dict_get_elem in H. unfold color_map in H.
  repeat (apply elem_of_cons in H as [[= _ ->] | H]; [lia |]).
  inversion H.
Qed.

Lemma object_features_range obj_name i :
  dict_get object_features obj_name = Some i -> (11 <= i < 18)%nat.
Proof.
  intros H. apply dict_get_elem in H. unfold object_features in H.
  repeat (apply elem_of_cons in H as [[= _ ->] | H]; [lia |]).
  inversion H.
Qed.

(** ** The image embedding encoder *)

Lemma set_color_writes colors color f :
  color ∈ colors -> writes (color_writes colors) f (set_color f color).
Proof.
  intros Hin. unfold set_color.
  destruct (dict_get color_map color) as [i |] eqn:Hi; [| apply writes_refl].
  apply writes_insert. split; [reflexivity |]. exists color. auto.
Qed.

Lemma set_object_writes objs obj f :
  obj ∈ objs -> writes (object_writes objs) f (set_object f obj).
Proof.
  intros Hin. unfold set_object.
  destruct (dict_get object_features _) as [i |] eqn:Hi; [| apply writes_refl].
  apply writes_insert. exists obj. auto.
Qed.

Lemma set_emotion_writes emotions item f :
  item ∈ enumerate (take 20 emotions) ->
  writes (emotion_writes emotions) f (set_emotion f item).
Proof.
  destruct item as [j [emotion score]]. intros Hin.
  apply enumerate_elem in Hin. unfold set_emotion.
  destruct (j <? 20)%nat; [| apply writes_refl].
  apply writes_insert. exists j, emotion. split; [exact Hin | reflexivity].
Qed.

Lemma set_keyword_writes hash keywords item f f' :
  item ∈ enumerate (take 12 keywords) ->
  set_keyword hash f item = Ok f' ->
  writes (keyword_writes hash keywords) f f'.
Proof.
  destruct item as [j keyword]. intros Hin.
  apply enumerate_elem in Hin. unfold set_keyword.
  destruct (j <? 12)%nat.
  - destruct (hash keyword) as [h | e] eqn:Hh; simpl; [| discriminate].
    intros [= <-]. apply writes_insert.
    exists j, keyword, h. auto.
  - intros [= <-]. apply writes_refl.
Qed.

Lemma encoder_body_stages hash r f :
  generate_simple_embedding_body hash r = Ok f ->
  let f1 := foldl set_color (replicate 50 0%float) (colors r) in
  let f2 := foldl set_object f1 (objects r) in
  writes (color_writes (colors r)) (replicate 50 0%float) f1
  /\ writes (object_writes (objects r)) f1 f2
  /\ writes (fun i v => emotion_writes (emotions r) i v
                        \/ keyword_writes hash (search_keywords r) i v) f2 f.
Proof.
  unfold generate_simple_embedding_body. cbv zeta.
  set (f1 := foldl set_color (replicate 50 0%float) (colors r)).
  set (f2 := foldl set_object f1 (objects r)).
  set (f3 := foldl set_emotion f2 (enumerate (take 20 (emotions r)))).
  intros Hbody. split; [| split].
  - apply writes_foldl. intros color f0 Hin. apply set_color_writes. exact Hin.
  - apply writes_foldl. intros obj f0 Hin. apply set_object_writes. exact Hin.
  - apply (writes_trans _ _ f3).
    + apply (writes_mono (emotion_writes (emotions r))); [tauto |].
      apply writes_foldl. intros item f0 Hin. apply set_emotion_writes. exact Hin.
    + apply (writes_mono (keyword_writes hash (search_keywords r))); [tauto |].
      apply (writes_for_each _ (set_keyword hash)
               (enumerate (take 12 (search_keywords r)))); [| exact Hbody].
      intros item f0 f4 Hin Hstep.
      apply (set_keyword_writes hash (search_keywords r) item); assumption.
Qed.

Lemma encoder_body_writes hash r f :
  generate_simple_embedding_body hash r = Ok f ->
  writes (encoder_writes hash r) (replicate 50 0%float) f.
Proof.
  intros Hbody. destruct (encoder_body_stages hash r f Hbody) as (H1 & H2 & H3).
  eapply writes_trans; [| eapply writes_trans].
  - eapply writes_mono; [| exact H1]. unfold encoder_writes. tauto.
  - eapply writes_mono; [| exact H2]. unfold encoder_writes. tauto.
  - eapply writes_mono; [| exact H3]. unfold encoder_writes. tauto.
Qed.

Lemma writes_untouched W f f' i :
  writes W f f' -> (forall v, ~ W i v) -> f' !! i = f !! i.
Proof.
  intros [_ H] Hno. destruct (H i) as [Heq | (v & _ & Hw)]; [exact Heq |].
  exfalso. exact (Hno v Hw).
Qed.

Lemma emotion_writes_range emotions i v :
  emotion_writes emotions i v ->
  (18 <= i < 18 + length (take 20 emotions))%nat.
Proof.
  intros (j & emotion & Hj & ->). apply lookup_lt_Some in Hj. lia.
Qed.

Lemma keyword_writes_range hash keywords i v :
  keyword_writes hash keywords i v ->
  (38 <= i < 38 + length (take 12 keywords))%nat.
Proof.
  intros (j & keyword & h & Hj & _ & -> & _). apply lookup_lt_Some in Hj. lia.
Qed.

Lemma encoder_writes_used hash r i v :
  encoder_writes hash r i v -> slot_used r i.
Proof.
  intros [[_ Hc] | [(obj & Hin & Hi & _) | [He | Hk]]].
  - left. exact Hc.
  - right. left. exists obj. auto.
  - right. right. left. eapply emotion_writes_range. exact He.
  - right. right. right. eapply keyword_writes_range. exact Hk.
Qed.

Lemma encoder_length hash r :
  length (generate_simple_embedding hash r) = 50%nat.
Proof.
  unfold generate_simple_embedding.
  destruct (generate_simple_embedding_body hash r) as [f | e] eqn:Hbody;
    unfold try_except.
  - apply encoder_body_writes in Hbody as [Hlen _].
    rewrite Hlen. apply length_replicate.
  - apply length_replicate.
Qed.

Lemma encoder_unused hash r i :
  (i < 50)%nat -> ~ slot_used r i ->
  generate_simple_embedding hash r !! i = Some 0%float.
Proof.
  intros Hi Hunused. unfold generate_simple_embedding.
  destruct (generate_simple_embedding_body hash r) as [f | e] eqn:Hbody;
    unfold try_except.
  - apply encoder_body_writes in Hbody.
    rewrite (writes_untouched _ _ _ i Hbody).
    + apply lookup_replicate_2. exact Hi.
    + intros v Hw. apply Hunused. eapply encoder_writes_used. exact Hw.
  - apply lookup_replicate_2. exact Hi.
Qed.

Lemma hash_value_in_unit (h : Z) :
  in_unit (float_of_Z (Z.abs h mod 100) / 100) = true.
Proof.
  assert (Hall : forallb (fun n => in_unit (float_of_Z n / 100)) (seqZ 0 100) = true)
    by (vm_compute; reflexivity).
  rewrite forallb_forall in Hall. apply Hall.
  apply list_elem_of_In, elem_of_seqZ.
  pose proof (Z.mod_pos_bound (Z.abs h) 100). lia.
Qed.

Lemma encoder_in_unit hash r :
  (forall obj, obj ∈ objects r -> in_unit (default 0.5%float (confidence obj)) = true) ->
  (forall emotion score, (emotion, score) ∈ emotions r -> in_unit score = true) ->
  Forall (fun x => in_unit x = true) (generate_simple_embedding hash r).
Proof.
  intros Hobj Hemo. unfold generate_simple_embedding.
  destruct (generate_simple_embedding_body hash r) as [f | e] eqn:Hbody;
    unfold try_except.
  - apply encoder_body_writes in Hbody as [_ Hw].
    apply Forall_lookup. intros i x Hx.
    destruct (Hw i) as [Heq | (v & Hv & Hwv)].
    + rewrite Hx in Heq. symmetry in Heq.
      apply lookup_replicate in Heq as [-> _]. reflexivity.
    + rewrite Hx in Hv. injection Hv as ->.
      destruct Hwv as [[-> _] | [(obj & Hin & _ & ->) | [He | Hk]]].
      * reflexivity.
      * apply Hobj. exact Hin.
      * destruct He as (j & emotion & Hj & _).
        apply (Hemo emotion). apply list_elem_of_lookup_2 in Hj.
        apply elem_of_take in Hj as (k & Hk & _).
        apply list_elem_of_lookup_2 in Hk. exact Hk.
      * destruct Hk as (j & keyword & h & _ & _ & _ & ->).
        apply hash_value_in_unit.
  - apply Forall_replicate. reflexivity.
Qed.

Lemma foldl_keeps {A : Type} (step : list float -> A -> list float) i v xs :
  (forall f x, f !! i = Some v -> step f x !! i = Some v) ->
  forall f, f !! i = Some v -> foldl step f xs !! i = Some v.
Proof.
  intros Hstep. induction xs as [| x xs IH]; intros f Hf; simpl; [exact Hf |].
  apply IH, Hstep, Hf.
Qed.

Lemma set_color_length f color : length (set_color f color) = length f.
Proof.
  unfold set_color. destruct (dict_get color_map color); [apply length_insert | reflexivity].
Qed.

Lemma set_color_keeps_one f color i :
  f !! i = Some 1%float -> set_color f color !! i = Some 1%float.
Proof.
  intros Hf. unfold set_color.
  destruct (dict_get color_map color) as [j |]; [| exact Hf].
  destruct (decide (j = i)) as [-> | Hne].
  - apply list_lookup_insert_eq. apply lookup_lt_Some in Hf. exact Hf.
  - rewrite list_lookup_insert_ne by exact Hne. exact Hf.
Qed.

Lemma foldl_set_color_hit colors color i :
  color ∈ colors ->
  dict_get color_map color = Some i ->
  forall f, (i < length f)%nat -> foldl set_color f colors !! i = Some 1%float.
Proof.
  intros Hin Hi. induction Hin as [color colors | color c colors Hin IH];
    intros f Hlen; cbn [foldl].
  - apply foldl_keeps; [intros f0 x; apply set_color_keeps_one |].
    unfold set_color. rewrite Hi. apply list_lookup_insert_eq. exact Hlen.
  - apply IH; [exact Hi |]. rewrite set_color_length. exact Hlen.
Qed.

Lemma foldl_set_object_length objs :
  forall f, length (foldl set_object f objs) = length f.
Proof.
  induction objs as [| o objs IH]; intros f; cbn [foldl]; [reflexivity |].
  rewrite IH. unfold set_object.
  destruct (dict_get object_features (default ""%string (name o)));
    [apply length_insert | reflexivity].
Qed.

Lemma foldl_set_object_hit objs i :
  forall f,
    (i < length f)%nat ->
    (exists obj, obj ∈ objs
                 /\ dict_get object_features (default ""%string (name obj)) = Some i) ->
    exists obj, obj ∈ objs
      /\ dict_get object_features (default ""%string (name obj)) = Some i
      /\ foldl set_object f objs !! i = Some (default 0.5%float (confidence obj)).
Proof.
  induction objs as [| o objs IH] using rev_ind; intros f Hlen (obj & Hin & Hi).
  - inversion Hin.
  - rewrite foldl_app. cbn [foldl].
    assert (Hlen' : (i < length (foldl set_object f objs))%nat)
      by (rewrite foldl_set_object_length; exact Hlen).
    destruct (dict_get object_features (default ""%string (name o))) as [j |] eqn:Hj.
    + destruct (decide (j = i)) as [-> | Hne].
      * exists o. split; [apply elem_of_app; right; left |]. split; [exact Hj |].
        unfold set_object. rewrite Hj. apply list_lookup_insert_eq. exact Hlen'.
      * apply elem_of_app in Hin as [Hin | Hin].
        -- destruct (IH f Hlen (ex_intro _ obj (conj Hin Hi))) as (o' & Hin' & Hi' & Hv).
           exists o'. split; [apply elem_of_app; left; exact Hin' |].
           split; [exact Hi' |].
           unfold set_object. rewrite Hj, list_lookup_insert_ne by exact Hne. exact Hv.
        -- apply list_elem_of_singleton in Hin. subst obj. congruence.
    + apply elem_of_app in Hin as [Hin | Hin].
      * destruct (IH f Hlen (ex_intro _ obj (conj Hin Hi))) as (o' & Hin' & Hi' & Hv).
        exists o'. split; [apply elem_of_app; left; exact Hin' |].
        split; [exact Hi' |].
        unfold set_object. rewrite Hj. exact Hv.
      * apply list_elem_of_singleton in Hin. subst obj. congruence.
Qed.

Lemma object_features_name obj_name i :
  dict_get object_features obj_name = Some i ->
  dict_keys object_features !! (i - 11)%nat = Some obj_name.
Proof.
  intros H. apply dict_get_elem in H. unfold object_features in H.
  repeat (apply elem_of_cons in H as [[= -> ->] | H]; [reflexivity |]).
  inversion H.
Qed.

Lemma object_features_inj n1 n2 i :
  dict_get object_features n1 = Some i ->
  dict_get object_features n2 = Some i ->
  n1 = n2.
Proof.
  intros H1 H2. apply object_features_name in H1, H2. congruence.
Qed.

Lemma encoder_color_slot hash r f color i :
  dict_get color_map color = Some i ->
  color ∈ colors r ->
  generate_simple_embedding_body hash r = Ok f ->
  f !! i = Some 1%float.
Proof.
  intros Hi Hin Hbody.
  pose proof (color_map_range color i Hi) as Hrange.
  destruct (encoder_body_stages hash r f Hbody) as (_ & H2 & H3).
  rewrite (writes_untouched _ _ _ i H3).
  - rewrite (writes_untouched _ _ _ i H2).
    + apply (foldl_set_color_hit (colors r) color i Hin Hi).
      rewrite length_replicate. lia.
    + intros v (obj & _ & Hobj & _). apply object_features_range in Hobj. lia.
  - intros v [He | Hk].
    + apply emotion_writes_range in He. lia.
    + apply keyword_writes_range in Hk. lia.
Qed.

Lemma encoder_object_slot hash r f label i :
  dict_get object_features label = Some i ->
  (exists obj, obj ∈ objects r /\ name obj = Some label) ->
  generate_simple_embedding_body hash r = Ok f ->
  exists obj, obj ∈ objects r
    /\ default ""%string (name obj) = label
    /\ f !! i = Some (default 0.5%float (confidence obj)).
Proof.
  intros Hi (obj & Hin & Hname) Hbody.
  pose proof (object_features_range label i Hi) as Hrange.
  destruct (encoder_body_stages hash r f Hbody) as ([Hlen1 _] & _ & H3).
  destruct (foldl_set_object_hit (objects r) i
              (foldl set_color (replicate 50 0%float) (colors r)))
    as (obj' & Hin' & Hi' & Hv).
  { rewrite Hlen1, length_replicate. lia. }
  { exists obj. split; [exact Hin |]. rewrite Hname. exact Hi. }
  exists obj'. split; [exact Hin' |]. split.
  - exact (object_features_inj _ _ i Hi' Hi).
  - rewrite (writes_untouched _ _ _ i H3); [exact Hv |].
    intros v [He | Hk].
    + apply emotion_writes_range in He. lia.
    + apply keyword_writes_range in Hk. lia.
Qed.

(** ** The query embedding encoder *)

Lemma set_if_length cond i e : length (set_if cond i e) = length e.
Proof. unfold set_if. destruct cond; [apply length_insert | reflexivity]. Qed.

Lemma set_if_ne cond j e i : j <> i -> set_if cond j e !! i = e !! i.
Proof.
  intros Hne. unfold set_if. destruct cond; [| reflexivity].
  apply list_lookup_insert_ne. exact Hne.
Qed.

Lemma set_if_eq cond i e old :
  e !! i = Some old ->
  set_if cond i e !! i = Some (if cond then 1%float else old).
Proof.
  intros Hold. unfold set_if. destruct cond; [| exact Hold].
  apply list_lookup_insert_eq. apply lookup_lt_Some in Hold. exact Hold.
Qed.

Lemma query_embedding_chain q :
  let words := split (lower q) in
  query_embedding q
  = set_if (any_in ["tall"; "portrait"; "vertical"]%string words) 12
      (set_if (any_in ["wide"; "landscape"; "horizontal"]%string words) 11
      (set_if (any_in ["dark"; "night"; "shadow"]%string words) 14
      (set_if (any_in ["bright"; "light"; "sunny"]%string words) 13
      (set_if (any_contains "gray" words) 10
      (set_if (any_contains "white" words) 9
      (set_if (any_contains "black" words) 8
      (set_if (any_contains "brown" words) 7
      (set_if (any_contains "pink" words) 6
      (set_if (any_contains "orange" words) 5
      (set_if (any_contains "purple" words) 4
      (set_if (any_contains "yellow" words) 3
      (set_if (any_contains "blue" words) 2
      (set_if (any_contains "green" words) 1
      (set_if (any_contains "red" words) 0
              (replicate 50 0%float))))))))))))))).
Proof. reflexivity. Qed.

(** The value of one slot of a chain of conditional writes. *)
Ltac chain_lookup :=
  rewrite ?set_if_ne by lia;
  first
    [ apply lookup_replicate_2; lia
    | apply set_if_eq; rewrite ?set_if_ne by lia; apply lookup_replicate_2; lia ].

Lemma query_color_slot q color i :
  color_words !! i = Some color ->
  query_embedding q !! i
  = Some (if any_contains color (split (lower q)) then 1%float else 0%float).
Proof.
  intros Hi. rewrite query_embedding_chain. cbv zeta.
  unfold color_words in Hi.
  do 11 (destruct i as [| i]; [injection Hi as <-; chain_lookup |]).
  discriminate.
Qed.

Lemma query_label_slots q :
  let words := split (lower q) in
  query_embedding q !! 11%nat
  = Some (if any_in ["wide"; "landscape"; "horizontal"]%string words
          then 1%float else 0%float)
  /\ query_embedding q !! 12%nat
     = Some (if any_in ["tall"; "portrait"; "vertical"]%string words
             then 1%float else 0%float)
  /\ query_embedding q !! 13%nat
     = Some (if any_in ["bright"; "light"; "sunny"]%string words
             then 1%float else 0%float)
  /\ query_embedding q !! 14%nat
     = Some (if any_in ["dark"; "night"; "shadow"]%string words
             then 1%float else 0%float).
Proof.
  rewrite query_embedding_chain. cbv zeta.
  repeat split; chain_lookup.
Qed.

Lemma query_other_slots q i :
  (15 <= i < 50)%nat -> query_embedding q !! i = Some 0%float.
Proof.
  intros Hi. rewrite query_embedding_chain. cbv zeta. chain_lookup.
Qed.

Lemma color_tables_agree color i :
  dict_get color_map color = Some i <-> color_words !! i = Some color.
Proof.
  split; intros H.
  - apply dict_get_elem in H. unfold color_map in H.
    repeat (apply elem_of_cons in H as [[= -> ->] | H]; [reflexivity |]).
    inversion H.
  - unfold color_words in H.
    do 11 (destruct i as [| i]; [injection H as <-; reflexivity |]).
    discriminate.
Qed.

(** C1: the two encoders agree on the slot of every shared concept.  Each of
    the eleven colour names has in the image encoder's table the index it has
    in the query encoder's list (red 0, green 1, blue 2, yellow 3, purple 4,
    orange 5, pink 6, brown 7, black 8, white 9, gray 10); a detected colour
    sets that slot of the image embedding to 1.0 and a query token containing
    the name sets the same slot of the query embedding to 1.0.  The labels
    landscape, portrait, bright_image and dark_image have the slots 11, 12,
    13 and 14 in the image encoder, which stores the object's confidence
    there, and the query encoder writes 1.0 to the same four slots for its
    landscape, portrait, bright and dark vocabularies. *)
Theorem slot_layout_shared :
  color_words
  = [ "red"; "green"; "blue"; "yellow"; "purple"; "orange"; "pink"; "brown";
      "black"; "white"; "gray" ]%string
  /\ (forall (color : string) (i : nat),
        dict_get color_map color = Some i <-> color_words !! i = Some color)
  /\ (forall (hash : string -> result Z) (r : AnalysisResult) (f : list float)
             (color : string) (i : nat),
        color_words !! i = Some color ->
        color ∈ colors r ->
        generate_simple_embedding_body hash r = Ok f ->
        f !! i = Some 1%float)
  /\ (forall (q color : string) (i : nat),
        color_words !! i = Some color ->
        query_embedding q !! i
        = Some (if any_contains color (split (lower q)) then 1%float else 0%float))
  /\ (dict_get object_features "landscape" = Some 11%nat
      /\ dict_get object_features "portrait" = Some 12%nat
      /\ dict_get object_features "bright_image" = Some 13%nat
      /\ dict_get object_features "dark_image" = Some 14%nat)
  /\ (forall (hash : string -> result Z) (r : AnalysisResult) (f : list float)
             (label : string) (i : nat),
        dict_get object_features label = Some i ->
        (exists obj, obj ∈ objects r /\ name obj = Some label) ->
        generate_simple_embedding_body hash r = Ok f ->
        exists obj, obj ∈ objects r
          /\ default ""%string (name obj) = label
          /\ f !! i = Some (default 0.5%float (confidence obj)))
  /\ (forall q : string,
        let words := split (lower q) in
        query_embedding q !! 11%nat
        = Some (if any_in ["wide"; "landscape"; "horizontal"]%string words
                then 1%float else 0%float)
        /\ query_embedding q !! 12%nat
           = Some (if any_in ["tall"; "portrait"; "vertical"]%string words
                   then 1%float else 0%float)
        /\ query_embedding q !! 13%nat
           = Some (if any_in ["bright"; "light"; "sunny"]%string words
                   then 1%float else 0%float)
        /\ query_embedding q !! 14%nat
           = Some (if any_in ["dark"; "night"; "shadow"]%string words
                   then 1%float else 0%float)).
Proof.
  split; [reflexivity |].
  split; [exact color_tables_agree |].
  split.
  { intros hash r f color i Hi Hin Hbody.
    apply color_tables_agree in Hi.
    exact (encoder_color_slot hash r f color i Hi Hin Hbody). }
  split; [exact query_color_slot |].
  split; [repeat split |].
  split; [exact encoder_object_slot | exact query_label_slots].
Qed.

Lemma slot_layout_shared_witness :
  dict_get color_map "blue" = Some 2%nat
  /\ (exists f : list float,
        generate_simple_embedding_body sample_hash sample_result = Ok f
        /\ f !! 2%nat = Some 1%float
        /\ exists obj, obj ∈ objects sample_result
             /\ default ""%string (name obj) = "landscape"%string
             /\ f !! 11%nat = Some (default 0.5%float (confidence obj)))
  /\ query_embedding "Navy-blue seas" !! 2%nat = Some 1%float.
Proof.
  destruct slot_layout_shared as (_ & Htab & Himg & Hqry & _ & Hobj & _).
  split; [| split].
  - apply Htab. reflexivity.
  - eexists. split; [vm_compute; reflexivity |]. split.
    + apply (Himg sample_hash sample_result _ "blue"%string 2%nat).
      * reflexivity.
      * left.
      * vm_compute. reflexivity.
    + apply (Hobj sample_hash sample_result _ "landscape"%string 11%nat).
      * reflexivity.
      * exists landscape_object. split; [left | reflexivity].
      * vm_compute. reflexivity.
  - rewrite (Hqry "Navy-blue seas"%string "blue"%string 2%nat); reflexivity.
Defined.

(** ** The emotion mapper *)

Lemma dict_get_app_notin {V : Type} (pre d : dict V) k :
  k ∉ dict_keys pre -> dict_get (pre ++ d) k = dict_get d k.
Proof.
  induction pre as [| [k' v'] pre IH]; simpl; [reflexivity |].
  intros Hnot. destruct (String.eqb_spec k' k) as [-> | Hne].
  - exfalso. apply Hnot. left.
  - apply IH. intros Hin. apply Hnot. right. exact Hin.
Qed.

Lemma dict_set_app_notin {V : Type} (pre d : dict V) k v :
  k ∉ dict_keys pre -> dict_set (pre ++ d) k v = pre ++ dict_set d k v.
Proof.
  induction pre as [| [k' v'] pre IH]; simpl; [reflexivity |].
  intros Hnot. destruct (String.eqb_spec k' k) as [-> | Hne].
  - exfalso. apply Hnot. left.
  - f_equal. apply IH. intros Hin. apply Hnot. right. exact Hin.
Qed.

Lemma dict_keys_set_eq {V : Type} (d : dict V) k v :
  dict_keys (dict_set d k v)
  = if str_in k (dict_keys d) then dict_keys d else dict_keys d ++ [k].
Proof.
  unfold str_in, dict_keys. induction d as [| [k' v'] d IH]; simpl; [reflexivity |].
  destruct (String.eqb_spec k' k) as [-> | Hne]; simpl.
  - rewrite bool_decide_eq_true_2 by left. reflexivity.
  - rewrite IH. destruct (bool_decide_reflect (k ∈ map fst d)) as [Hin | Hnin].
    + rewrite bool_decide_eq_true_2 by (right; exact Hin). reflexivity.
    + rewrite bool_decide_eq_false_2; [reflexivity |].
      intros Hin. apply elem_of_cons in Hin as [-> | Hin]; [congruence | auto].
Qed.

Lemma dict_set_NoDup {V : Type} (d : dict V) k v :
  NoDup (dict_keys d) -> NoDup (dict_keys (dict_set d k v)).
Proof.
  intros Hnd. rewrite dict_keys_set_eq. unfold str_in.
  destruct (bool_decide_reflect (k ∈ dict_keys d)) as [Hin | Hnin]; [exact Hnd |].
  apply NoDup_app. split; [exact Hnd |]. split.
  - intros x Hx Hk. apply list_elem_of_singleton in Hk. subst x. auto.
  - apply NoDup_singleton.
Qed.

Lemma dict_get_default_cases {V : Type} (P : V -> Prop) (d : dict V) k dflt :
  P dflt -> Forall (fun item => P (snd item)) d -> P (dict_get_default d k dflt).
Proof.
  intros Hdflt Hd. unfold dict_get_default.
  destruct (dict_get d k) as [v |] eqn:Hget; [| exact Hdflt].
  apply dict_get_elem in Hget. rewrite Forall_forall in Hd.
  exact (Hd (k, v) Hget).
Qed.

(** Updating every key in turn rewrites every value. *)
Lemma foldl_update_keys {V : Type} (g : V -> V) (dflt : V) (post : dict V) :
  forall pre : dict V,
    NoDup (dict_keys (pre ++ post)) ->
    foldl (fun d k => dict_set d k (g (dict_get_default d k dflt)))
          (pre ++ post) (dict_keys post)
    = pre ++ map (fun item => (fst item, g (snd item))) post.
Proof.
  induction post as [| [k v] post IH]; intros pre Hnd; simpl; [reflexivity |].
  assert (Hnot : k ∉ dict_keys pre).
  { unfold dict_keys in *. rewrite map_app in Hnd. simpl in Hnd.
    apply NoDup_app in Hnd as (_ & Hdisj & _).
    intros Hin. apply (Hdisj k Hin). left. }
  unfold dict_get_default at 2.
  rewrite dict_get_app_notin by exact Hnot.
  rewrite dict_set_app_notin by exact Hnot.
  simpl. rewrite String.eqb_refl.
  change (pre ++ (k, g v) :: post) with (pre ++ [(k, g v)] ++ post).
  rewrite app_assoc. rewrite IH.
  - rewrite <- app_assoc. reflexivity.
  - unfold dict_keys in *. rewrite <- app_assoc.
    rewrite map_app in *. exact Hnd.
Qed.

Ltac float_mem :=
  repeat first [ apply list_elem_of_here | apply list_elem_of_further ].

Ltac float_cases H :=
  repeat (apply elem_of_cons in H as [-> | H]); [.. | inversion H].

Lemma color_emotions_scores color table :
  dict_get color_emotions color = Some table ->
  Forall (fun item => snd item ∈ table_scores) table.
Proof.
  intros H. apply dict_get_elem in H. unfold color_emotions in H.
  repeat (apply elem_of_cons in H as [[= _ ->] | H];
          [repeat (apply Forall_cons_2; [simpl; unfold table_scores; float_mem |]);
           apply Forall_nil_2 |]).
  inversion H.
Qed.

Lemma py_max_table_scores a score :
  a = 0%float \/ a ∈ table_scores ->
  score ∈ table_scores ->
  py_max a score ∈ table_scores.
Proof.
  unfold table_scores. intros [-> | Ha] Hs.
  - float_cases Hs; vm_compute; float_mem.
  - float_cases Ha; float_cases Hs; vm_compute; float_mem.
Qed.

Lemma keep_max_scores emotions item :
  Forall (fun kv => snd kv ∈ table_scores) emotions ->
  snd item ∈ table_scores ->
  Forall (fun kv => snd kv ∈ table_scores) (keep_max emotions item).
Proof.
  destruct item as [emotion score]. simpl. intros Hd Hs.
  apply dict_set_Forall; [exact Hd |]. intros k' _. simpl.
  apply py_max_table_scores; [| exact Hs].
  apply (dict_get_default_cases (fun v => v = 0%float \/ v ∈ table_scores)).
  - left. reflexivity.
  - eapply Forall_impl; [exact Hd |]. intros kv Hkv. right. exact Hkv.
Qed.

Lemma keep_max_NoDup emotions item :
  NoDup (dict_keys emotions) -> NoDup (dict_keys (keep_max emotions item)).
Proof. destruct item as [emotion score]. apply dict_set_NoDup. Qed.

Lemma color_moods_inv emotions color :
  Forall (fun kv => snd kv ∈ table_scores) emotions /\ NoDup (dict_keys emotions) ->
  Forall (fun kv => snd kv ∈ table_scores) (color_moods emotions color)
  /\ NoDup (dict_keys (color_moods emotions color)).
Proof.
  unfold color_moods.
  destruct (dict_get color_emotions color) as [table |] eqn:Htable; [| tauto].
  apply color_emotions_scores in Htable.
  revert emotions. induction Htable as [| item table Hitem _ IH]; intros emotions;
    cbn [foldl]; [tauto |].
  intros [Hd Hnd]. apply IH. split.
  - apply keep_max_scores; assumption.
  - apply keep_max_NoDup. exact Hnd.
Qed.

Lemma color_loop_inv colors :
  forall emotions,
    Forall (fun kv => snd kv ∈ table_scores) emotions /\ NoDup (dict_keys emotions) ->
    Forall (fun kv => snd kv ∈ table_scores) (foldl color_moods emotions colors)
    /\ NoDup (dict_keys (foldl color_moods emotions colors)).
Proof.
  induction colors as [| color colors IH]; intros emotions Hinv; cbn [foldl];
    [exact Hinv |].
  apply IH, color_moods_inv, Hinv.
Qed.

Lemma clamp_all emotions :
  NoDup (dict_keys emotions) ->
  foldl clamp_one emotions (dict_keys emotions)
  = map (fun item => (fst item, py_min (snd item) 1%float)) emotions.
Proof.
  intros Hnd.
  exact (foldl_update_keys (fun v => py_min v 1%float) 0%float emotions [] Hnd).
Qed.

Lemma table_scores_raw v : v ∈ table_scores -> v ∈ raw_scores.
Proof. intros H. unfold raw_scores. apply elem_of_app. left. exact H. Qed.

Lemma boosted_raw a :
  a = 0%float \/ a ∈ table_scores -> (a + 0.3)%float ∈ raw_scores.
Proof.
  intros Ha. unfold raw_scores. apply elem_of_app. right.
  apply (list_elem_of_fmap_2 (fun a => (a + 0.3)%float)).
  destruct Ha as [-> | Ha]; [left | right; exact Ha].
Qed.

Lemma raw_scores_clamped v :
  v ∈ raw_scores -> in_unit (py_min v 1%float) = true.
Proof.
  intros H. unfold raw_scores, table_scores in H. simpl in H.
  float_cases H; vm_compute; reflexivity.
Qed.

(** Setting one mood and boosting another keeps the scores raw. *)
Lemma brightness_moods_inv emotions (set_key boost_key : string) (v : float) :
  v ∈ table_scores ->
  Forall (fun kv => snd kv ∈ table_scores) emotions /\ NoDup (dict_keys emotions) ->
  let emotions1 := dict_set emotions set_key v in
  let emotions2 :=
    dict_set emotions1 boost_key
             (dict_get_default emotions1 boost_key 0 + 0.3)%float in
  Forall (fun kv => snd kv ∈ raw_scores) emotions2
  /\ NoDup (dict_keys emotions2).
Proof.
  intros Hv [Hd Hnd]. cbv zeta.
  assert (Hd1 : Forall (fun kv => snd kv ∈ table_scores) (dict_set emotions set_key v)).
  { apply dict_set_Forall; [exact Hd |]. intros k' _. exact Hv. }
  split.
  - apply dict_set_Forall.
    + eapply Forall_impl; [exact Hd1 |]. intros kv. apply table_scores_raw.
    + intros k' _. simpl. apply boosted_raw.
      apply (dict_get_default_cases (fun v => v = 0%float \/ v ∈ table_scores)).
      * left. reflexivity.
      * eapply Forall_impl; [exact Hd1 |]. intros kv Hkv. right. exact Hkv.
  - apply dict_set_NoDup, dict_set_NoDup, Hnd.
Qed.

Lemma emotions_in_unit colors brightness emotion score :
  (emotion, score) ∈ analyze_emotions_from_colors colors brightness ->
  in_unit score = true.
Proof.
  unfold analyze_emotions_from_colors. cbv zeta.
  destruct (color_loop_inv colors []) as [Hd Hnd];
    [split; constructor |].
  set (emotions0 := foldl color_moods [] colors) in *.
  assert (Hraw : exists emotions2,
             (if Qgtb brightness 180
              then dict_set (dict_set emotions0 "bright" 0.8%float) "cheerful"
                     (dict_get_default (dict_set emotions0 "bright" 0.8%float)
                                       "cheerful" 0 + 0.3)%float
              else if Qltb brightness 80
                   then dict_set (dict_set emotions0 "moody" 0.7%float) "dramatic"
                          (dict_get_default (dict_set emotions0 "moody" 0.7%float)
                                            "dramatic" 0 + 0.3)%float
                   else dict_set emotions0 "balanced" 0.6%float) = emotions2
             /\ Forall (fun kv => snd kv ∈ raw_scores) emotions2
             /\ NoDup (dict_keys emotions2)).
  { eexists. split; [reflexivity |].
    destruct (Qgtb brightness 180); [| destruct (Qltb brightness 80)].
    - apply (brightness_moods_inv emotions0 "bright" "cheerful" 0.8%float);
        [unfold table_scores; float_mem | split; assumption].
    - apply (brightness_moods_inv emotions0 "moody" "dramatic" 0.7%float);
        [unfold table_scores; float_mem | split; assumption].
    - split; [| apply dict_set_NoDup, Hnd].
      apply dict_set_Forall.
      + eapply Forall_impl; [exact Hd |]. intros kv. apply table_scores_raw.
      + intros k' _. apply table_scores_raw. unfold table_scores. float_mem. }
  destruct Hraw as (emotions2 & -> & Hraw & Hnd2).
  rewrite (clamp_all emotions2 Hnd2).
  intros Hin. apply list_elem_of_fmap in Hin as ([k v] & [= -> ->] & Hin).
  apply raw_scores_clamped.
  rewrite Forall_forall in Hraw. exact (Hraw (k, v) Hin).
Qed.

(** ** The top-level image analysis *)

Lemma pseudo_objects_cases w h aspect_ratio brightness obj :
  obj ∈ pseudo_objects w h aspect_ratio brightness ->
  obj = mkObject (Some "landscape"%string) (Some 0.9%float) (full_image w h)
  \/ obj = mkObject (Some "portrait"%string) (Some 0.9%float) (full_image w h)
  \/ obj = tier_object w h
  \/ obj = mkObject (Some "bright_image"%string) (Some 0.7%float) (full_image w h)
  \/ obj = mkObject (Some "dark_image"%string) (Some 0.7%float) (full_image w h).
Proof.
  unfold pseudo_objects, tier_object. cbv zeta.
  destruct (Qgtb aspect_ratio 1.5); [| destruct (Qltb aspect_ratio 0.67)];
    (destruct (Qgtb brightness 200); [| destruct (Qltb brightness 80)]);
    cbn [app]; intros Hin;
    repeat (apply elem_of_cons in Hin as [-> | Hin]; [tauto |]);
    inversion Hin.
Qed.

Lemma tier_object_detected w h aspect_ratio brightness :
  tier_object w h ∈ pseudo_objects w h aspect_ratio brightness.
Proof.
  unfold pseudo_objects, tier_object. cbv zeta.
  destruct (Qgtb aspect_ratio 1.5); [| destruct (Qltb aspect_ratio 0.67)];
    (destruct (Qgtb brightness 200); [| destruct (Qltb brightness 80)]);
    cbn [app]; float_mem.
Qed.

Lemma size_category_cases total_pixels :
  size_category total_pixels = "high_resolution"%string
  \/ size_category total_pixels = "medium_resolution"%string
  \/ size_category total_pixels = "low_resolution"%string.
Proof.
  unfold size_category.
  destruct (total_pixels >? 2000000); [| destruct (total_pixels >? 500000)]; tauto.
Qed.

Lemma one_resolution_tier w h aspect_ratio brightness :
  List.filter is_resolution_tier (pseudo_objects w h aspect_ratio brightness)
  = [tier_object w h].
Proof.
  unfold pseudo_objects, tier_object. cbv zeta.
  destruct (size_category_cases (w * h)) as [Hc | [Hc | Hc]]; rewrite Hc;
    (destruct (Qgtb aspect_ratio 1.5); [| destruct (Qltb aspect_ratio 0.67)]);
    (destruct (Qgtb brightness 200); [| destruct (Qltb brightness 80)]);
    reflexivity.
Qed.

Lemma pseudo_objects_named w h aspect_ratio brightness :
  exists names, object_names (pseudo_objects w h aspect_ratio brightness) = Ok names.
Proof.
  unfold pseudo_objects. cbv zeta.
  destruct (Qgtb aspect_ratio 1.5); [| destruct (Qltb aspect_ratio 0.67)];
    (destruct (Qgtb brightness 200); [| destruct (Qltb brightness 80)]);
    eexists; reflexivity.
Qed.

Lemma pseudo_objects_confidence w h aspect_ratio brightness obj :
  obj ∈ pseudo_objects w h aspect_ratio brightness ->
  in_unit (default 0.5%float (confidence obj)) = true.
Proof.
  intros Hin. apply pseudo_objects_cases in Hin.
  destruct Hin as [-> | [-> | [-> | [-> | ->]]]]; reflexivity.
Qed.

Section Pipeline.

Context {lib : Pillow}.
Variable Image_open : list Byte.byte -> result Image.
Variable luma : RGB -> Z.
Variable hash : string -> result Z.
Variable list_of_set : list string -> list string.

Lemma analyze_image_basic_Ok image_bytes r :
  analyze_image_basic Image_open luma hash list_of_set image_bytes = Analysis r ->
  exists image names,
    Image_open image_bytes = Ok image
    /\ height image <> 0
    /\ let w := width image in
       let h := height image in
       let aspect_ratio := w # Z.to_pos h in
       let brightness := analyze_brightness luma image in
       object_names (pseudo_objects w h aspect_ratio brightness) = Ok names
       /\ objects r = pseudo_objects w h aspect_ratio brightness
       /\ text r = []
       /\ caption r = generate_basic_caption (analyze_colors image) (objects r) brightness
       /\ emotions r = analyze_emotions_from_colors (analyze_colors image) brightness
       /\ colors r = analyze_colors image
       /\ search_keywords r
          = list_of_set (collect_keywords (colors r) names (emotions r) aspect_ratio)
       /\ relationships r = []
       /\ semantic_concepts r
          = map color_concept (take 3 (colors r)) ++ emotion_concepts (emotions r)
       /\ clip_embedding r = generate_simple_embedding hash r.
Proof.
  unfold analyze_image_basic, analyze_image_basic_body.
  destruct (Image_open image_bytes) as [image | e] eqn:Hopen; cbn [bind];
    [| discriminate].
  destruct (Z.eqb_spec (height image) 0) as [Hz | Hnz]; cbn [bind];
    [discriminate |].
  cbv zeta.
  destruct (object_names _) as [names | e] eqn:Hnames; cbn [bind];
    [| discriminate].
  intros [= <-]. exists image, names.
  split; [reflexivity |]. split; [exact Hnz |].
  cbv zeta. split; [exact Hnames |].
  repeat split.
Qed.

Lemma analyze_image_basic_total image_bytes image :
  Image_open image_bytes = Ok image ->
  height image <> 0 ->
  exists r,
    analyze_image_basic Image_open luma hash list_of_set image_bytes = Analysis r.
Proof.
  intros Hopen Hnz.
  unfold analyze_image_basic, analyze_image_basic_body.
  rewrite Hopen. cbn [bind].
  destruct (Z.eqb_spec (height image) 0) as [Hz | _]; [contradiction |].
  cbn [bind]. cbv zeta.
  destruct (pseudo_objects_named (width image) (height image)
              (width image # Z.to_pos (height image))
              (analyze_brightness luma image)) as [names Hnames].
  rewrite Hnames. cbn [bind]. eexists. reflexivity.
Qed.

Lemma analyze_image_basic_Raise image_bytes e :
  analyze_image_basic_body Image_open luma hash list_of_set image_bytes = Raise e ->
  analyze_image_basic Image_open luma hash list_of_set image_bytes
  = Error (str_exn e).
Proof. intros H. unfold analyze_image_basic. rewrite H. reflexivity. Qed.

End Pipeline.

(** C2: the embedding of every analysed image has exactly 50 slots, each in
    [0.0, 1.0], and every slot that no colour, pseudo-object, mood or keyword
    of the result uses is 0.0; when the body of the encoder raises, the
    embedding is the vector of 50 zeros, and otherwise it is what the body
    computed. *)
Theorem image_embedding_shape {lib : Pillow} :
  forall (Image_open : list Byte.byte -> result Image) (luma : RGB -> Z)
         (hash : string -> result Z) (list_of_set : list string -> list string)
         (image_bytes : list Byte.byte) (r : AnalysisResult),
    analyze_image_basic Image_open luma hash list_of_set image_bytes = Analysis r ->
    length (clip_embedding r) = 50%nat
    /\ Forall (fun x => in_unit x = true) (clip_embedding r)
    /\ (forall i : nat, (i < 50)%nat -> ~ slot_used r i ->
                        clip_embedding r !! i = Some 0%float)
    /\ (raises (generate_simple_embedding_body hash r) ->
        clip_embedding r = replicate 50 0%float)
    /\ (forall f : list float,
          generate_simple_embedding_body hash r = Ok f -> clip_embedding r = f).
Proof.
  intros Image_open luma hash list_of_set image_bytes r Hr.
  apply analyze_image_basic_Ok in Hr
    as (image & names & _ & _ & _ & Hobj & _ & _ & Hemo & _ & _ & _ & _ & Hclip).
  rewrite Hclip. split; [apply encoder_length |]. split; [| split; [| split]].
  - apply encoder_in_unit.
    + intros obj Hin. rewrite Hobj in Hin.
      exact (pseudo_objects_confidence _ _ _ _ obj Hin).
    + intros emotion score Hin. rewrite Hemo in Hin.
      exact (emotions_in_unit _ _ emotion score Hin).
  - intros i Hi Hunused. apply encoder_unused; assumption.
  - intros [e He]. unfold generate_simple_embedding. rewrite He. reflexivity.
  - intros f Hf. unfold generate_simple_embedding. rewrite Hf. reflexivity.
Qed.

Lemma image_embedding_shape_witness :
  (exists r : AnalysisResult,
      analyze_image_basic (lib := mean_zero)
        (open_as two_tone_image) sample_luma sample_hash id []
      = Analysis r
      /\ length (clip_embedding r) = 50%nat
      /\ Forall (fun x => in_unit x = true) (clip_embedding r)
      /\ clip_embedding r !! 1%nat = Some 0%float)
  /\ (exists r : AnalysisResult,
        analyze_image_basic (lib := mean_zero)
          (open_as two_tone_image) sample_luma failing_hash id []
        = Analysis r
        /\ clip_embedding r = replicate 50 0%float).
Proof.
  split.
  - eexists. split; [vm_compute; reflexivity |].
    match goal with
    | |- length (clip_embedding ?r) = _ /\ _ =>
        destruct (image_embedding_shape (lib := mean_zero)
                    (open_as two_tone_image) sample_luma
                    sample_hash id [] r) as (Hlen & Hunit & Hzero & _)
    end.
    + vm_compute. reflexivity.
    + split; [exact Hlen |]. split; [exact Hunit |].
      apply Hzero; [lia |].
      unfold slot_used. cbn [colors objects emotions search_keywords].
      intros [(color & Hin & Hslot) | [(obj & Hin & Hslot) | [H | H]]].
      * repeat (apply elem_of_cons in Hin as [-> | Hin]; [discriminate |]).
        inversion Hin.
      * repeat (apply elem_of_cons in Hin as [-> | Hin]; [discriminate |]).
        inversion Hin.
      * lia.
      * lia.
  - eexists. split; [vm_compute; reflexivity |].
    match goal with
    | |- clip_embedding ?r = _ =>
        destruct (image_embedding_shape (lib := mean_zero)
                    (open_as two_tone_image) sample_luma
                    failing_hash id [] r) as (_ & _ & _ & Hfail & _)
    end.
    + vm_compute. reflexivity.
    + apply Hfail. eexists. vm_compute. reflexivity.
Defined.

(** C7 as stated names the last field "embedding"; the dictionary returned
    for an analysed image has no such key. *)
Lemma embedding_field_absent :
  exists r : AnalysisResult,
    analyze_image_basic (lib := mean_zero)
      (open_as two_tone_image) sample_luma sample_hash id []
    = Analysis r
    /\ ("embedding"%string ∉ response_keys (Analysis r))
    /\ response_keys (Analysis r)
       <> [ "objects"; "text"; "caption"; "emotions"; "colors"; "search_keywords";
            "relationships"; "semantic_concepts"; "embedding" ]%string.
Proof.
  eexists. split; [vm_compute; reflexivity |]. split.
  - apply (bool_decide_unpack _). vm_compute. exact I.
  - discriminate.
Qed.

(** C7, amended: the result of an analysed image has exactly the fields
    objects, text, caption, emotions, colors, search_keywords, relationships,
    semantic_concepts and clip_embedding; clip_embedding is a list of exactly
    50 floats and text is empty. *)
Theorem analysis_result_fields {lib : Pillow} :
  forall (Image_open : list Byte.byte -> result Image) (luma : RGB -> Z)
         (hash : string -> result Z) (list_of_set : list string -> list string)
         (image_bytes : list Byte.byte) (r : AnalysisResult),
    analyze_image_basic Image_open luma hash list_of_set image_bytes = Analysis r ->
    response_keys (analyze_image_basic Image_open luma hash list_of_set image_bytes)
    = [ "objects"; "text"; "caption"; "emotions"; "colors"; "search_keywords";
        "relationships"; "semantic_concepts"; "clip_embedding" ]%string
    /\ length (clip_embedding r) = 50%nat
    /\ text r = []
    /\ relationships r = [].
Proof.
  intros Image_open luma hash list_of_set image_bytes r Hr.
  rewrite Hr. split; [reflexivity |].
  apply analyze_image_basic_Ok in Hr
    as (image & names & _ & _ & _ & _ & Htext & _ & _ & _ & _ & Hrel & _ & Hclip).
  rewrite Hclip. split; [apply encoder_length |]. split; assumption.
Qed.

Lemma analysis_result_fields_witness :
  exists r : AnalysisResult,
    analyze_image_basic (lib := mean_zero)
      (open_as green_image) sample_luma sample_hash id []
    = Analysis r
    /\ length (clip_embedding r) = 50%nat
    /\ text r = [].
Proof.
  eexists. split; [vm_compute; reflexivity |].
  match goal with
  | |- length (clip_embedding ?r) = _ /\ _ =>
      destruct (analysis_result_fields (lib := mean_zero)
                  (open_as green_image) sample_luma
                  sample_hash id [] r) as (_ & Hlen & Htext & _)
  end.
  - vm_compute. reflexivity.
  - split; assumption.
Defined.

(** C8: each stage that fails is replaced by its default -- ["mixed"] for the
    colour aggregation, 128 for the brightness, "A photograph" for the
    caption, the vector of 50 zeros for the embedding -- and none of these
    failures aborts the analysis: once the bytes decode to an image of
    non-zero height the result is the full structure.  A failure of the
    top-level body is returned as the structure with the single field
    "error"; the response is always one of the two structures. *)
Theorem failures_are_absorbed {lib : Pillow} :
  (forall image : Image,
      raises (analyze_colors_body image) ->
      analyze_colors image = ["mixed"%string])
  /\ (forall (luma : RGB -> Z) (image : Image),
        raises (analyze_brightness_body luma image) ->
        analyze_brightness luma image = 128%Q)
  /\ (forall (colors : list string) (objs : list PseudoObject) (brightness : Q),
        raises (generate_basic_caption_body colors objs brightness) ->
        generate_basic_caption colors objs brightness = "A photograph"%string)
  /\ (forall (hash : string -> result Z) (r : AnalysisResult),
        raises (generate_simple_embedding_body hash r) ->
        generate_simple_embedding hash r = replicate 50 0%float)
  /\ (forall (Image_open : list Byte.byte -> result Image) (luma : RGB -> Z)
             (hash : string -> result Z) (list_of_set : list string -> list string)
             (image_bytes : list Byte.byte),
        let response :=
          analyze_image_basic Image_open luma hash list_of_set image_bytes in
        (forall image : Image,
            Image_open image_bytes = Ok image -> height image <> 0 ->
            exists r : AnalysisResult, response = Analysis r)
        /\ (forall e : exn,
              analyze_image_basic_body Image_open luma hash list_of_set image_bytes
              = Raise e ->
              response = Error (str_exn e)
              /\ response_keys response = ["error"%string])
        /\ ((exists r : AnalysisResult,
                response = Analysis r
                /\ ("error"%string ∉ response_keys response))
            \/ (exists msg : string,
                   response = Error msg
                   /\ response_keys response = ["error"%string]))).
Proof.
  split; [| split; [| split; [| split]]].
  - intros image [e He]. unfold analyze_colors. rewrite He. reflexivity.
  - intros luma image [e He]. unfold analyze_brightness. rewrite He. reflexivity.
  - intros colors objs brightness [e He].
    unfold generate_basic_caption. rewrite He. reflexivity.
  - intros hash r [e He]. unfold generate_simple_embedding. rewrite He. reflexivity.
  - intros Image_open luma hash list_of_set image_bytes response.
    split; [| split].
    + intros image Hopen Hnz.
      exact (analyze_image_basic_total Image_open luma hash list_of_set
               image_bytes image Hopen Hnz).
    + intros e He. subst response.
      rewrite (analyze_image_basic_Raise _ _ _ _ _ e He). split; reflexivity.
    + subst response. unfold analyze_image_basic.
      destruct (analyze_image_basic_body _ _ _ _ _) as [r | e].
      * left. exists r. split; [reflexivity |].
        apply (bool_decide_unpack _). vm_compute. exact I.
      * right. exists (str_exn e). split; reflexivity.
Qed.

Lemma failures_are_absorbed_witness :
  analyze_colors (lib := mean_raises) empty_image = ["mixed"%string]
  /\ analyze_brightness (lib := mean_raises) sample_luma empty_image = 128%Q
  /\ generate_basic_caption ["blue"%string] [mkObject None None None] 128
     = "A photograph"%string
  /\ generate_simple_embedding failing_hash sample_result = replicate 50 0%float
  /\ (exists r : AnalysisResult,
         analyze_image_basic (lib := mean_raises) (open_as empty_image)
           sample_luma failing_hash id []
         = Analysis r)
  /\ analyze_image_basic (lib := mean_raises) (open_as flat_image)
       sample_luma sample_hash id []
     = Error "division by zero"
  /\ analyze_image_basic (lib := mean_raises)
       open_fails sample_luma sample_hash id []
     = Error "cannot identify image file".
Proof.
  destruct (failures_are_absorbed (lib := mean_raises))
    as (Hcolors & Hbright & Hcaption & Hembed & Htop).
  split; [| split; [| split; [| split; [| split; [| split]]]]].
  - apply Hcolors. eexists. vm_compute. reflexivity.
  - apply Hbright. eexists. vm_compute. reflexivity.
  - apply Hcaption. eexists. vm_compute. reflexivity.
  - apply Hembed. eexists. vm_compute. reflexivity.
  - destruct (Htop (open_as empty_image) sample_luma failing_hash id [])
      as (Htotal & _ & _).
    apply (Htotal empty_image); [reflexivity | discriminate].
  - destruct (Htop (open_as flat_image) sample_luma sample_hash id [])
      as (_ & Herr & _).
    destruct (Herr ZeroDivisionError) as [Hresp _]; [reflexivity | exact Hresp].
  - destruct (Htop open_fails sample_luma sample_hash id []) as (_ & Herr & _).
    destruct (Herr (OSError "cannot identify image file")) as [Hresp _];
      [reflexivity | exact Hresp].
Defined.

(** ** Totality of the encoder body *)

Lemma for_each_total {A S : Type} (step : S -> A -> result S) (xs : list A) :
  (forall x s, x ∈ xs -> exists s', step s x = Ok s') ->
  forall s, exists s', for_each step xs s = Ok s'.
Proof.
  induction xs as [| x xs IH]; intros Hstep s; cbn [for_each].
  - exists s. reflexivity.
  - destruct (Hstep x s) as [s1 Hs1]; [left |].
    rewrite Hs1. cbn [bind]. apply IH.
    intros x' s0 Hin. apply Hstep. right. exact Hin.
Qed.

(** With a [hash] that returns, the body of the encoder returns. *)
Lemma encoder_body_total hash r :
  (forall keyword, exists h, hash keyword = Ok h) ->
  exists f, generate_simple_embedding_body hash r = Ok f.
Proof.
  intros Hhash. unfold generate_simple_embedding_body. cbv zeta.
  apply for_each_total. intros [i keyword] f _. unfold set_keyword.
  destruct (i <? 12)%nat; [| eexists; reflexivity].
  destruct (Hhash keyword) as [h Hh]. rewrite Hh. cbn [bind].
  eexists. reflexivity.
Qed.


(** ** The resolution tier *)

Lemma tier_only_resolution w h aspect_ratio brightness obj i :
  (15 <= i < 18)%nat ->
  obj ∈ pseudo_objects w h aspect_ratio brightness ->
  dict_get object_features (default ""%string (name obj)) = Some i ->
  obj = tier_object w h.
Proof.
  intros Hi Hin Hslot. apply pseudo_objects_cases in Hin.
  destruct Hin as [-> | [-> | [-> | [-> | ->]]]];
    try reflexivity; simpl in Hslot; injection Hslot as <-; lia.
Qed.

(** Slots 15 to 17 hold 0.8 at the slot of the image's tier and 0.0 at the
    other two. *)
Lemma tier_slot hash r f w h aspect_ratio brightness i :
  objects r = pseudo_objects w h aspect_ratio brightness ->
  generate_simple_embedding_body hash r = Ok f ->
  (15 <= i < 18)%nat ->
  f !! i = Some (if decide (dict_get object_features (size_category (w * h)) = Some i)
                 then 0.8%float else 0%float).
Proof.
  intros Hobjs Hbody Hi.
  destruct (encoder_body_stages hash r f Hbody) as (H1 & H2 & H3).
  rewrite (writes_untouched _ _ _ i H3).
  2: { intros v [He | Hk].
       - apply emotion_writes_range in He. lia.
       - apply keyword_writes_range in Hk. lia. }
  destruct (decide (dict_get object_features (size_category (w * h)) = Some i))
    as [Htier | Hother].
  - destruct (foldl_set_object_hit (objects r) i
                (foldl set_color (replicate 50 0%float) (colors r)))
      as (obj & Hin & Hslot & Hv).
    + destruct H1 as [Hlen _]. rewrite Hlen, length_replicate. lia.
    + exists (tier_object w h). split; [| exact Htier].
      rewrite Hobjs. apply tier_object_detected.
    + rewrite Hobjs in Hin.
      rewrite (tier_only_resolution w h aspect_ratio brightness obj i Hi Hin Hslot)
        in Hv.
      exact Hv.
  - rewrite (writes_untouched _ _ _ i H2).
    + rewrite (writes_untouched _ _ _ i H1).
      * apply lookup_replicate_2. lia.
      * intros v [_ (color & _ & Hc)]. apply color_map_range in Hc. lia.
    + intros v (obj & Hin & Hslot & _). rewrite Hobjs in Hin.
      pose proof (tier_only_resolution w h aspect_ratio brightness obj i Hi Hin Hslot)
        as ->.
      apply Hother. exact Hslot.
Qed.

(** C9: an analysed image has exactly one resolution-tier pseudo-object:
    high_resolution above 2,000,000 pixels, medium_resolution above 500,000,
    low_resolution otherwise, with confidence 0.8 and the whole image as its
    box.  On the success path of the encoder (its body returns, which it does
    whenever [hash] returns) slots 15, 16 and 17 of the embedding hold 0.8 at
    the slot of that tier and 0.0 at the other two. *)
Theorem one_tier_one_slot {lib : Pillow} :
  forall (Image_open : list Byte.byte -> result Image) (luma : RGB -> Z)
         (hash : string -> result Z) (list_of_set : list string -> list string)
         (image_bytes : list Byte.byte) (r : AnalysisResult),
    analyze_image_basic Image_open luma hash list_of_set image_bytes = Analysis r ->
    exists image : Image,
      Image_open image_bytes = Ok image
      /\ let total_pixels := width image * height image in
         let tier :=
           if total_pixels >? 2000000 then "high_resolution"%string
           else if total_pixels >? 500000 then "medium_resolution"%string
           else "low_resolution"%string in
         List.filter is_resolution_tier (objects r)
         = [ mkObject (Some tier) (Some 0.8%float)
                      (Some (mkBoundingBox 0 0 (width image) (height image))) ]
         /\ ((forall keyword : string, exists h : Z, hash keyword = Ok h) ->
             exists f : list float, generate_simple_embedding_body hash r = Ok f)
         /\ (forall f : list float,
               generate_simple_embedding_body hash r = Ok f ->
               clip_embedding r = f
               /\ f !! 15%nat
                  = Some (if total_pixels >? 2000000 then 0.8%float else 0%float)
               /\ f !! 16%nat
                  = Some (if total_pixels >? 2000000 then 0%float
                          else if total_pixels >? 500000 then 0.8%float
                          else 0%float)
               /\ f !! 17%nat
                  = Some (if total_pixels >? 2000000 then 0%float
                          else if total_pixels >? 500000 then 0%float
                          else 0.8%float)).
Proof.
  intros Image_open luma hash list_of_set image_bytes r Hr.
  apply analyze_image_basic_Ok in Hr
    as (image & names & Hopen & _ & _ & Hobj & _ & _ & _ & _ & _ & _ & _ & Hclip).
  exists image. split; [exact Hopen |]. cbv zeta. split; [| split].
  - rewrite Hobj. apply one_resolution_tier.
  - apply encoder_body_total.
  - intros f Hf. split.
    + rewrite Hclip. unfold generate_simple_embedding. rewrite Hf. reflexivity.
    + rewrite (tier_slot hash r f _ _ _ _ 15%nat Hobj Hf) by lia.
      rewrite (tier_slot hash r f _ _ _ _ 16%nat Hobj Hf) by lia.
      rewrite (tier_slot hash r f _ _ _ _ 17%nat Hobj Hf) by lia.
      unfold size_category.
      destruct (width image * height image >? 2000000);
        [| destruct (width image * height image >? 500000)];
        repeat split.
Qed.

Lemma one_tier_one_slot_witness :
  exists (r : AnalysisResult) (f : list float),
    analyze_image_basic (lib := mean_zero)
      (open_as two_tone_image) sample_luma sample_hash id []
    = Analysis r
    /\ generate_simple_embedding_body sample_hash r = Ok f
    /\ List.filter is_resolution_tier (objects r)
       = [ mkObject (Some "low_resolution"%string) (Some 0.8%float)
                    (Some (mkBoundingBox 0 0 4 2)) ]
    /\ f !! 15%nat = Some 0%float
    /\ f !! 16%nat = Some 0%float
    /\ f !! 17%nat = Some 0.8%float.
Proof.
  eexists. eexists.
  split; [vm_compute; reflexivity |].
  split; [vm_compute; reflexivity |].
  match goal with
  | |- List.filter _ (objects ?r) = _ /\ ?f !! _ = _ /\ _ =>
      destruct (one_tier_one_slot (lib := mean_zero)
                  (open_as two_tone_image) sample_luma sample_hash
                  id [] r) as (image & Hopen & Htier & _ & Hslots);
        [vm_compute; reflexivity |];
        injection Hopen as <-;
        destruct (Hslots f) as (_ & H15 & H16 & H17);
        [vm_compute; reflexivity |]
  end.
  split; [exact Htier |]. split; [exact H15 |]. split; [exact H16 | exact H17].
Defined.

(** * Further properties of the code *)

(** ** The query encoder on every query *)

Lemma set_if_binary cond i e :
  Forall (fun x => x = 0%float \/ x = 1%float) e ->
  Forall (fun x => x = 0%float \/ x = 1%float) (set_if cond i e).
Proof.
  intros He. unfold set_if. destruct cond; [| exact He].
  apply Forall_insert; [exact He | right; reflexivity].
Qed.

Lemma query_embedding_length (q : string) : length (query_embedding q) = 50%nat.
Proof.
  rewrite query_embedding_chain. cbv zeta.
  rewrite !set_if_length. apply length_replicate.
Qed.

(** X1: whatever the query, its embedding has 50 slots, each of them 0.0 or
    1.0, and the slots 15 to 49 are 0.0: a query never sets a resolution,
    mood or keyword slot. *)
Theorem query_embedding_binary (q : string) :
  length (query_embedding q) = 50%nat
  /\ Forall (fun x => x = 0%float \/ x = 1%float) (query_embedding q)
  /\ (forall i : nat, (15 <= i < 50)%nat -> query_embedding q !! i = Some 0%float).
Proof.
  split; [| split].
  - apply query_embedding_length.
  - rewrite query_embedding_chain. cbv zeta.
    repeat apply set_if_binary.
    apply Forall_replicate. left. reflexivity.
  - apply query_other_slots.
Qed.

Lemma lower_ascii_space c : is_space c = true -> is_space (lower_ascii c) = true.
Proof.
  unfold is_space, lower_ascii. intros H.
  destruct ((65 <=? nat_of_ascii c)%nat && (nat_of_ascii c <=? 90)%nat) eqn:Hup;
    [| exact H].
  exfalso. apply andb_true_iff in Hup as [H1 H2].
  apply Nat.leb_le in H1, H2.
  apply orb_true_iff in H as [H | H]; apply andb_true_iff in H as [H3 H4];
    apply Nat.leb_le in H3, H4; lia.
Qed.

Lemma blank_lower s : blank s = true -> blank (lower s) = true.
Proof.
  induction s as [| c s IH]; simpl; [reflexivity |].
  intros H. apply andb_true_iff in H as [Hc Hs].
  rewrite (lower_ascii_space c Hc), (IH Hs). reflexivity.
Qed.

Lemma split_blank s : blank s = true -> split s = [].
Proof.
  unfold split. induction s as [| c s IH]; simpl; [reflexivity |].
  intros H. apply andb_true_iff in H as [Hc Hs].
  rewrite Hc. simpl. exact (IH Hs).
Qed.

(** X2: a query made only of blank characters (the empty query included) has
    no token, and its embedding is the vector of 50 zeros. *)
Theorem blank_query_is_zero (q : string) :
  blank q = true ->
  split (lower q) = [] /\ query_embedding q = replicate 50 0%float.
Proof.
  intros Hq.
  assert (Hwords : split (lower q) = []) by (apply split_blank, blank_lower, Hq).
  split; [exact Hwords |].
  rewrite query_embedding_chain. cbv zeta. rewrite Hwords. reflexivity.
Qed.

Lemma blank_query_is_zero_witness :
  query_embedding (String " " (String (ascii_of_nat 9) (String (ascii_of_nat 10) "")))
  = replicate 50 0%float.
Proof.
  apply (blank_query_is_zero
           (String " " (String (ascii_of_nat 9) (String (ascii_of_nat 10) "")))).
  reflexivity.
Defined.

Lemma lower_app s1 s2 : lower (s1 +:+ s2) = lower s1 +:+ lower s2.
Proof.
  induction s1 as [| c s1 IH]; simpl; [reflexivity |]. rewrite IH. reflexivity.
Qed.

Lemma split_aux_space s1 s2 : forall cur,
  split_aux (s1 +:+ String " " s2) cur = split_aux s1 cur ++ split_aux s2 [].
Proof.
  induction s1 as [| c s1 IH]; intros cur.
  - change ("" +:+ String " " s2) with (String " " s2).
    cbn [split_aux]. change (is_space " ") with true. cbv iota.
    destruct cur; reflexivity.
  - change (String c s1 +:+ String " " s2) with (String c (s1 +:+ String " " s2)).
    cbn [split_aux].
    destruct (is_space c).
    + rewrite IH. rewrite app_assoc. reflexivity.
    + apply IH.
Qed.

Lemma split_lower_space q1 q2 :
  split (lower (q1 +:+ " " +:+ q2)) = split (lower q1) ++ split (lower q2).
Proof.
  rewrite lower_app.
  change (lower (" " +:+ q2)) with (String " " (lower q2)).
  apply split_aux_space.
Qed.

Lemma any_contains_app color words1 words2 :
  any_contains color (words1 ++ words2)
  = any_contains color words1 || any_contains color words2.
Proof. unfold any_contains. apply existsb_app. Qed.

Lemma any_in_app vocabulary words1 words2 :
  any_in vocabulary (words1 ++ words2)
  = any_in vocabulary words1 || any_in vocabulary words2.
Proof. unfold any_in. apply existsb_app. Qed.

Lemma flag_or (b1 b2 : bool) :
  Some (if b1 || b2 then 1%float else 0%float) = Some 1%float
  <-> Some (if b1 then 1%float else 0%float) = Some 1%float
      \/ Some (if b2 then 1%float else 0%float) = Some 1%float.
Proof.
  destruct b1, b2; simpl; split; intros H; auto;
    destruct H as [H | H]; exact H.
Qed.

(** X3: encoding two queries joined by a space gives the slot-wise "or" of
    their encodings: a slot is 1.0 in the joint embedding exactly when it is
    1.0 in one of the two. *)
Theorem query_embedding_join (q1 q2 : string) (i : nat) :
  query_embedding (q1 +:+ " " +:+ q2) !! i = Some 1%float
  <-> query_embedding q1 !! i = Some 1%float
      \/ query_embedding q2 !! i = Some 1%float.
Proof.
  destruct (decide (i < 11)%nat) as [Hcolor | Hge11].
  - destruct (color_words !! i) as [color |] eqn:Hi.
    + rewrite !(query_color_slot _ color i Hi).
      rewrite split_lower_space, any_contains_app. apply flag_or.
    + apply lookup_ge_None in Hi. simpl in Hi. lia.
  - destruct (decide (i < 15)%nat) as [Hlabel | Hge15].
    + destruct (query_label_slots (q1 +:+ " " +:+ q2)) as (A11 & A12 & A13 & A14).
      destruct (query_label_slots q1) as (B11 & B12 & B13 & B14).
      destruct (query_label_slots q2) as (C11 & C12 & C13 & C14).
      cbv zeta in *.
      rewrite split_lower_space, !any_in_app in A11, A12, A13, A14.
      assert (Hi : i = 11%nat \/ i = 12%nat \/ i = 13%nat \/ i = 14%nat) by lia.
      destruct Hi as [-> | [-> | [-> | ->]]].
      * rewrite A11, B11, C11. apply flag_or.
      * rewrite A12, B12, C12. apply flag_or.
      * rewrite A13, B13, C13. apply flag_or.
      * rewrite A14, B14, C14. apply flag_or.
    + destruct (decide (i < 50)%nat) as [Hlt | Hge50].
      * rewrite !query_other_slots by lia. split; [discriminate |].
        intros [H | H]; discriminate.
      * assert (Hnone : forall q, query_embedding q !! i = None).
        { intros q. apply lookup_ge_None.
          rewrite (query_embedding_length q). lia. }
        rewrite !Hnone. split; [discriminate |]. intros [H | H]; discriminate.
Qed.

(** ** The nearest prototype *)

Lemma foldl_map_fuse {A B S : Type} (f : S -> B -> S) (g : A -> B) (l : list A) :
  forall s, foldl f s (map g l) = foldl (fun s x => f s (g x)) s l.
Proof. induction l as [| x l IH]; intros s; simpl; [reflexivity | apply IH]. Qed.

(** The nested loops of the search are one loop over [prototypes]. *)
Lemma search_flat r g b entries : forall st,
  foldl (search_color r g b) st entries
  = foldl (fun st item => search_prototype r g b (fst item) st (snd item)) st
          (flat_map (fun entry => map (fun target => (fst entry, target)) (snd entry))
                    entries).
Proof.
  induction entries as [| entry entries IH]; intros st; [reflexivity |].
  cbn [foldl flat_map]. rewrite foldl_app, <- IH. f_equal.
  unfold search_color. rewrite foldl_map_fuse. reflexivity.
Qed.

Lemma first_nearest r g b (n0 : string) (items : list (string * RGB)) :
  let st := foldl (fun st item => search_prototype r g b (fst item) st (snd item))
                  (None, n0) items in
  (items = [] /\ st = (None, n0))
  \/ exists pre target post,
       items = pre ++ (snd st, target) :: post
       /\ fst st = Some (sq_distance r g b target)
       /\ (forall q, q ∈ pre -> sq_distance r g b target < sq_distance r g b (snd q))
       /\ (forall q, q ∈ post -> sq_distance r g b target <= sq_distance r g b (snd q)).
Proof.
  cbv zeta. induction items as [| [name target] items IH] using rev_ind.
  - left. split; reflexivity.
  - right. rewrite foldl_app. cbn [foldl fst snd].
    destruct IH as [[-> Hst] | (pre & best & post & Hitems & Hd & Hpre & Hpost)].
    + rewrite Hst. unfold search_prototype. cbn [fst closer].
      exists [], target, []. cbn [fst snd app].
      repeat split; intros q Hq; inversion Hq.
    + set (st := foldl _ _ items) in *.
      unfold search_prototype. rewrite Hd. cbn [closer].
      destruct (Z.ltb_spec (sq_distance r g b target) (sq_distance r g b best))
        as [Hlt | Hge].
      * exists items, target, []. cbn [fst snd].
        split; [reflexivity |]. split; [reflexivity |]. split.
        -- intros q Hq. rewrite Hitems in Hq.
           apply elem_of_app in Hq as [Hq | Hq].
           ++ specialize (Hpre q Hq). lia.
           ++ apply elem_of_cons in Hq as [-> | Hq]; [exact Hlt |].
              specialize (Hpost q Hq). lia.
        -- intros q Hq. inversion Hq.
      * exists pre, best, (post ++ [(name, target)]).
        split; [rewrite Hitems, <- app_assoc; reflexivity |].
        split; [exact Hd |]. split; [exact Hpre |].
        intros q Hq. apply elem_of_app in Hq as [Hq | Hq]; [exact (Hpost q Hq) |].
        apply list_elem_of_singleton in Hq. subst q. exact Hge.
Qed.

(** X4: for an input that fails the grayscale test the classifier answers
    with the owner of the first prototype, in the order the palette is
    visited, that is nearest to the input: every earlier prototype is strictly
    farther and no later one is nearer.  So ties go to the earlier palette
    entry. *)
Theorem nearest_prototype_wins (r g b : Q) :
  grayscale_test (py_int r) (py_int g) (py_int b) = false ->
  exists (pre : list (string * RGB)) (target : RGB) (post : list (string * RGB)),
    prototypes = pre ++ (rgb_to_color_name r g b, target) :: post
    /\ (forall q, q ∈ pre ->
          sq_distance (py_int r) (py_int g) (py_int b) target
          < sq_distance (py_int r) (py_int g) (py_int b) (snd q))
    /\ (forall q, q ∈ post ->
          sq_distance (py_int r) (py_int g) (py_int b) target
          <= sq_distance (py_int r) (py_int g) (py_int b) (snd q)).
Proof.
  intros Hgray. unfold rgb_to_color_name. rewrite Hgray.
  rewrite search_flat. fold prototypes.
  destruct (first_nearest (py_int r) (py_int g) (py_int b) "mixed" prototypes)
    as [[Hnil _] | (pre & target & post & Hitems & _ & Hpre & Hpost)].
  - discriminate Hnil.
  - exists pre, target, post. auto.
Qed.

(** The colour (255, 165, 0) is a prototype of yellow and of orange; yellow
    comes first in the palette and wins. *)
Lemma nearest_prototype_wins_witness :
  exists (pre : list (string * RGB)) (target : RGB) (post : list (string * RGB)),
    prototypes = pre ++ (rgb_to_color_name 255 165 0, target) :: post
    /\ rgb_to_color_name 255 165 0 = "yellow"%string
    /\ (forall q, q ∈ pre -> sq_distance 255 165 0 target < sq_distance 255 165 0 (snd q))
    /\ (forall q, q ∈ post -> sq_distance 255 165 0 target <= sq_distance 255 165 0 (snd q)).
Proof.
  destruct (nearest_prototype_wins 255 165 0) as (pre & target & post & H1 & H2 & H3).
  - reflexivity.
  - exists pre, target, post. split; [exact H1 |]. split; [reflexivity |].
    split; [exact H2 | exact H3].
Defined.

(** ** The detected colours *)

Lemma analyze_colors_fallback {lib : Pillow} image e :
  stat_mean image = Raise e -> analyze_colors image = ["mixed"%string].
Proof.
  intros Hm. unfold analyze_colors, analyze_colors_body. rewrite Hm. reflexivity.
Qed.

(** X5: the list of detected colours is never empty, has at most three
    entries and no duplicate; it is ["mixed"] alone or holds palette names
    only. *)
Theorem detected_colors_invariant {lib : Pillow} (image : Image) :
  (1 <= length (analyze_colors image) <= 3)%nat
  /\ NoDup (analyze_colors image)
  /\ (analyze_colors image = ["mixed"%string]
      \/ Forall (fun color => color ∈ dict_keys color_names) (analyze_colors image)).
Proof.
  destruct (stat_mean image) as [m | e] eqn:Hm.
  - destruct (analyze_colors_head image m Hm) as (rest & Heq & Hnot & Hnd & Hlen).
    split; [| split].
    + rewrite Heq. simpl. lia.
    + rewrite Heq. constructor; assumption.
    + right. apply (analyze_colors_body_palette image (analyze_colors image)).
      unfold analyze_colors, analyze_colors_body. rewrite Hm. reflexivity.
  - rewrite (analyze_colors_fallback image e Hm).
    split; [simpl; lia |]. split; [| left; reflexivity].
    apply NoDup_singleton.
Qed.

(** ** The ranking of the region colours *)

Lemma dict_get_set_eq {V : Type} (d : dict V) k v :
  dict_get (dict_set d k v) k = Some v.
Proof.
  induction d as [| [k' v'] d IH]; simpl.
  - rewrite String.eqb_refl. reflexivity.
  - destruct (String.eqb_spec k' k) as [-> | Hne]; simpl.
    + rewrite String.eqb_refl. reflexivity.
    + destruct (String.eqb_spec k' k); [contradiction | exact IH].
Qed.

Lemma dict_get_set_ne {V : Type} (d : dict V) k k' v :
  k <> k' -> dict_get (dict_set d k v) k' = dict_get d k'.
Proof.
  intros Hne. induction d as [| [k0 v0] d IH]; simpl.
  - destruct (String.eqb_spec k k'); [contradiction | reflexivity].
  - destruct (String.eqb_spec k0 k) as [-> | Hne0]; simpl.
    + destruct (String.eqb_spec k k'); [contradiction | reflexivity].
    + destruct (String.eqb_spec k0 k'); [reflexivity | exact IH].
Qed.

Lemma dict_get_default_set_eq {V : Type} (d : dict V) k v dflt :
  dict_get_default (dict_set d k v) k dflt = v.
Proof. unfold dict_get_default. rewrite dict_get_set_eq. reflexivity. Qed.

Lemma dict_elem_get {V : Type} (d : dict V) k v :
  NoDup (dict_keys d) -> (k, v) ∈ d <-> dict_get d k = Some v.
Proof.
  intros Hnd. split; [| apply dict_get_elem].
  induction d as [| [k0 v0] d IH]; intros Hin; [inversion Hin |].
  unfold dict_keys in Hnd. simpl in Hnd. apply NoDup_cons in Hnd as [Hnot Hnd].
  simpl. apply elem_of_cons in Hin as [[= -> ->] | Hin].
  - rewrite String.eqb_refl. reflexivity.
  - destruct (String.eqb_spec k0 k) as [-> | Hne].
    + exfalso. apply Hnot. apply (list_elem_of_fmap_2 fst) in Hin. exact Hin.
    + apply IH; assumption.
Qed.

Lemma votes_in_nonneg {lib : Pillow} image rs color : 0 <= votes_in image rs color.
Proof.
  induction rs as [| region rs IH]; simpl; [lia |].
  destruct (bool_decide _); lia.
Qed.

Lemma count_region_color {lib : Pillow} image color_counts region :
  count_region image color_counts region
  = match region_color image region with
    | Some color =>
        dict_set color_counts color (dict_get_default color_counts color 0 + 1)
    | None => color_counts
    end.
Proof.
  unfold count_region, region_color.
  destruct (stat_mean (crop image region)); reflexivity.
Qed.

(** The tally holds, for every colour, the number of regions that voted for
    it, on top of what it held before. *)
Lemma tally_get {lib : Pillow} image rs : forall (color_counts : dict Z) (color : string),
  dict_get (foldl (count_region image) color_counts rs) color
  = if votes_in image rs color =? 0 then dict_get color_counts color
    else Some (dict_get_default color_counts color 0 + votes_in image rs color).
Proof.
  induction rs as [| region rs IH]; intros color_counts color; [reflexivity |].
  cbn [foldl votes_in]. rewrite IH, count_region_color.
  pose proof (votes_in_nonneg image rs color) as Hnn.
  destruct (region_color image region) as [c |] eqn:Hc.
  - destruct (decide (c = color)) as [-> | Hne].
    + rewrite bool_decide_eq_true_2 by reflexivity.
      rewrite dict_get_default_set_eq, dict_get_set_eq.
      destruct (Z.eqb_spec (votes_in image rs color) 0) as [Hz | Hnz];
        (destruct (Z.eqb_spec (1 + votes_in image rs color) 0); [lia |]);
        f_equal; lia.
    + rewrite bool_decide_eq_false_2 by congruence.
      unfold dict_get_default. rewrite !dict_get_set_ne by exact Hne.
      reflexivity.
  - rewrite bool_decide_eq_false_2 by discriminate. reflexivity.
Qed.

Lemma tally_NoDup {lib : Pillow} image rs : forall color_counts : dict Z,
  NoDup (dict_keys color_counts) ->
  NoDup (dict_keys (foldl (count_region image) color_counts rs)).
Proof.
  induction rs as [| region rs IH]; intros color_counts Hnd; [exact Hnd |].
  cbn [foldl]. apply IH. rewrite count_region_color.
  destruct (region_color image region); [apply dict_set_NoDup |]; exact Hnd.
Qed.

Lemma tally_elem {lib : Pillow} image color n :
  (color, n) ∈ foldl (count_region image) [] (regions (width image) (height image))
  <-> n = votes image color /\ 0 < n.
Proof.
  rewrite dict_elem_get by (apply tally_NoDup; constructor).
  rewrite tally_get. fold (votes image color).
  pose proof (votes_in_nonneg image (regions (width image) (height image)) color)
    as Hnn. fold (votes image color) in Hnn.
  destruct (Z.eqb_spec (votes image color) 0) as [Hz | Hnz]; simpl.
  - split; [discriminate | lia].
  - unfold dict_get_default. simpl. split.
    + intros [= <-]. lia.
    + intros [-> _]. reflexivity.
Qed.

Lemma insert_desc_sorted item l :
  StronglySorted (fun a b : string * Z => snd b <= snd a) l ->
  StronglySorted (fun a b : string * Z => snd b <= snd a) (insert_desc item l).
Proof.
  induction 1 as [| item' l Hl IH Hall]; simpl.
  - repeat constructor.
  - destruct (Z.ltb_spec (snd item) (snd item')) as [Hlt | Hge].
    + constructor; [exact IH |].
      rewrite insert_desc_perm. constructor; [lia | exact Hall].
    + constructor; [constructor; assumption |].
      constructor; [exact Hge |].
      eapply Forall_impl; [exact Hall |]. simpl. intros b Hb. lia.
Qed.

Lemma sorted_desc_sorted items :
  StronglySorted (fun a b : string * Z => snd b <= snd a) (sorted_desc items).
Proof.
  unfold sorted_desc. induction items as [| item items IH]; simpl.
  - constructor.
  - apply insert_desc_sorted. exact IH.
Qed.

Lemma filter_agree {A : Type} (P1 P2 : A -> Prop)
    `{!forall x, Decision (P1 x)} `{!forall x, Decision (P2 x)} (l : list A) :
  (forall x, x ∈ l -> P1 x <-> P2 x) -> filter P1 l = filter P2 l.
Proof.
  induction l as [| x l IH]; intros Hagree; [reflexivity |].
  assert (Hl : filter P1 l = filter P2 l).
  { apply IH. intros y Hy. apply Hagree. right. exact Hy. }
  destruct (decide (P1 x)) as [H1 | H1].
  - rewrite !filter_cons_True; [congruence | | exact H1].
    apply (Hagree x); [left | exact H1].
  - rewrite !filter_cons_False; [exact Hl | | exact H1].
    intros H2. apply H1. apply (Hagree x); [left | exact H2].
Qed.

Lemma append_new_filter items : forall colors,
  NoDup (map fst items) ->
  foldl append_new colors items
  = colors ++ filter (fun color => color ∉ colors) (map fst items).
Proof.
  induction items as [| item items IH]; intros colors Hnd; simpl.
  - rewrite app_nil_r. reflexivity.
  - apply NoDup_cons in Hnd as [Hfresh Hnd].
    unfold append_new at 2. unfold str_in.
    destruct (bool_decide_reflect (fst item ∈ colors)) as [Hin | Hnin].
    + rewrite filter_cons_False by (intros H; exact (H Hin)).
      apply IH. exact Hnd.
    + rewrite filter_cons_True by exact Hnin.
      rewrite IH by exact Hnd. rewrite <- app_assoc. simpl. do 2 f_equal.
      apply filter_agree. intros color Hcolor.
      rewrite elem_of_app, list_elem_of_singleton. split.
      * intros H Hc. apply H. left. exact Hc.
      * intros H [Hc | ->]; [exact (H Hc) | exact (Hfresh Hcolor)].
Qed.

Lemma take2_filter_take4 (d : string) (l : list string) :
  NoDup l ->
  take 2 (filter (fun color => color ∉ [d]) (take 4 l))
  = take 2 (filter (fun color => color ∉ [d]) l).
Proof.
  intros Hnd.
  destruct l as [| a [| b [| c [| e tail]]]]; try reflexivity.
  cbn [take].
  rewrite !filter_cons, ?filter_nil.
  repeat case_decide; try reflexivity; exfalso;
    repeat match goal with
           | H : _ ∈ [_] |- _ => apply list_elem_of_singleton in H
           end;
    subst; rewrite !NoDup_cons in Hnd;
    repeat match goal with H : _ /\ _ |- _ => destruct H end;
    match goal with H : _ ∉ _ |- _ => apply H; solve [float_mem] end.
Qed.

(** The detected colours are the dominant colour followed by the first two
    colours of the ranking that differ from it. *)
Lemma analyze_colors_ranked {lib : Pillow} image m :
  stat_mean image = Ok m ->
  analyze_colors image
  = classify_mean m
    :: take 2 (filter (fun color => color ∉ [classify_mean m])
                 (map fst (sorted_desc
                             (foldl (count_region image) []
                                    (regions (width image) (height image)))))).
Proof.
  intros Hm. rewrite (analyze_colors_Ok image m Hm).
  set (ranking := sorted_desc _).
  assert (Hnd : NoDup (map fst ranking)).
  { subst ranking. rewrite sorted_desc_perm. apply tally_NoDup. constructor. }
  rewrite append_new_filter.
  - cbn [app take]. f_equal.
    rewrite <- (take2_filter_take4 (classify_mean m) (map fst ranking) Hnd).
    rewrite firstn_map. reflexivity.
  - rewrite <- (take_drop 4 ranking) in Hnd. rewrite map_app in Hnd.
    apply NoDup_app in Hnd as [Hnd _]. exact Hnd.
Qed.

Lemma StronglySorted_sub {A : Type} (R : A -> A -> Prop) (l1 l2 : list A) :
  l1 `sublist_of` l2 -> StronglySorted R l2 -> StronglySorted R l1.
Proof.
  induction 1 as [| x l1 l2 Hsub IH | x l1 l2 Hsub IH]; intros Hs.
  - constructor.
  - apply StronglySorted_inv in Hs as [Hs Hall]. constructor; [apply IH, Hs |].
    rewrite Forall_forall in Hall. apply Forall_forall. intros y Hy. apply Hall.
    exact (elem_of_sublist l1 l2 y Hy Hsub).
  - apply StronglySorted_inv in Hs as [Hs _]. apply IH, Hs.
Qed.

Lemma StronglySorted_keys (votes_of : string -> Z) (l : list (string * Z)) :
  (forall item, item ∈ l -> snd item = votes_of (fst item)) ->
  StronglySorted (fun a b : string * Z => snd b <= snd a) l ->
  StronglySorted (fun c1 c2 => votes_of c2 <= votes_of c1) (map fst l).
Proof.
  intros Hv Hs. induction Hs as [| a l Hs IH Hall]; simpl; [constructor |].
  constructor.
  - apply IH. intros item Hin. apply Hv. right. exact Hin.
  - rewrite Forall_forall in Hall. apply Forall_forall. intros c Hc.
    apply list_elem_of_fmap in Hc as (item & -> & Hitem).
    rewrite <- (Hv a) by left. rewrite <- (Hv item) by (right; exact Hitem).
    exact (Hall item Hitem).
Qed.

Lemma votes_in_zero {lib : Pillow} image rs color :
  votes_in image rs color = 0
  <-> forall region, region ∈ rs -> region_color image region <> Some color.
Proof.
  induction rs as [| region rs IH]; simpl.
  - split; [intros _ region Hin; inversion Hin | reflexivity].
  - pose proof (votes_in_nonneg image rs color) as Hnn.
    destruct (bool_decide_reflect (region_color image region = Some color))
      as [Heq | Hne].
    + split; [lia |]. intros H. exfalso. apply (H region); [left | exact Heq].
    + rewrite Z.add_0_l, IH. split.
      * intros H region' Hin. apply elem_of_cons in Hin as [-> | Hin]; auto.
      * intros H region' Hin. apply H. right. exact Hin.
Qed.

(** The colours after the dominant one, as a prefix of the ranking. *)
Lemma ranked_rest {lib : Pillow} image m :
  stat_mean image = Ok m ->
  exists rest later : list string,
    analyze_colors image = classify_mean m :: rest
    /\ (length rest <= 2)%nat
    /\ ((length rest < 2)%nat -> later = [])
    /\ StronglySorted (fun c1 c2 => votes image c2 <= votes image c1) (rest ++ later)
    /\ (forall k, k ∈ rest ++ later <-> k <> classify_mean m /\ 0 < votes image k).
Proof.
  intros Hm.
  set (ranking := sorted_desc (foldl (count_region image) []
                                     (regions (width image) (height image)))).
  set (others := filter (fun color => color ∉ [classify_mean m]) (map fst ranking)).
  exists (take 2 others), (drop 2 others).
  split; [exact (analyze_colors_ranked image m Hm) |].
  split; [rewrite length_take; lia |].
  split.
  { rewrite length_take. intros Hlen. apply drop_ge. lia. }
  rewrite take_drop.
  assert (Hitems : forall item, item ∈ ranking ->
                                snd item = votes image (fst item) /\ 0 < snd item).
  { intros [k n] Hin. subst ranking. rewrite sorted_desc_perm in Hin.
    apply tally_elem in Hin. exact Hin. }
  split.
  - apply (StronglySorted_sub _ others (map fst ranking)).
    + apply sublist_filter.
    + apply StronglySorted_keys.
      * intros item Hin. apply Hitems. exact Hin.
      * apply sorted_desc_sorted.
  - intros k. subst others. rewrite list_elem_of_filter, list_elem_of_singleton.
    split.
    + intros [Hne Hin]. split; [exact Hne |].
      apply list_elem_of_fmap in Hin as (item & -> & Hitem).
      destruct (Hitems item Hitem) as [Hv Hpos]. lia.
    + intros [Hne Hpos]. split; [exact Hne |].
      apply (list_elem_of_fmap_2' fst ranking (k, votes image k)); [| reflexivity].
      subst ranking. rewrite sorted_desc_perm. apply tally_elem. auto.
Qed.

(** X6: after the dominant colour come the region colours with the most
    votes among those that differ from it: each listed colour has a vote, the
    list is in order of non-increasing votes, a colour left out has no more
    votes than any listed one, and when fewer than two are listed no other
    colour has a vote at all. *)
Theorem region_colors_ranked {lib : Pillow} (image : Image) (m : Q * Q * Q) :
  stat_mean image = Ok m ->
  exists rest : list string,
    analyze_colors image = classify_mean m :: rest
    /\ (forall c, c ∈ rest -> c <> classify_mean m /\ 0 < votes image c)
    /\ StronglySorted (fun c1 c2 => votes image c2 <= votes image c1) rest
    /\ (forall c k, c ∈ rest -> k <> classify_mean m -> k ∉ rest ->
                    votes image k <= votes image c)
    /\ ((length rest < 2)%nat ->
        forall k, k <> classify_mean m -> k ∉ rest -> votes image k = 0).
Proof.
  intros Hm.
  destruct (ranked_rest image m Hm) as (rest & later & Heq & _ & Hshort & Hs & Hmem).
  assert (Hzero : forall k, k <> classify_mean m -> k ∉ rest ++ later ->
                            votes image k = 0).
  { intros k Hne Hnot.
    pose proof (votes_in_nonneg image (regions (width image) (height image)) k) as Hnn.
    fold (votes image k) in Hnn.
    destruct (Z.eq_dec (votes image k) 0) as [Hz | Hnz]; [exact Hz |].
    exfalso. apply Hnot. apply Hmem. split; [exact Hne | lia]. }
  exists rest. split; [exact Heq |]. split; [| split; [| split]].
  - intros c Hc. apply Hmem. apply elem_of_app. left. exact Hc.
  - exact (StronglySorted_app_1_l _ rest later Hs).
  - intros c k Hc Hne Hnot.
    destruct (decide (k ∈ later)) as [Hin | Hnin].
    + exact (StronglySorted_app_1_elem_of _ rest later c k Hs Hc Hin).
    + rewrite (Hzero k Hne) by (rewrite elem_of_app; tauto).
      assert (Hpos : 0 < votes image c).
      { apply Hmem. apply elem_of_app. left. exact Hc. }
      lia.
  - intros Hlen k Hne Hnot. apply (Hzero k Hne).
    rewrite (Hshort Hlen), app_nil_r. exact Hnot.
Qed.

Lemma region_colors_ranked_witness :
  exists rest : list string,
    analyze_colors (lib := mean_zero) two_tone_image = "purple"%string :: rest
    /\ (forall c, c ∈ rest -> c <> "purple"%string /\ 0 < votes (lib := mean_zero)
                                                            two_tone_image c)
    /\ StronglySorted
         (fun c1 c2 => votes (lib := mean_zero)
                         two_tone_image c2 <= votes (lib := mean_zero)
                         two_tone_image c1) rest.
Proof.
  destruct (region_colors_ranked (lib := mean_zero)
              two_tone_image (1020 # 8, 0 # 8, 1020 # 8))
    as (rest & H1 & H2 & H3 & _).
  - reflexivity.
  - exists rest. split; [exact H1 |]. split; [exact H2 | exact H3].
Defined.

(** X7: when the mean of the whole image exists, the dominant colour is the
    only detected colour exactly when no region votes for another colour. *)
Theorem single_color_iff_regions_agree {lib : Pillow} (image : Image) (m : Q * Q * Q) :
  stat_mean image = Ok m ->
  analyze_colors image = [classify_mean m]
  <-> (forall region color,
         region ∈ regions (width image) (height image) ->
         region_color image region = Some color ->
         color = classify_mean m).
Proof.
  intros Hm.
  destruct (ranked_rest image m Hm) as (rest & later & Heq & _ & Hshort & _ & Hmem).
  rewrite Heq. split.
  - intros [= Hrest] region color Hin Hcolor.
    destruct (decide (color = classify_mean m)) as [Hd | Hne]; [exact Hd |].
    exfalso.
    assert (Hlater : later = []) by (apply Hshort; rewrite Hrest; simpl; lia).
    assert (Hpos : color ∈ rest ++ later).
    { apply Hmem. split; [exact Hne |].
      pose proof (votes_in_nonneg image (regions (width image) (height image)) color)
        as Hnn.
      destruct (Z.eq_dec (votes image color) 0) as [Hz | Hnz]; [| unfold votes in *; lia].
      exfalso. unfold votes in Hz. rewrite votes_in_zero in Hz.
      exact (Hz region Hin Hcolor). }
    rewrite Hrest, Hlater in Hpos. inversion Hpos.
  - intros Hagree. f_equal.
    destruct rest as [| c rest]; [reflexivity |]. exfalso.
    assert (Hc : c <> classify_mean m /\ 0 < votes image c).
    { apply Hmem. left. }
    destruct Hc as [Hne Hpos].
    assert (Hz : votes image c = 0).
    { unfold votes. apply votes_in_zero. intros region Hin Hcolor.
      apply Hne. exact (Hagree region c Hin Hcolor). }
    lia.
Qed.

Lemma single_color_iff_regions_agree_witness :
  analyze_colors (lib := mean_zero) green_image = ["green"%string]
  <-> (forall region color,
         region ∈ regions 3 2 ->
         region_color (lib := mean_zero) green_image region = Some color ->
         color = "green"%string).
Proof.
  apply (single_color_iff_regions_agree (lib := mean_zero)
           green_image (60 # 6, 1200 # 6, 180 # 6)).
  reflexivity.
Defined.

(** ** The emotion mapper on every input *)

Lemma analyze_emotions_clamped colors brightness :
  NoDup (dict_keys (emotions_before_clamp colors brightness))
  /\ Forall (fun kv => snd kv ∈ raw_scores) (emotions_before_clamp colors brightness)
  /\ analyze_emotions_from_colors colors brightness
     = map (fun item => (fst item, py_min (snd item) 1%float))
           (emotions_before_clamp colors brightness).
Proof.
  assert (Hinv : Forall (fun kv => snd kv ∈ raw_scores)
                        (emotions_before_clamp colors brightness)
                 /\ NoDup (dict_keys (emotions_before_clamp colors brightness))).
  { unfold emotions_before_clamp. cbv zeta.
    destruct (color_loop_inv colors []) as [Hd Hnd]; [split; constructor |].
    destruct (Qgtb brightness 180); [| destruct (Qltb brightness 80)].
    - apply (brightness_moods_inv _ "bright" "cheerful" 0.8%float);
        [unfold table_scores; float_mem | split; assumption].
    - apply (brightness_moods_inv _ "moody" "dramatic" 0.7%float);
        [unfold table_scores; float_mem | split; assumption].
    - split; [| apply dict_set_NoDup, Hnd].
      apply dict_set_Forall.
      + eapply Forall_impl; [exact Hd |]. intros kv. apply table_scores_raw.
      + intros k' _. apply table_scores_raw. unfold table_scores. float_mem. }
  destruct Hinv as [Hraw Hnd]. split; [exact Hnd |]. split; [exact Hraw |].
  rewrite <- (clamp_all _ Hnd). reflexivity.
Qed.

(** X8: whatever the colours and the brightness, the mood dictionary has no
    repeated key and every score is in [0.0, 1.0]. *)
Theorem emotion_scores_clamped (colors : list string) (brightness : Q) :
  NoDup (dict_keys (analyze_emotions_from_colors colors brightness))
  /\ Forall (fun kv => in_unit (snd kv) = true)
            (analyze_emotions_from_colors colors brightness).
Proof.
  destruct (analyze_emotions_clamped colors brightness) as (Hnd & Hraw & ->).
  split.
  - unfold dict_keys in *. rewrite map_map. exact Hnd.
  - apply Forall_forall. intros kv Hin.
    apply list_elem_of_fmap in Hin as (item & -> & Hitem).
    rewrite Forall_forall in Hraw. apply raw_scores_clamped, Hraw, Hitem.
Qed.

Lemma dict_get_map {V : Type} (g : V -> V) (d : dict V) k :
  dict_get (map (fun item => (fst item, g (snd item))) d) k = g <$> dict_get d k.
Proof.
  induction d as [| [k' v'] d IH]; simpl; [reflexivity |].
  destruct (String.eqb k' k); [reflexivity | exact IH].
Qed.

Lemma dict_get_absent {V : Type} (d : dict V) k :
  k ∉ dict_keys d -> dict_get d k = None.
Proof.
  induction d as [| [k' v'] d IH]; simpl; [reflexivity |].
  intros Hnot. destruct (String.eqb_spec k' k) as [-> | Hne].
  - exfalso. apply Hnot. left.
  - apply IH. intros Hin. apply Hnot. right. exact Hin.
Qed.

(** One table updates the score of one mood once. *)
Lemma keep_max_get table : forall (emotions : dict float) (emotion : string),
  NoDup (dict_keys table) ->
  dict_get (foldl keep_max emotions table) emotion
  = match dict_get table emotion with
    | Some s => Some (py_max (dict_get_default emotions emotion 0%float) s)
    | None => dict_get emotions emotion
    end.
Proof.
  induction table as [| [k0 s0] table IH]; intros emotions emotion Hnd;
    [reflexivity |].
  unfold dict_keys in Hnd. simpl in Hnd. apply NoDup_cons in Hnd as [Hfresh Hnd].
  cbn [foldl]. rewrite (IH _ _ Hnd). unfold keep_max at 1 2. simpl dict_get.
  destruct (String.eqb_spec k0 emotion) as [-> | Hne].
  - rewrite (dict_get_absent table emotion Hfresh).
    apply dict_get_set_eq.
  - unfold dict_get_default. rewrite !dict_get_set_ne by exact Hne. reflexivity.
Qed.

Lemma color_emotions_NoDup color table :
  dict_get color_emotions color = Some table -> NoDup (dict_keys table).
Proof.
  intros H. apply dict_get_elem in H. unfold color_emotions in H.
  repeat (apply elem_of_cons in H as [[= _ ->] | H];
          [apply (bool_decide_unpack _); vm_compute; exact I |]).
  inversion H.
Qed.

Lemma color_moods_get emotions color emotion :
  dict_get (color_moods emotions color) emotion
  = mood_step emotion (dict_get emotions emotion) color.
Proof.
  unfold color_moods, mood_step, table_score.
  destruct (dict_get color_emotions color) as [table |] eqn:Htable; [| reflexivity].
  rewrite (keep_max_get table _ _ (color_emotions_NoDup color table Htable)).
  reflexivity.
Qed.

Lemma color_loop_get colors emotion : forall emotions : dict float,
  dict_get (foldl color_moods emotions colors) emotion
  = foldl (mood_step emotion) (dict_get emotions emotion) colors.
Proof.
  induction colors as [| color colors IH]; intros emotions; [reflexivity |].
  cbn [foldl]. rewrite IH, color_moods_get. reflexivity.
Qed.

Lemma table_score_scores color emotion s :
  table_score color emotion = Some s -> s ∈ table_scores.
Proof.
  unfold table_score.
  destruct (dict_get color_emotions color) as [table |] eqn:Htable; [| discriminate].
  intros Hs. apply dict_get_elem in Hs.
  pose proof (color_emotions_scores color table Htable) as Hall.
  rewrite Forall_forall in Hall. exact (Hall (emotion, s) Hs).
Qed.

Lemma py_max_picks a s :
  a ∈ table_scores -> s ∈ table_scores ->
  (py_max a s = a /\ PrimFloat.leb s a = true)
  \/ (py_max a s = s /\ PrimFloat.leb a s = true).
Proof.
  unfold table_scores. intros Ha Hs.
  float_cases Ha; float_cases Hs;
    first [ left; split; vm_compute; reflexivity
          | right; split; vm_compute; reflexivity ].
Qed.

Lemma leb_table_trans a b c :
  a ∈ table_scores -> b ∈ table_scores -> c ∈ table_scores ->
  PrimFloat.leb a b = true -> PrimFloat.leb b c = true -> PrimFloat.leb a c = true.
Proof.
  unfold table_scores. intros Ha Hb Hc.
  float_cases Ha; float_cases Hb; float_cases Hc; vm_compute; congruence.
Qed.

Lemma leb_table_refl a : a ∈ table_scores -> PrimFloat.leb a a = true.
Proof. unfold table_scores. intros Ha. float_cases Ha; reflexivity. Qed.

(** The score of a mood after the colour loop: no colour names the mood, or
    the score is a weight that some detected colour gives it and no detected
    colour gives it a larger one. *)
Lemma mood_loop_max emotion colors :
  match foldl (mood_step emotion) None colors with
  | None => forall color, color ∈ colors -> table_score color emotion = None
  | Some v =>
      v ∈ table_scores
      /\ (exists color, color ∈ colors /\ table_score color emotion = Some v)
      /\ (forall color s, color ∈ colors -> table_score color emotion = Some s ->
                          PrimFloat.leb s v = true)
  end.
Proof.
  induction colors as [| c colors IH] using rev_ind.
  - simpl. intros color Hin. inversion Hin.
  - rewrite foldl_app. cbn [foldl]. unfold mood_step at 1.
    destruct (table_score c emotion) as [s |] eqn:Hs.
    + pose proof (table_score_scores c emotion s Hs) as Hstab.
      destruct (foldl (mood_step emotion) None colors) as [a |].
      * destruct IH as (Ha & (color & Hin & Hcolor) & Hmax).
        change (default 0%float (Some a)) with a.
        destruct (py_max_picks a s Ha Hstab) as [[-> Hle] | [-> Hle]].
        -- split; [exact Ha |]. split.
           ++ exists color. split; [apply elem_of_app; left; exact Hin | exact Hcolor].
           ++ intros color' s' Hin' Hs'.
              apply elem_of_app in Hin' as [Hin' | Hin'].
              ** exact (Hmax color' s' Hin' Hs').
              ** apply list_elem_of_singleton in Hin'. subst color'.
                 rewrite Hs in Hs'. injection Hs' as <-. exact Hle.
        -- split; [exact Hstab |]. split.
           ++ exists c. split; [apply elem_of_app; right; left | exact Hs].
           ++ intros color' s' Hin' Hs'.
              apply elem_of_app in Hin' as [Hin' | Hin'].
              ** apply (leb_table_trans s' a s);
                   [exact (table_score_scores _ _ _ Hs') | exact Ha | exact Hstab
                   | exact (Hmax color' s' Hin' Hs') | exact Hle].
              ** apply list_elem_of_singleton in Hin'. subst color'.
                 rewrite Hs in Hs'. injection Hs' as <-.
                 exact (leb_table_refl s Hstab).
      * change (default 0%float (@None float)) with 0%float.
        assert (Hzero : py_max 0%float s = s).
        { unfold table_scores in Hstab. float_cases Hstab; reflexivity. }
        rewrite Hzero. split; [exact Hstab |]. split.
        -- exists c. split; [apply elem_of_app; right; left | exact Hs].
        -- intros color' s' Hin' Hs'.
           apply elem_of_app in Hin' as [Hin' | Hin'].
           ++ rewrite (IH color' Hin') in Hs'. discriminate.
           ++ apply list_elem_of_singleton in Hin'. subst color'.
              rewrite Hs in Hs'. injection Hs' as <-.
              exact (leb_table_refl s Hstab).
    + destruct (foldl (mood_step emotion) None colors) as [a |].
      * destruct IH as (Ha & (color & Hin & Hcolor) & Hmax).
        split; [exact Ha |]. split.
        -- exists color. split; [apply elem_of_app; left; exact Hin | exact Hcolor].
        -- intros color' s' Hin' Hs'.
           apply elem_of_app in Hin' as [Hin' | Hin'].
           ++ exact (Hmax color' s' Hin' Hs').
           ++ apply list_elem_of_singleton in Hin'. subst color'.
              rewrite Hs in Hs'. discriminate.
      * intros color' Hin'. apply elem_of_app in Hin' as [Hin' | Hin'].
        -- exact (IH color' Hin').
        -- apply list_elem_of_singleton in Hin'. subst color'. exact Hs.
Qed.

Lemma Qgtb_true x y : Qgtb x y = true <-> (y < x)%Q.
Proof.
  unfold Qgtb. rewrite negb_true_iff, <- not_true_iff_false, Qle_bool_iff.
  split; [apply Qnot_le_lt | apply Qlt_not_le].
Qed.

Lemma Qltb_true x y : Qltb x y = true <-> (x < y)%Q.
Proof.
  unfold Qltb. rewrite negb_true_iff, <- not_true_iff_false, Qle_bool_iff.
  split; [apply Qnot_le_lt | apply Qlt_not_le].
Qed.

Lemma Qgtb_false x y : Qgtb x y = false <-> (x <= y)%Q.
Proof. unfold Qgtb. rewrite negb_false_iff. apply Qle_bool_iff. Qed.

Lemma Qltb_false x y : Qltb x y = false <-> (y <= x)%Q.
Proof. unfold Qltb. rewrite negb_false_iff. apply Qle_bool_iff. Qed.

Lemma color_loop_start colors emotion :
  dict_get (foldl color_moods [] colors) emotion
  = foldl (mood_step emotion) None colors.
Proof. apply (color_loop_get colors emotion []). Qed.

(** The final score of a mood that the brightness rules do not write is its
    score after the colour loop. *)
Lemma untouched_mood colors brightness emotion :
  emotion ∉ brightness_moods ->
  dict_get (analyze_emotions_from_colors colors brightness) emotion
  = (fun v => py_min v 1%float) <$> foldl (mood_step emotion) None colors.
Proof.
  intros Hnot.
  destruct (analyze_emotions_clamped colors brightness) as (_ & _ & ->).
  rewrite (dict_get_map (fun v => py_min v 1%float)). f_equal.
  rewrite <- color_loop_start.
  unfold emotions_before_clamp. cbv zeta.
  assert (Hne : forall k, k ∈ brightness_moods -> k <> emotion)
    by (intros k Hk ->; exact (Hnot Hk)).
  destruct (Qgtb brightness 180); [| destruct (Qltb brightness 80)];
    rewrite ?dict_get_set_ne; try reflexivity;
    apply Hne; unfold brightness_moods; float_mem.
Qed.

Lemma py_min_table v : v ∈ table_scores -> py_min v 1%float = v.
Proof. unfold table_scores. intros Hv. float_cases Hv; reflexivity. Qed.

(** X9: a mood that several detected colours name gets the largest of their
    weights, not the sum: for a mood outside the five that the brightness
    rules write, the final score is a weight that some detected colour gives
    it, no detected colour gives it a larger one, and the mood is absent
    exactly when no detected colour names it. *)
Theorem color_moods_keep_maximum (colors : list string) (brightness : Q)
    (emotion : string) :
  emotion ∉ brightness_moods ->
  (forall v : float,
      dict_get (analyze_emotions_from_colors colors brightness) emotion = Some v ->
      (exists color, color ∈ colors /\ table_score color emotion = Some v)
      /\ (forall color s, color ∈ colors -> table_score color emotion = Some s ->
                          PrimFloat.leb s v = true))
  /\ (dict_get (analyze_emotions_from_colors colors brightness) emotion = None
      <-> forall color, color ∈ colors -> table_score color emotion = None).
Proof.
  intros Hnot. rewrite (untouched_mood colors brightness emotion Hnot).
  pose proof (mood_loop_max emotion colors) as Hloop.
  destruct (foldl (mood_step emotion) None colors) as [a |]; simpl.
  - destruct Hloop as (Ha & Hattained & Hmax).
    rewrite (py_min_table a Ha). split.
    + intros v [= <-]. split; assumption.
    + split; [discriminate |]. intros Hnone.
      destruct Hattained as (color & Hin & Hcolor).
      rewrite (Hnone color Hin) in Hcolor. discriminate.
  - split; [discriminate |]. split; [intros _; exact Hloop | reflexivity].
Qed.

Lemma color_moods_keep_maximum_witness :
  (exists color, color ∈ ["green"; "blue"]%string
                 /\ table_score color "peaceful" = Some 0.7%float)
  /\ PrimFloat.leb 0.6 0.7 = true.
Proof.
  destruct (color_moods_keep_maximum ["green"; "blue"]%string 128 "peaceful")
    as [Hmax _].
  - apply (bool_decide_unpack _). vm_compute. exact I.
  - destruct (Hmax 0.7%float) as [Hattained Hle]; [vm_compute; reflexivity |].
    split; [exact Hattained |].
    apply (Hle "green"%string); [left | reflexivity].
Defined.

Lemma table_score_cheerful color s :
  table_score color "cheerful" = Some s -> color = "yellow"%string /\ s = 0.7%float.
Proof.
  unfold table_score.
  destruct (dict_get color_emotions color) as [table |] eqn:Htable; [| discriminate].
  apply dict_get_elem in Htable. unfold color_emotions in Htable.
  repeat (apply elem_of_cons in Htable as [[= -> ->] | Htable];
          [vm_compute; intros [= <-]; split; reflexivity || discriminate |]);
    try (inversion Htable).
Qed.

Lemma table_score_dramatic color s :
  table_score color "dramatic" = Some s -> color = "black"%string /\ s = 0.8%float.
Proof.
  unfold table_score.
  destruct (dict_get color_emotions color) as [table |] eqn:Htable; [| discriminate].
  apply dict_get_elem in Htable. unfold color_emotions in Htable.
  repeat (apply elem_of_cons in Htable as [[= -> ->] | Htable];
          [vm_compute; intros [= <-]; split; reflexivity || discriminate |]);
    try (inversion Htable).
Qed.

Lemma table_score_moody color : table_score color "moody" = None.
Proof.
  unfold table_score.
  destruct (dict_get color_emotions color) as [table |] eqn:Htable; [| reflexivity].
  apply dict_get_elem in Htable. unfold color_emotions in Htable.
  repeat (apply elem_of_cons in Htable as [[= -> ->] | Htable]; [reflexivity |]).
  inversion Htable.
Qed.

(** The score after the colour loop of a mood that one colour alone names. *)
Lemma mood_of_one_color emotion owner (w : float) colors :
  (forall color s, table_score color emotion = Some s -> color = owner /\ s = w) ->
  table_score owner emotion = Some w ->
  foldl (mood_step emotion) None colors
  = if bool_decide (owner ∈ colors) then Some w else None.
Proof.
  intros Honly Howner.
  pose proof (mood_loop_max emotion colors) as Hloop.
  destruct (foldl (mood_step emotion) None colors) as [a |].
  - destruct Hloop as (_ & (color & Hin & Hcolor) & _).
    destruct (Honly color a Hcolor) as [-> ->].
    rewrite bool_decide_eq_true_2 by exact Hin. reflexivity.
  - rewrite bool_decide_eq_false_2; [reflexivity |].
    intros Hin. rewrite (Hloop owner Hin) in Howner. discriminate.
Qed.

Lemma mood_of_no_color emotion colors :
  (forall color, table_score color emotion = None) ->
  foldl (mood_step emotion) None colors = None.
Proof.
  intros Hnone. induction colors as [| c colors IH] using rev_ind; [reflexivity |].
  rewrite foldl_app. cbn [foldl]. unfold mood_step at 1. rewrite Hnone. exact IH.
Qed.

(** The scores that the brightness rules decide. *)
Lemma brightness_moods_values (colors : list string) (brightness : Q) :
  let e := analyze_emotions_from_colors colors brightness in
  ((180 < brightness)%Q ->
   dict_get e "bright" = Some 0.8%float
   /\ dict_get e "cheerful"
      = Some (if bool_decide ("yellow"%string ∈ colors) then 1%float else 0.3%float)
   /\ dict_get e "moody" = None)
  /\ ((brightness < 80)%Q ->
      dict_get e "moody" = Some 0.7%float
      /\ dict_get e "dramatic"
         = Some (if bool_decide ("black"%string ∈ colors) then 1%float else 0.3%float))
  /\ ((80 <= brightness)%Q -> (brightness <= 180)%Q ->
      dict_get e "balanced" = Some 0.6%float
      /\ dict_get e "moody" = None).
Proof.
  cbv zeta.
  destruct (analyze_emotions_clamped colors brightness) as (_ & _ & ->).
  rewrite !(dict_get_map (fun v => py_min v 1%float)).
  unfold emotions_before_clamp. cbv zeta.
  pose proof (mood_of_one_color "cheerful" "yellow" 0.7%float colors
                table_score_cheerful eq_refl) as Hcheer.
  pose proof (mood_of_one_color "dramatic" "black" 0.8%float colors
                table_score_dramatic eq_refl) as Hdrama.
  pose proof (mood_of_no_color "moody" colors table_score_moody) as Hmoody.
  rewrite <- color_loop_start in Hcheer, Hdrama, Hmoody.
  split; [| split].
  - intros Hb. apply Qgtb_true in Hb. rewrite Hb.
    split; [| split].
    + rewrite dict_get_set_ne by discriminate. rewrite dict_get_set_eq. reflexivity.
    + rewrite dict_get_set_eq. unfold dict_get_default.
      rewrite dict_get_set_ne by discriminate. rewrite Hcheer.
      destruct (bool_decide ("yellow"%string ∈ colors)); reflexivity.
    + rewrite !dict_get_set_ne by discriminate. rewrite Hmoody. reflexivity.
  - intros Hb.
    assert (Hnot : Qgtb brightness 180 = false).
    { apply Qgtb_false. apply Qlt_le_weak. eapply Qlt_trans; [exact Hb | reflexivity]. }
    apply Qltb_true in Hb. rewrite Hnot, Hb.
    split.
    + rewrite dict_get_set_ne by discriminate. rewrite dict_get_set_eq. reflexivity.
    + rewrite dict_get_set_eq. unfold dict_get_default.
      rewrite dict_get_set_ne by discriminate. rewrite Hdrama.
      destruct (bool_decide ("black"%string ∈ colors)); reflexivity.
  - intros Hlo Hhi. apply Qgtb_false in Hhi. apply Qltb_false in Hlo.
    rewrite Hhi, Hlo. split.
    + rewrite dict_get_set_eq. reflexivity.
    + rewrite dict_get_set_ne by discriminate. rewrite Hmoody. reflexivity.
Qed.

(** X10: the brightness rules.  Above 180, bright is 0.8 whatever the colours
    say and cheerful is 0.3 more than yellow's 0.7, that is 1.0, when yellow
    is detected and 0.3 otherwise.  Below 80, moody is 0.7 and dramatic is
    black's 0.8 plus 0.3 clamped to 1.0 when black is detected and 0.3
    otherwise.  From 80 to 180, balanced is 0.6.  The mood moody is present
    only below 80. *)
Theorem brightness_rules (colors : list string) (brightness : Q) :
  let e := analyze_emotions_from_colors colors brightness in
  ((180 < brightness)%Q ->
   dict_get e "bright" = Some 0.8%float
   /\ dict_get e "cheerful"
      = Some (if bool_decide ("yellow"%string ∈ colors) then 1%float else 0.3%float)
   /\ dict_get e "moody" = None)
  /\ ((brightness < 80)%Q ->
      dict_get e "moody" = Some 0.7%float
      /\ dict_get e "dramatic"
         = Some (if bool_decide ("black"%string ∈ colors) then 1%float else 0.3%float))
  /\ ((80 <= brightness)%Q -> (brightness <= 180)%Q ->
      dict_get e "balanced" = Some 0.6%float
      /\ dict_get e "moody" = None).
Proof. exact (brightness_moods_values colors brightness). Qed.

Lemma brightness_rules_witness :
  dict_get (analyze_emotions_from_colors ["yellow"; "black"]%string 200) "cheerful"
  = Some 1%float
  /\ dict_get (analyze_emotions_from_colors ["yellow"; "black"]%string 20) "dramatic"
     = Some 1%float
  /\ dict_get (analyze_emotions_from_colors ["yellow"; "black"]%string 80) "balanced"
     = Some 0.6%float.
Proof.
  split; [| split].
  - destruct (brightness_rules ["yellow"; "black"]%string 200) as (Hb & _ & _).
    destruct Hb as (_ & Hc & _); [reflexivity | exact Hc].
  - destruct (brightness_rules ["yellow"; "black"]%string 20) as (_ & Hb & _).
    destruct Hb as (_ & Hd); [reflexivity | exact Hd].
  - destruct (brightness_rules ["yellow"; "black"]%string 80) as (_ & _ & Hb).
    destruct Hb as (Hbal & _); [discriminate | discriminate | exact Hbal].
Defined.

(** ** How the parts of an analysis agree *)

Lemma pseudo_objects_names w h aspect_ratio brightness :
  map name (pseudo_objects w h aspect_ratio brightness)
  = map Some (pseudo_object_names w h aspect_ratio brightness)
  /\ object_names (pseudo_objects w h aspect_ratio brightness)
     = Ok (pseudo_object_names w h aspect_ratio brightness).
Proof.
  unfold pseudo_objects, pseudo_object_names. cbv zeta.
  destruct (Qgtb aspect_ratio 1.5); [| destruct (Qltb aspect_ratio 0.67)];
    (destruct (Qgtb brightness 200); [| destruct (Qltb brightness 80)]);
    split; reflexivity.
Qed.

Lemma has_object_map objs names n :
  map name objs = map Some names -> has_object objs n <-> n ∈ names.
Proof.
  revert names. unfold has_object.
  induction objs as [| obj objs IH]; intros [| n0 names] Hmap;
    try discriminate Hmap.
  - split; [intros (obj & Hin & _); inversion Hin | intros Hin; inversion Hin].
  - simpl in Hmap. injection Hmap as Hname Hmap. specialize (IH names Hmap).
    split.
    + intros (obj' & Hin & Hname').
      apply elem_of_cons in Hin as [-> | Hin].
      * assert (n0 = n) as -> by congruence. left.
      * right. apply IH. exists obj'. split; assumption.
    + intros Hin. apply elem_of_cons in Hin as [-> | Hin].
      * exists obj. split; [left | exact Hname].
      * apply IH in Hin as (obj' & Hin & Hname').
        exists obj'. split; [right; exact Hin | exact Hname'].
Qed.

Lemma has_object_names w h aspect_ratio brightness n :
  has_object (pseudo_objects w h aspect_ratio brightness) n
  <-> n ∈ pseudo_object_names w h aspect_ratio brightness.
Proof.
  apply has_object_map.
  exact (proj1 (pseudo_objects_names w h aspect_ratio brightness)).
Qed.

(** Membership of a fixed name in the names of the pseudo-objects. *)
Ltac name_cases :=
  unfold pseudo_object_names;
  let Hc := fresh "Hc" in
  match goal with
  | |- context [size_category ?n] =>
      destruct (size_category_cases n) as [Hc | [Hc | Hc]]; rewrite Hc
  end;
  repeat match goal with
         | |- context [if ?b then _ else _] => destruct b eqn:?
         end;
  cbn [app];
  split; intros H;
  first [ reflexivity
        | discriminate
        | solve [float_mem]
        | solve [split; reflexivity]
        | solve [destruct H; discriminate]
        | exfalso;
          repeat (apply elem_of_cons in H as [H | H]; [discriminate H |]);
          inversion H ].

Lemma landscape_named w h aspect_ratio brightness :
  "landscape"%string ∈ pseudo_object_names w h aspect_ratio brightness
  <-> Qgtb aspect_ratio 1.5 = true.
Proof. name_cases. Qed.

Lemma portrait_named w h aspect_ratio brightness :
  "portrait"%string ∈ pseudo_object_names w h aspect_ratio brightness
  <-> Qgtb aspect_ratio 1.5 = false /\ Qltb aspect_ratio 0.67 = true.
Proof. name_cases. Qed.

Lemma bright_named w h aspect_ratio brightness :
  "bright_image"%string ∈ pseudo_object_names w h aspect_ratio brightness
  <-> Qgtb brightness 200 = true.
Proof. name_cases. Qed.

Lemma dark_named w h aspect_ratio brightness :
  "dark_image"%string ∈ pseudo_object_names w h aspect_ratio brightness
  <-> Qgtb brightness 200 = false /\ Qltb brightness 80 = true.
Proof. name_cases. Qed.

(** The analysis of an image that opens and has a height, with each part
    of the result spelled out. *)
Lemma analysis_of_image {lib : Pillow}
    (Image_open : list Byte.byte -> result Image) (luma : RGB -> Z)
    (hash : string -> result Z) (list_of_set : list string -> list string)
    (image_bytes : list Byte.byte) (image : Image) :
  Image_open image_bytes = Ok image ->
  height image <> 0 ->
  exists r,
    analyze_image_basic Image_open luma hash list_of_set image_bytes = Analysis r
    /\ let w := width image in
       let h := height image in
       let aspect_ratio := w # Z.to_pos h in
       let brightness := analyze_brightness luma image in
       objects r = pseudo_objects w h aspect_ratio brightness
       /\ colors r = analyze_colors image
       /\ emotions r = analyze_emotions_from_colors (analyze_colors image) brightness
       /\ caption r = generate_basic_caption (analyze_colors image) (objects r) brightness
       /\ search_keywords r
          = list_of_set (collect_keywords (colors r)
                           (pseudo_object_names w h aspect_ratio brightness)
                           (emotions r) aspect_ratio)
       /\ semantic_concepts r
          = map color_concept (take 3 (colors r)) ++ emotion_concepts (emotions r).
Proof.
  intros Hopen Hnz.
  destruct (analyze_image_basic_total Image_open luma hash list_of_set
              image_bytes image Hopen Hnz) as [r Hr].
  exists r. split; [exact Hr |].
  apply analyze_image_basic_Ok in Hr
    as (image' & names & Hopen' & _ & Hnames & Hobj & _ & Hcap & Hemo & Hcol
        & Hkey & _ & Hcon & _).
  rewrite Hopen in Hopen'. injection Hopen' as <-.
  cbv zeta in *.
  rewrite (proj2 (pseudo_objects_names _ _ _ _)) in Hnames.
  injection Hnames as <-.
  repeat split; assumption.
Qed.

Lemma analysis_has_image {lib : Pillow}
    (Image_open : list Byte.byte -> result Image) (luma : RGB -> Z)
    (hash : string -> result Z) (list_of_set : list string -> list string)
    (image_bytes : list Byte.byte) (r : AnalysisResult) :
  analyze_image_basic Image_open luma hash list_of_set image_bytes = Analysis r ->
  exists image, Image_open image_bytes = Ok image /\ height image <> 0.
Proof.
  intros Hr. apply analyze_image_basic_Ok in Hr as (image & _ & Hopen & Hnz & _).
  exists image. split; assumption.
Qed.

Lemma aspect_ratio_thresholds (w h : Z) :
  0 < h ->
  (Qgtb (w # Z.to_pos h) 1.5 = true <-> 3 * h < 2 * w)
  /\ (Qltb (w # Z.to_pos h) 0.67 = true <-> 100 * w < 67 * h)
  /\ (Qgtb (w # Z.to_pos h) 1.3 = true <-> 13 * h < 10 * w)
  /\ (Qltb (w # Z.to_pos h) 0.8 = true <-> 10 * w < 8 * h).
Proof.
  intros Hh. rewrite !Qgtb_true, !Qltb_true. unfold Qlt. cbn [Qnum Qden].
  rewrite Z2Pos.id by lia. lia.
Qed.

(** X11: an image that opens and has a positive height is analysed, and
    the orientation objects of the result are decided by the integers of
    its size: "landscape" exactly when 2 * width exceeds 3 * height,
    "portrait" exactly when 100 * width is below 67 * height, and never
    both. *)
Theorem orientation_by_size {lib : Pillow}
    (Image_open : list Byte.byte -> result Image) (luma : RGB -> Z)
    (hash : string -> result Z) (list_of_set : list string -> list string)
    (image_bytes : list Byte.byte) (image : Image) :
  Image_open image_bytes = Ok image ->
  0 < height image ->
  exists r,
    analyze_image_basic Image_open luma hash list_of_set image_bytes = Analysis r
    /\ (has_object (objects r) "landscape" <-> 3 * height image < 2 * width image)
    /\ (has_object (objects r) "portrait" <-> 100 * width image < 67 * height image)
    /\ ~ (has_object (objects r) "landscape" /\ has_object (objects r) "portrait").
Proof.
  intros Hopen Hh.
  destruct (analysis_of_image Image_open luma hash list_of_set image_bytes image
              Hopen) as (r & Hr & Hobj & _); [lia |].
  exists r. split; [exact Hr |]. cbv zeta in Hobj. rewrite Hobj.
  rewrite !has_object_names, landscape_named, portrait_named.
  destruct (aspect_ratio_thresholds (width image) (height image) Hh)
    as (Hl & Hp & _).
  rewrite <- not_true_iff_false, Hl, Hp. lia.
Qed.

Lemma orientation_by_size_witness :
  exists r,
    analyze_image_basic (lib := mean_zero)
      (open_as two_tone_image) sample_luma sample_hash id []
    = Analysis r
    /\ has_object (objects r) "landscape"
    /\ ~ has_object (objects r) "portrait".
Proof.
  destruct (orientation_by_size (lib := mean_zero)
              (open_as two_tone_image) sample_luma sample_hash
              id [] two_tone_image eq_refl)
    as (r & Hr & Hl & Hp & _); [reflexivity |].
  exists r. split; [exact Hr |]. split.
  - apply Hl. reflexivity.
  - intros H. apply Hp in H. vm_compute in H. discriminate H.
Defined.

(** X12: in every analysis the brightness object and the moods agree on a
    dark image and on a bright one: the object "dark_image" is present
    exactly when the mood "moody" is, with score 0.7; the object
    "bright_image" comes with the mood "bright" at 0.8 and without "moody";
    the two objects never come together. *)
Theorem brightness_object_and_mood {lib : Pillow}
    (Image_open : list Byte.byte -> result Image) (luma : RGB -> Z)
    (hash : string -> result Z) (list_of_set : list string -> list string)
    (image_bytes : list Byte.byte) (r : AnalysisResult) :
  analyze_image_basic Image_open luma hash list_of_set image_bytes = Analysis r ->
  (has_object (objects r) "dark_image"
   <-> dict_get (emotions r) "moody" = Some 0.7%float)
  /\ (has_object (objects r) "dark_image" <-> is_Some (dict_get (emotions r) "moody"))
  /\ (has_object (objects r) "bright_image" ->
      dict_get (emotions r) "bright" = Some 0.8%float
      /\ dict_get (emotions r) "moody" = None)
  /\ ~ (has_object (objects r) "bright_image" /\ has_object (objects r) "dark_image").
Proof.
  intros Hr.
  destruct (analysis_has_image _ _ _ _ _ _ Hr) as (image & Hopen & Hnz).
  destruct (analysis_of_image Image_open luma hash list_of_set image_bytes image
              Hopen Hnz) as (r' & Hr' & Hobj & _ & Hemo & _).
  rewrite Hr in Hr'. injection Hr' as <-. cbv zeta in Hobj, Hemo.
  rewrite Hobj, Hemo. rewrite !has_object_names, bright_named, dark_named.
  set (b := analyze_brightness luma image).
  pose proof (brightness_moods_values (analyze_colors image) b) as Hrules.
  cbv zeta in Hrules. destruct Hrules as (Hhigh & Hlow & Hmid).
  rewrite Qgtb_false, Qltb_true, Qgtb_true.
  destruct (Qlt_le_dec b 80) as [Hdark | Hnotdark].
  - destruct (Hlow Hdark) as [-> _].
    assert (Hle : (b <= 200)%Q).
    { apply Qlt_le_weak. eapply Qlt_trans; [exact Hdark | reflexivity]. }
    split; [tauto |]. split; [split; [eauto | tauto] |].
    split.
    + intros Hb. exfalso. apply (Qlt_not_le _ _ Hb Hle).
    + intros [Hb _]. apply (Qlt_not_le _ _ Hb Hle).
  - assert (Hnone : dict_get (analyze_emotions_from_colors (analyze_colors image) b)
                             "moody" = None).
    { destruct (Qlt_le_dec 180 b) as [Hb | Hb].
      - apply (Hhigh Hb).
      - apply (Hmid Hnotdark Hb). }
    rewrite Hnone.
    split; [split; [intros [_ Hd]; exfalso; exact (Qlt_not_le _ _ Hd Hnotdark)
                   | discriminate] |].
    split; [split; [intros [_ Hd]; exfalso; exact (Qlt_not_le _ _ Hd Hnotdark)
                   | intros [v Hv]; discriminate Hv] |].
    split.
    + intros Hb. split; [| reflexivity].
      apply Hhigh. eapply Qlt_trans; [| exact Hb]. reflexivity.
    + intros [_ [_ Hd]]. exact (Qlt_not_le _ _ Hd Hnotdark).
Qed.

Lemma brightness_object_and_mood_witness :
  exists r,
    analyze_image_basic (lib := mean_zero)
      (open_as night_image) sample_luma sample_hash id []
    = Analysis r
    /\ has_object (objects r) "dark_image"
    /\ dict_get (emotions r) "moody" = Some 0.7%float.
Proof.
  eexists. split; [vm_compute; reflexivity |].
  match goal with
  | |- has_object (objects ?r) _ /\ _ =>
      destruct (brightness_object_and_mood (lib := mean_zero)
                  (open_as night_image) sample_luma
                  sample_hash id [] r) as (Hdark & _);
        [vm_compute; reflexivity |]
  end.
  split; [apply Hdark |]; vm_compute; reflexivity.
Defined.

(** ** The caption composer *)

Lemma string_app_cons (c : ascii) (s t : string) :
  String c s +:+ t = String c (s +:+ t).
Proof. reflexivity. Qed.

Lemma string_app_length (s t : string) :
  String.length (s +:+ t) = (String.length s + String.length t)%nat.
Proof.
  induction s as [| c s IH]; [reflexivity |].
  rewrite string_app_cons. simpl. rewrite IH. reflexivity.
Qed.

Lemma string_app_assoc (s t u : string) : (s +:+ t) +:+ u = s +:+ (t +:+ u).
Proof.
  induction s as [| c s IH]; [reflexivity |].
  rewrite !string_app_cons, IH. reflexivity.
Qed.

Lemma join_snoc (sep : string) (parts : list string) (last : string) :
  parts <> [] ->
  join sep (parts ++ [last]) = join sep parts +:+ sep +:+ last.
Proof.
  induction parts as [| p parts IH]; intros Hne; [contradiction |].
  destruct parts as [| q parts]; [reflexivity |].
  change (join sep ((p :: q :: parts) ++ [last]))
    with (p +:+ sep +:+ join sep ((q :: parts) ++ [last])).
  rewrite IH by discriminate.
  change (join sep (p :: q :: parts)) with (p +:+ sep +:+ join sep (q :: parts)).
  rewrite !string_app_assoc. reflexivity.
Qed.

(** No string that ends in " image" is the fallback caption. *)
Lemma not_a_photograph (s : string) : s +:+ " image" <> "A photograph"%string.
Proof.
  intros H. pose proof (f_equal String.length H) as Hlen.
  rewrite string_app_length in Hlen. simpl in Hlen.
  do 7 (destruct s as [| ? s]; [simpl in Hlen; try lia; discriminate H |]).
  simpl in Hlen. lia.
Qed.

Lemma join_caption (word text : string) (orientations : list string) :
  join " " (match orientations with
            | o :: _ => ([word] ++ [text]) ++ [o]
            | [] => [word] ++ [text]
            end ++ ["image"%string])
  = word +:+ " " +:+ text
    +:+ match orientations with
        | o :: _ => " " +:+ o
        | [] => ""
        end
    +:+ " image".
Proof.
  destruct orientations as [| o rest]; rewrite join_snoc by discriminate.
  - change (join " " ([word] ++ [text])) with (word +:+ " " +:+ text).
    rewrite !string_app_assoc. reflexivity.
  - change (join " " (([word] ++ [text]) ++ [o]))
      with (word +:+ " " +:+ text +:+ " " +:+ o).
    rewrite !string_app_assoc. reflexivity.
Qed.

Lemma caption_body_Ok colors objs brightness orientations :
  orientation_names objs = Ok orientations ->
  generate_basic_caption_body colors objs brightness
  = Ok ((if Qgtb brightness 200 then "A bright"
         else if Qltb brightness 80 then "A dark" else "A")
        +:+ " " +:+ color_text colors
        +:+ match orientations with
            | o :: _ => " " +:+ o
            | [] => ""
            end
        +:+ " image").
Proof.
  intros Ho. unfold generate_basic_caption_body. cbv zeta. rewrite Ho. cbn [bind].
  f_equal.
  destruct (Qgtb brightness 200); [| destruct (Qltb brightness 80)];
    exact (join_caption _ (color_text colors) orientations).
Qed.

Lemma orientation_loop_named objs :
  Forall (fun obj => is_Some (name obj)) objs ->
  forall acc, exists names,
    for_each (fun names obj =>
                let! n := getitem_name obj in
                if str_in n ["landscape"; "portrait"]%string
                then (let! n' := getitem_name obj in Ok (names ++ [n']))
                else Ok names)
             objs acc = Ok names.
Proof.
  intros Hall. apply for_each_total. intros obj acc Hin.
  rewrite Forall_forall in Hall. destruct (Hall obj Hin) as [n Hn].
  unfold getitem_name. rewrite Hn. cbn [bind].
  destruct (str_in n _); eexists; reflexivity.
Qed.

Lemma orientation_loop_unnamed objs obj :
  obj ∈ objs -> name obj = None ->
  forall acc,
    for_each (fun names obj =>
                let! n := getitem_name obj in
                if str_in n ["landscape"; "portrait"]%string
                then (let! n' := getitem_name obj in Ok (names ++ [n']))
                else Ok names)
             objs acc = Raise (KeyError "name").
Proof.
  intros Hin Hname.
  induction Hin as [obj objs | obj first objs Hin IH]; intros acc; cbn [for_each].
  - unfold getitem_name. rewrite Hname. reflexivity.
  - unfold getitem_name at 1. destruct (name first) as [n |] eqn:Hfirst;
      [| reflexivity].
    cbn [bind]. destruct (str_in n _).
    + unfold getitem_name. rewrite Hfirst. cbn [bind]. apply IH. exact Hname.
    + cbn [bind]. apply IH. exact Hname.
Qed.

Lemma unnamed_or_named (objs : list PseudoObject) :
  (exists obj, obj ∈ objs /\ name obj = None)
  \/ Forall (fun obj => is_Some (name obj)) objs.
Proof.
  induction objs as [| obj objs [(o & Hin & Ho) | Hall]].
  - right. constructor.
  - left. exists o. split; [right; exact Hin | exact Ho].
  - destruct (name obj) as [n |] eqn:Hn.
    + right. constructor; [rewrite Hn; eauto | exact Hall].
    + left. exists obj. split; [left | exact Hn].
Qed.

(** X13: the caption is the fallback "A photograph" exactly when some
    object of the list has no name; whatever the colours, the brightness
    and the named objects, a composed caption is never that string. *)
Theorem caption_fallback_iff_unnamed
    (colors : list string) (objs : list PseudoObject) (brightness : Q) :
  generate_basic_caption colors objs brightness = "A photograph"%string
  <-> exists obj, obj ∈ objs /\ name obj = None.
Proof.
  unfold generate_basic_caption. split.
  - intros Hcap.
    destruct (unnamed_or_named objs) as [Hex | Hall]; [exact Hex |].
    exfalso.
    destruct (orientation_loop_named objs Hall []) as [orientations Ho].
    rewrite (caption_body_Ok colors objs brightness orientations Ho) in Hcap.
    unfold try_except in Hcap.
    rewrite <- !string_app_assoc in Hcap.
    exact (not_a_photograph _ Hcap).
  - intros (obj & Hin & Hname).
    unfold generate_basic_caption_body. cbv zeta.
    unfold orientation_names.
    rewrite (orientation_loop_unnamed objs obj Hin Hname). reflexivity.
Qed.

Lemma pseudo_objects_orientation w h aspect_ratio brightness :
  orientation_names (pseudo_objects w h aspect_ratio brightness)
  = Ok (if Qgtb aspect_ratio 1.5 then ["landscape"%string]
        else if Qltb aspect_ratio 0.67 then ["portrait"%string]
        else []).
Proof.
  unfold pseudo_objects. cbv zeta.
  destruct (size_category_cases (w * h)) as [Hc | [Hc | Hc]]; rewrite Hc;
    (destruct (Qgtb aspect_ratio 1.5); [| destruct (Qltb aspect_ratio 0.67)]);
    (destruct (Qgtb brightness 200); [| destruct (Qltb brightness 80)]);
    reflexivity.
Qed.

Lemma analyze_colors_shape {lib : Pillow} (image : Image) :
  exists c0 rest,
    analyze_colors image = c0 :: rest
    /\ (length rest <= 2)%nat
    /\ c0 ∈ "mixed"%string :: dict_keys color_names.
Proof.
  destruct (stat_mean image) as [m | e] eqn:Hm.
  - destruct (analyze_colors_head image m Hm) as (rest & Heq & _ & _ & Hlen).
    exists (classify_mean m), rest. split; [exact Heq |]. split; [exact Hlen |].
    right. destruct m as [[r g] b]. apply rgb_to_color_name_palette.
  - rewrite (analyze_colors_fallback image e Hm).
    exists "mixed"%string, []. split; [reflexivity |]. split; [simpl; lia | left].
Qed.

(** X14: the caption of every analysis is composed, never the fallback: it
    is a brightness word, the colour text of the detected colours (which
    are never empty), an optional orientation and "image"; the word is
    "A bright" or "A dark" exactly when the object "bright_image" or
    "dark_image" is present, and the orientation is named exactly when its
    object is present. *)
Theorem caption_of_analysis {lib : Pillow}
    (Image_open : list Byte.byte -> result Image) (luma : RGB -> Z)
    (hash : string -> result Z) (list_of_set : list string -> list string)
    (image_bytes : list Byte.byte) (r : AnalysisResult) :
  analyze_image_basic Image_open luma hash list_of_set image_bytes = Analysis r ->
  exists word orientation : string,
    caption r = word +:+ " " +:+ color_text (colors r) +:+ orientation +:+ " image"
    /\ colors r <> []
    /\ word ∈ ["A bright"; "A dark"; "A"]%string
    /\ (word = "A bright"%string <-> has_object (objects r) "bright_image")
    /\ (word = "A dark"%string <-> has_object (objects r) "dark_image")
    /\ orientation ∈ [" landscape"; " portrait"; ""]%string
    /\ (orientation = " landscape"%string <-> has_object (objects r) "landscape")
    /\ (orientation = " portrait"%string <-> has_object (objects r) "portrait").
Proof.
  intros Hr.
  destruct (analysis_has_image _ _ _ _ _ _ Hr) as (image & Hopen & Hnz).
  destruct (analysis_of_image Image_open luma hash list_of_set image_bytes image
              Hopen Hnz) as (r' & Hr' & Hobj & Hcol & _ & Hcap & _).
  rewrite Hr in Hr'. injection Hr' as <-. cbv zeta in Hobj, Hcol, Hcap.
  rewrite Hcap, Hobj, Hcol. unfold generate_basic_caption.
  rewrite (caption_body_Ok _ _ _ _ (pseudo_objects_orientation _ _ _ _)).
  unfold try_except.
  set (b := analyze_brightness luma image).
  set (a := width image # Z.to_pos (height image)).
  eexists. eexists. split; [reflexivity |].
  rewrite !has_object_names, bright_named, dark_named, landscape_named,
    portrait_named.
  split.
  { destruct (analyze_colors_shape image) as (c0 & rest & -> & _). discriminate. }
  destruct (Qgtb b 200); [| destruct (Qltb b 80)];
    (destruct (Qgtb a 1.5); [| destruct (Qltb a 0.67)]);
    (split; [float_mem |]);
    (split; [split; intros H; first [reflexivity | discriminate H] |]);
    (split; [split; intros H;
             first [reflexivity | discriminate H | split; reflexivity
                   | destruct H; discriminate] |]);
    (split; [float_mem |]);
    (split; [split; intros H; first [reflexivity | discriminate H] |]);
    split; intros H;
      first [reflexivity | discriminate H | split; reflexivity
            | destruct H; discriminate].
Qed.

Lemma caption_of_analysis_witness :
  exists r,
    analyze_image_basic (lib := mean_zero)
      (open_as two_tone_image) sample_luma sample_hash id []
    = Analysis r
    /\ exists word orientation : string,
         caption r
         = word +:+ " " +:+ color_text (colors r) +:+ orientation +:+ " image"
         /\ word ∈ ["A bright"; "A dark"; "A"]%string
         /\ orientation ∈ [" landscape"; " portrait"; ""]%string.
Proof.
  eexists. split; [vm_compute; reflexivity |].
  match goal with
  | |- exists _ _, caption ?r = _ /\ _ =>
      destruct (caption_of_analysis (lib := mean_zero)
                  (open_as two_tone_image) sample_luma
                  sample_hash id [] r)
        as (word & orientation & Hcap & _ & Hword & _ & _ & Ho & _);
        [vm_compute; reflexivity |]
  end.
  exists word, orientation. split; [exact Hcap |]. split; [exact Hword | exact Ho].
Defined.

(** ** The search keywords and the semantic concepts *)

Lemma dict_get_is_Some {V : Type} (d : dict V) k :
  is_Some (dict_get d k) <-> k ∈ dict_keys d.
Proof.
  induction d as [| [k' v'] d IH]; simpl.
  - split; [intros [v Hv]; discriminate Hv | intros Hin; inversion Hin].
  - destruct (String.eqb_spec k' k) as [-> | Hne].
    + split; [intros _; left | intros _; eauto].
    + rewrite IH. split; [intros Hin; right; exact Hin |].
      intros Hin. apply elem_of_cons in Hin as [-> | Hin];
        [contradiction | exact Hin].
Qed.

(** X15: if [list(keywords)] holds exactly the members of the set, the
    search keywords of the analysis of an image with a positive height are
    exactly its colours, the names of its objects, its moods, "wide" and
    "horizontal" when 10 * width exceeds 13 * height, and "tall" and
    "vertical" when 10 * width is below 8 * height. *)
Theorem keywords_of_analysis {lib : Pillow}
    (Image_open : list Byte.byte -> result Image) (luma : RGB -> Z)
    (hash : string -> result Z) (list_of_set : list string -> list string)
    (image_bytes : list Byte.byte) (image : Image) :
  (forall (l : list string) (x : string), x ∈ list_of_set l <-> x ∈ l) ->
  Image_open image_bytes = Ok image ->
  0 < height image ->
  exists r,
    analyze_image_basic Image_open luma hash list_of_set image_bytes = Analysis r
    /\ forall k : string,
         k ∈ search_keywords r
         <-> k ∈ colors r
             \/ has_object (objects r) k
             \/ is_Some (dict_get (emotions r) k)
             \/ (k ∈ ["wide"; "horizontal"]%string
                 /\ 13 * height image < 10 * width image)
             \/ (k ∈ ["tall"; "vertical"]%string
                 /\ 10 * width image < 8 * height image).
Proof.
  intros Hset Hopen Hh.
  destruct (analysis_of_image Image_open luma hash list_of_set image_bytes image
              Hopen) as (r & Hr & Hobj & _ & _ & _ & Hkey & _); [lia |].
  exists r. split; [exact Hr |]. cbv zeta in Hobj, Hkey.
  intros k. rewrite Hkey, Hset, Hobj, has_object_names, dict_get_is_Some.
  destruct (aspect_ratio_thresholds (width image) (height image) Hh)
    as (_ & _ & Hwide & Htall).
  unfold collect_keywords.
  destruct (Qgtb _ 1.3) eqn:E1; [| destruct (Qltb _ 0.8) eqn:E2];
    rewrite ?elem_of_app.
  - assert (13 * height image < 10 * width image) by (apply Hwide; reflexivity).
    intuition lia.
  - assert (10 * width image < 8 * height image) by (apply Htall; reflexivity).
    intuition lia.
  - assert (Hnw : ~ 13 * height image < 10 * width image)
      by (intros Hw; apply Hwide in Hw; discriminate Hw).
    assert (Hnt : ~ 10 * width image < 8 * height image)
      by (intros Ht; apply Htall in Ht; discriminate Ht).
    intuition lia.
Qed.

Lemma keywords_of_analysis_witness :
  exists r,
    analyze_image_basic (lib := mean_zero)
      (open_as two_tone_image) sample_luma sample_hash id []
    = Analysis r
    /\ "wide"%string ∈ search_keywords r
    /\ "landscape"%string ∈ search_keywords r.
Proof.
  destruct (keywords_of_analysis (lib := mean_zero)
              (open_as two_tone_image) sample_luma sample_hash
              id [] two_tone_image) as (r & Hr & Hkey);
    [intros l x; reflexivity | reflexivity | reflexivity |].
  exists r. split; [exact Hr |]. split.
  - apply Hkey. right. right. right. left.
    split; [left | reflexivity].
  - apply Hkey. right. left.
    assert (Hr' : analyze_image_basic (lib := mean_zero)
                    (open_as two_tone_image) sample_luma
                    sample_hash id [] = Analysis r) by exact Hr.
    vm_compute in Hr'. injection Hr' as <-.
    eexists. split; [left | reflexivity].
Defined.

Lemma emotions_NoDup (colors : list string) (brightness : Q) :
  NoDup (dict_keys (analyze_emotions_from_colors colors brightness)).
Proof.
  destruct (analyze_emotions_clamped colors brightness) as (Hnd & _ & ->).
  unfold dict_keys in *. rewrite map_map. exact Hnd.
Qed.

Lemma emotion_concepts_elem (emotions : dict float) (c : Concept) :
  NoDup (dict_keys emotions) ->
  c ∈ emotion_concepts emotions
  <-> exists emotion score,
        dict_get emotions emotion = Some score
        /\ PrimFloat.ltb 0.5 score = true
        /\ c = mkConcept emotion score "emotion".
Proof.
  intros Hnd. unfold emotion_concepts.
  rewrite list_elem_of_In, in_flat_map. split.
  - intros ([emotion score] & Hin & Hc).
    apply list_elem_of_In in Hin. apply (dict_elem_get _ _ _ Hnd) in Hin.
    destruct (PrimFloat.ltb 0.5 score) eqn:Hs; [| destruct Hc].
    destruct Hc as [<- | []]. exists emotion, score. auto.
  - intros (emotion & score & Hget & Hs & ->).
    exists (emotion, score). split.
    + apply list_elem_of_In. apply dict_get_elem. exact Hget.
    + rewrite Hs. left. reflexivity.
Qed.

(** X16: the semantic concepts of every analysis are exactly one "visual"
    concept "<colour> tones" with confidence 0.7 for each detected colour,
    and one "emotion" concept for each mood whose score is strictly above
    0.5, with that score; every confidence lies in [0.0, 1.0]. *)
Theorem concepts_of_analysis {lib : Pillow}
    (Image_open : list Byte.byte -> result Image) (luma : RGB -> Z)
    (hash : string -> result Z) (list_of_set : list string -> list string)
    (image_bytes : list Byte.byte) (r : AnalysisResult) :
  analyze_image_basic Image_open luma hash list_of_set image_bytes = Analysis r ->
  (forall c : Concept,
     c ∈ semantic_concepts r
     <-> (exists color, color ∈ colors r
                        /\ c = mkConcept (color +:+ " tones") 0.7 "visual")
         \/ (exists emotion score,
               dict_get (emotions r) emotion = Some score
               /\ PrimFloat.ltb 0.5 score = true
               /\ c = mkConcept emotion score "emotion"))
  /\ Forall (fun c => in_unit (concept_confidence c) = true) (semantic_concepts r).
Proof.
  intros Hr.
  destruct (analysis_has_image _ _ _ _ _ _ Hr) as (image & Hopen & Hnz).
  destruct (analysis_of_image Image_open luma hash list_of_set image_bytes image
              Hopen Hnz) as (r' & Hr' & _ & Hcol & Hemo & _ & _ & Hcon).
  rewrite Hr in Hr'. injection Hr' as <-. cbv zeta in Hcol, Hemo, Hcon.
  assert (Htake : take 3 (colors r) = colors r).
  { apply take_ge. rewrite Hcol.
    destruct (analyze_colors_shape image) as (c0 & rest & -> & Hlen & _).
    simpl. lia. }
  assert (Hnd : NoDup (dict_keys (emotions r)))
    by (rewrite Hemo; apply emotions_NoDup).
  rewrite Hcon, Htake.
  assert (Hiff : forall c : Concept,
            c ∈ map color_concept (colors r) ++ emotion_concepts (emotions r)
            <-> (exists color, color ∈ colors r
                               /\ c = mkConcept (color +:+ " tones") 0.7 "visual")
                \/ (exists emotion score,
                      dict_get (emotions r) emotion = Some score
                      /\ PrimFloat.ltb 0.5 score = true
                      /\ c = mkConcept emotion score "emotion")).
  { intros c. rewrite elem_of_app, (emotion_concepts_elem _ _ Hnd).
    rewrite list_elem_of_fmap. unfold color_concept.
    split; (intros [(color & H1 & H2) | H]; [left; exists color; auto | right; exact H]). }
  split; [exact Hiff |].
  apply Forall_forall. intros c Hc. apply Hiff in Hc.
  destruct Hc as [(color & _ & ->) | (emotion & score & Hget & _ & ->)];
    [reflexivity |].
  cbn [concept_confidence]. apply dict_get_elem in Hget. rewrite Hemo in Hget.
  exact (emotions_in_unit _ _ _ _ Hget).
Qed.

Lemma concepts_of_analysis_witness :
  exists r,
    analyze_image_basic (lib := mean_zero)
      (open_as two_tone_image) sample_luma sample_hash id []
    = Analysis r
    /\ mkConcept "red tones" 0.7 "visual" ∈ semantic_concepts r
    /\ Forall (fun c => in_unit (concept_confidence c) = true) (semantic_concepts r).
Proof.
  eexists. split; [vm_compute; reflexivity |].
  match goal with
  | |- _ ∈ semantic_concepts ?r /\ _ =>
      destruct (concepts_of_analysis (lib := mean_zero)
                  (open_as two_tone_image) sample_luma
                  sample_hash id [] r) as (Hiff & Hunit);
        [vm_compute; reflexivity |]
  end.
  split; [| exact Hunit].
  apply Hiff. left. exists "red"%string. split; [| reflexivity].
  vm_compute. float_mem.
Defined.

(** ** The [/detect] route *)

(** X17: the [/detect] route answers with the empty list exactly when the
    analysis failed, that is when the bytes do not open as an image or the
    image has height 0; otherwise it answers with one to three objects,
    whose names are pairwise different, among them the resolution tier of
    the image. *)
Theorem detect_objects_answer {lib : Pillow}
    (Image_open : list Byte.byte -> result Image) (luma : RGB -> Z)
    (hash : string -> result Z) (list_of_set : list string -> list string)
    (image_data : list Byte.byte) :
  let answer := detect_objects Image_open luma hash list_of_set image_data in
  (answer = []
   <-> exists error,
         analyze_image_basic Image_open luma hash list_of_set image_data
         = Error error)
  /\ (answer = []
      <-> forall image, Image_open image_data = Ok image -> height image = 0)
  /\ (forall image,
        Image_open image_data = Ok image -> height image <> 0 ->
        (1 <= length answer <= 3)%nat
        /\ NoDup (map name answer)
        /\ tier_object (width image) (height image) ∈ answer).
Proof.
  cbv zeta. unfold detect_objects.
  destruct (analyze_image_basic Image_open luma hash list_of_set image_data)
    as [r | error] eqn:Hr.
  - destruct (analysis_has_image _ _ _ _ _ _ Hr) as (image & Hopen & Hnz).
    destruct (analysis_of_image Image_open luma hash list_of_set image_data image
                Hopen Hnz) as (r' & Hr' & Hobj & _).
    rewrite Hr in Hr'. injection Hr' as <-. cbv zeta in Hobj.
    assert (Hshape : (1 <= length (objects r) <= 3)%nat
                     /\ NoDup (map name (objects r))).
    { rewrite Hobj. rewrite <- (length_map name).
      rewrite (proj1 (pseudo_objects_names _ _ _ _)).
      rewrite length_map. unfold pseudo_object_names.
      destruct (size_category_cases (width image * height image))
        as [Hc | [Hc | Hc]]; rewrite Hc;
        (destruct (Qgtb _ 1.5); [| destruct (Qltb _ 0.67)]);
        (destruct (Qgtb _ 200); [| destruct (Qltb _ 80)]);
        (split; [simpl; lia |]);
        apply (bool_decide_unpack _); vm_compute; exact I. }
    split; [| split].
    + split; [| intros [error Herr]; discriminate Herr].
      intros Hnil. rewrite Hnil in Hshape. simpl in Hshape. lia.
    + split.
      * intros Hnil. rewrite Hnil in Hshape. simpl in Hshape. lia.
      * intros Hall. exfalso. exact (Hnz (Hall image Hopen)).
    + intros image' Hopen' _. rewrite Hopen in Hopen'. injection Hopen' as <-.
      split; [exact (proj1 Hshape) |]. split; [exact (proj2 Hshape) |].
      rewrite Hobj. apply tier_object_detected.
  - split; [| split].
    + split; [intros _; exists error; reflexivity | reflexivity].
    + split; [| reflexivity].
      intros _ image Hopen.
      destruct (Z.eq_dec (height image) 0) as [Hz | Hnz]; [exact Hz |].
      destruct (analyze_image_basic_total Image_open luma hash list_of_set
                  image_data image Hopen Hnz) as [r Hr'].
      rewrite Hr in Hr'. discriminate Hr'.
    + intros image Hopen Hnz.
      destruct (analyze_image_basic_total Image_open luma hash list_of_set
                  image_data image Hopen Hnz) as [r Hr'].
      rewrite Hr in Hr'. discriminate Hr'.
Qed.

(** ** The mood and keyword slots of the image encoder *)

Lemma enumerate_snoc {A : Type} (xs : list A) (x : A) :
  enumerate (xs ++ [x]) = enumerate xs ++ [(length xs, x)].
Proof.
  unfold enumerate. rewrite length_app. cbn [length].
  rewrite seq_app.
  rewrite zip_with_app by apply length_seq. reflexivity.
Qed.

Lemma for_each_app {A S : Type} (step : S -> A -> result S) (xs ys : list A) :
  forall s,
    for_each step (xs ++ ys) s
    = let! s' := for_each step xs s in for_each step ys s'.
Proof.
  induction xs as [| x xs IH]; intros s; cbn [app for_each]; [reflexivity |].
  destruct (step s x) as [s1 | e]; cbn [bind]; [apply IH | reflexivity].
Qed.

Lemma mood_loop_length (items : list (nat * (string * float))) :
  forall f, length (foldl set_emotion f items) = length f.
Proof.
  induction items as [| [i [emotion score]] items IH]; intros f; cbn [foldl];
    [reflexivity |].
  rewrite IH. unfold set_emotion.
  destruct (i <? 20)%nat; [apply length_insert | reflexivity].
Qed.

(** The loop over the moods writes the score of the [j]-th mood at slot
    [18 + j] and leaves the other slots from 18 on as they were. *)
Lemma mood_loop_lookup (l : dict float) :
  forall f : list float,
    (length l <= 20)%nat ->
    (18 + length l <= length f)%nat ->
    (forall j item, l !! j = Some item ->
                    foldl set_emotion f (enumerate l) !! (18 + j)%nat
                    = Some (snd item))
    /\ (forall j, l !! j = None ->
                  foldl set_emotion f (enumerate l) !! (18 + j)%nat
                  = f !! (18 + j)%nat).
Proof.
  induction l as [| [emotion score] l IH] using rev_ind; intros f Hlen Hf.
  - split; [intros j item Hj; discriminate Hj | reflexivity].
  - rewrite length_app in Hlen, Hf. cbn [length] in Hlen, Hf.
    destruct (IH f) as [IHsome IHnone]; [lia | lia |].
    rewrite enumerate_snoc, foldl_app. cbn [foldl]. unfold set_emotion.
    destruct (Nat.ltb_spec (length l) 20) as [_ | Hge]; [| lia].
    change (emotion_start + length l)%nat with (18 + length l)%nat.
    split.
    + intros j item Hj. apply lookup_snoc_Some in Hj as [[Hlt Hj] | [-> <-]].
      * rewrite list_lookup_insert_ne by lia. apply IHsome. exact Hj.
      * apply list_lookup_insert_eq. rewrite mood_loop_length. lia.
    + intros j Hj. apply lookup_ge_None in Hj.
      rewrite length_app in Hj. cbn [length] in Hj.
      rewrite list_lookup_insert_ne by lia.
      apply IHnone. apply lookup_ge_None. lia.
Qed.

Lemma keyword_loop_lookup (hash : string -> result Z) (l : list string) :
  forall f f' : list float,
    (length l <= 12)%nat ->
    (38 + length l <= length f)%nat ->
    for_each (set_keyword hash) (enumerate l) f = Ok f' ->
    length f' = length f
    /\ (forall j keyword, l !! j = Some keyword ->
          exists h, hash keyword = Ok h
                    /\ f' !! (38 + j)%nat
                       = Some (float_of_Z (Z.abs h mod 100) / 100)%float)
    /\ (forall j, l !! j = None -> f' !! (38 + j)%nat = f !! (38 + j)%nat).
Proof.
  induction l as [| keyword l IH] using rev_ind; intros f f' Hlen Hf Hloop.
  - injection Hloop as <-.
    split; [reflexivity |].
    split; [intros j k Hj; discriminate Hj | reflexivity].
  - rewrite length_app in Hlen, Hf. cbn [length] in Hlen, Hf.
    rewrite enumerate_snoc, for_each_app in Hloop.
    destruct (for_each (set_keyword hash) (enumerate l) f) as [fm | e] eqn:Hfm;
      cbn [bind for_each] in Hloop; [| discriminate Hloop].
    destruct (IH f fm) as (Hlenm & IHsome & IHnone); [lia | lia | exact Hfm |].
    unfold set_keyword in Hloop.
    destruct (Nat.ltb_spec (length l) 12) as [_ | Hge]; [| lia].
    destruct (hash keyword) as [h | e] eqn:Hh; cbn [bind] in Hloop;
      [| discriminate Hloop].
    injection Hloop as <-.
    split; [rewrite length_insert; exact Hlenm |].
    split.
    + intros j k Hj. apply lookup_snoc_Some in Hj as [[Hlt Hj] | [-> <-]].
      * destruct (IHsome j k Hj) as (h' & Hh' & Hslot).
        exists h'. split; [exact Hh' |].
        rewrite list_lookup_insert_ne by lia. exact Hslot.
      * exists h. split; [exact Hh |].
        apply list_lookup_insert_eq. lia.
    + intros j Hj. apply lookup_ge_None in Hj.
      rewrite length_app in Hj. cbn [length] in Hj.
      rewrite list_lookup_insert_ne by lia.
      apply IHnone. apply lookup_ge_None. lia.
Qed.

(** The vector after the colour and object loops: 50 slots, those from 18
    on still 0.0. *)
Lemma encoder_head_stages (r : AnalysisResult) :
  let f2 := foldl set_object (foldl set_color (replicate 50 0%float) (colors r))
                  (objects r) in
  length f2 = 50%nat
  /\ forall i, (18 <= i < 50)%nat -> f2 !! i = Some 0%float.
Proof.
  cbv zeta.
  set (f1 := foldl set_color (replicate 50 0%float) (colors r)).
  assert (H1 : writes (color_writes (colors r)) (replicate 50 0%float) f1).
  { apply writes_foldl. intros color f0 Hin. apply set_color_writes. exact Hin. }
  assert (H2 : writes (object_writes (objects r)) f1
                      (foldl set_object f1 (objects r))).
  { apply writes_foldl. intros obj f0 Hin. apply set_object_writes. exact Hin. }
  split.
  - rewrite (proj1 H2), (proj1 H1). apply length_replicate.
  - intros i Hi.
    rewrite (writes_untouched _ _ _ i H2).
    + rewrite (writes_untouched _ _ _ i H1).
      * apply lookup_replicate_2. lia.
      * intros v (_ & color & _ & Hc). apply color_map_range in Hc. lia.
    + intros v (obj & _ & Ho & _). apply object_features_range in Ho. lia.
Qed.

(** X18: whenever the body of the image encoder returns, slot 18 + j
    holds the score of the j-th mood of the result, in the order of the
    mood dictionary, for each of its first 20 moods, and 0.0 when the
    result has no j-th mood. *)
Theorem mood_slots
    (hash : string -> result Z) (r : AnalysisResult) (f : list float) :
  generate_simple_embedding_body hash r = Ok f ->
  forall j : nat,
    (j < 20)%nat ->
    f !! (18 + j)%nat = Some (default 0%float (snd <$> emotions r !! j)).
Proof.
  intros Hbody j Hj.
  destruct (encoder_head_stages r) as [Hlen2 Hzero]. cbv zeta in Hlen2, Hzero.
  unfold generate_simple_embedding_body in Hbody. cbv zeta in Hbody.
  set (f2 := foldl set_object _ (objects r)) in *.
  set (f3 := foldl set_emotion f2 (enumerate (take 20 (emotions r)))) in *.
  assert (Hkw : writes (keyword_writes hash (search_keywords r)) f3 f).
  { apply (writes_for_each _ (set_keyword hash)
             (enumerate (take 12 (search_keywords r)))); [| exact Hbody].
    intros item f0 f4 Hin Hstep.
    apply (set_keyword_writes hash (search_keywords r) item); assumption. }
  rewrite (writes_untouched _ _ _ (18 + j)%nat Hkw).
  2:{ intros v Hw. apply keyword_writes_range in Hw. lia. }
  destruct (mood_loop_lookup (take 20 (emotions r)) f2) as [Hsome Hnone].
  { rewrite length_take. lia. }
  { rewrite length_take. lia. }
  fold f3 in Hsome, Hnone.
  assert (Htake : take 20 (emotions r) !! j = emotions r !! j)
    by (apply lookup_take_lt; exact Hj).
  destruct (emotions r !! j) as [item |] eqn:Hitem.
  - rewrite (Hsome j item Htake). reflexivity.
  - rewrite (Hnone j Htake). apply Hzero. lia.
Qed.

Lemma mood_slots_witness :
  exists f,
    generate_simple_embedding_body sample_hash sample_result = Ok f
    /\ f !! 18%nat = Some 0.8%float
    /\ f !! 22%nat = Some 0.6%float
    /\ f !! 23%nat = Some 0%float.
Proof.
  eexists. split; [vm_compute; reflexivity |].
  match goal with
  | |- ?f !! _ = _ /\ _ =>
      pose proof (mood_slots sample_hash sample_result f
                    ltac:(vm_compute; reflexivity)) as Hslots
  end.
  split; [exact (Hslots 0%nat ltac:(lia)) |].
  split; [exact (Hslots 4%nat ltac:(lia)) | exact (Hslots 5%nat ltac:(lia))].
Defined.

(** X19: whenever the body of the image encoder returns, [hash] returned
    on each of the first 12 search keywords, and slot 38 + j holds
    [(abs(hash(keyword)) % 100) / 100.0] for the j-th of them, and 0.0 when
    the result has no j-th keyword. *)
Theorem keyword_slots
    (hash : string -> result Z) (r : AnalysisResult) (f : list float) :
  generate_simple_embedding_body hash r = Ok f ->
  forall j : nat,
    (j < 12)%nat ->
    match search_keywords r !! j with
    | Some keyword =>
        exists h, hash keyword = Ok h
                  /\ f !! (38 + j)%nat
                     = Some (float_of_Z (Z.abs h mod 100) / 100)%float
    | None => f !! (38 + j)%nat = Some 0%float
    end.
Proof.
  intros Hbody j Hj.
  destruct (encoder_head_stages r) as [Hlen2 Hzero]. cbv zeta in Hlen2, Hzero.
  unfold generate_simple_embedding_body in Hbody. cbv zeta in Hbody.
  set (f2 := foldl set_object _ (objects r)) in *.
  set (f3 := foldl set_emotion f2 (enumerate (take 20 (emotions r)))) in *.
  assert (Hlen3 : length f3 = 50%nat)
    by (subst f3; rewrite mood_loop_length; exact Hlen2).
  assert (Hmood : writes (emotion_writes (emotions r)) f2 f3).
  { apply writes_foldl. intros item f0 Hin. apply set_emotion_writes. exact Hin. }
  destruct (keyword_loop_lookup hash (take 12 (search_keywords r)) f3 f)
    as (_ & Hsome & Hnone).
  { rewrite length_take. lia. }
  { rewrite length_take. lia. }
  { exact Hbody. }
  assert (Htake : take 12 (search_keywords r) !! j = search_keywords r !! j)
    by (apply lookup_take_lt; exact Hj).
  destruct (search_keywords r !! j) as [keyword |] eqn:Hkeyword.
  - exact (Hsome j keyword Htake).
  - rewrite (Hnone j Htake).
    rewrite (writes_untouched _ _ _ (38 + j)%nat Hmood).
    + apply Hzero. lia.
    + intros v Hw. apply emotion_writes_range in Hw.
      rewrite length_take in Hw. lia.
Qed.

Lemma keyword_slots_witness :
  exists f,
    generate_simple_embedding_body sample_hash sample_result = Ok f
    /\ f !! 38%nat = Some 0.98%float
    /\ f !! 43%nat = Some 0%float.
Proof.
  eexists. split; [vm_compute; reflexivity |].
  match goal with
  | |- ?f !! _ = _ /\ _ =>
      pose proof (keyword_slots sample_hash sample_result f
                    ltac:(vm_compute; reflexivity)) as Hslots
  end.
  split.
  - destruct (Hslots 0%nat ltac:(lia)) as (h & Hh & Hslot).
    injection Hh as <-. exact Hslot.
  - exact (Hslots 5%nat ltac:(lia)).
Defined.

(** ** The brightness analyser *)

Lemma sumZ_bounds (lo hi : Z) (l : list Z) :
  Forall (fun n => lo <= n <= hi) l ->
  lo * Z.of_nat (length l) <= sumZ l <= hi * Z.of_nat (length l).
Proof.
  induction 1 as [| n l Hn Hl IH]; [simpl; lia |].
  cbn [sumZ length]. lia.
Qed.

Lemma getdata_empty image :
  getdata image = [] <-> width image <= 0 \/ height image <= 0.
Proof.
  split.
  - intros Hnil.
    destruct (Z_lt_le_dec 0 (width image)) as [Hw | Hw]; [| left; exact Hw].
    destruct (Z_lt_le_dec 0 (height image)) as [Hh | Hh]; [| right; exact Hh].
    exfalso. exact (getdata_nonempty image Hw Hh Hnil).
  - intros Hwh.
    destruct (getdata image) as [| p data] eqn:Hdata; [reflexivity |].
    assert (Hin : p ∈ getdata image) by (rewrite Hdata; left).
    apply getdata_elem in Hin as (x & y & Hx & Hy & _). lia.
Qed.

(** X20: on an image with pixels the brightness is the mean of the
    luminances of its pixels: the brightness times the number of pixels is
    the sum of the luminances, so it lies between any two bounds of the
    luminances.  On an image without pixels it is what the library returns
    for a band without pixels, and the default 128 when the library
    raises. *)
Theorem brightness_is_mean {lib : Pillow} (luma : RGB -> Z) (image : Image) :
  (getdata image = [] ->
   analyze_brightness luma image = try_except empty_mean 128%Q)
  /\ (getdata image <> [] ->
      analyze_brightness_body luma image = Ok (analyze_brightness luma image)
      /\ (analyze_brightness luma image
          * inject_Z (Z.of_nat (length (getdata image)))
          == inject_Z (sumZ (map luma (getdata image))))%Q
      /\ forall lo hi : Z,
           Forall (fun p => lo <= luma p <= hi) (getdata image) ->
           (inject_Z lo <= analyze_brightness luma image)%Q
           /\ (analyze_brightness luma image <= inject_Z hi)%Q).
Proof.
  unfold analyze_brightness, analyze_brightness_body, band_mean.
  rewrite length_map.
  destruct (getdata image) as [| p data] eqn:Hdata.
  - split; [reflexivity | contradiction].
  - split; [discriminate |]. intros _. cbn [length try_except].
    split; [reflexivity |].
    rewrite map_id.
    split.
    + unfold Qeq, Qmult. cbn [Qnum Qden inject_Z].
      rewrite Pos.mul_1_r, Zpos_P_of_succ_nat, Nat2Z.inj_succ. lia.
    + intros lo hi Hall.
      assert (Hb : Forall (fun n => lo <= n <= hi) (map luma (p :: data))).
      { apply Forall_forall. intros n Hn.
        apply list_elem_of_fmap in Hn as (q & -> & Hq).
        rewrite Forall_forall in Hall. exact (Hall q Hq). }
      apply sumZ_bounds in Hb. rewrite length_map in Hb. cbn [length] in Hb.
      unfold Qle. cbn [Qnum Qden inject_Z].
      rewrite Zpos_P_of_succ_nat. lia.
Qed.

Lemma brightness_is_mean_witness :
  analyze_brightness (lib := mean_raises) sample_luma empty_image = 128%Q
  /\ analyze_brightness (lib := mean_zero) sample_luma empty_image = 0%Q
  /\ (analyze_brightness (lib := mean_zero) sample_luma green_image * inject_Z 6
      == inject_Z 738)%Q
  /\ (inject_Z 0 <= analyze_brightness (lib := mean_zero)
                      sample_luma green_image)%Q
  /\ (analyze_brightness (lib := mean_zero)
        sample_luma green_image <= inject_Z 255)%Q.
Proof.
  split; [| split].
  - apply (proj1 (brightness_is_mean (lib := mean_raises)
                    sample_luma empty_image)).
    reflexivity.
  - apply (proj1 (brightness_is_mean (lib := mean_zero)
                    sample_luma empty_image)).
    reflexivity.
  - destruct (proj2 (brightness_is_mean (lib := mean_zero)
                       sample_luma green_image))
      as (_ & Hmean & Hbounds); [discriminate |].
    split; [exact Hmean |].
    apply (Hbounds 0 255).
    apply Forall_forall. intros p Hp.
    apply getdata_elem in Hp as (x & y & _ & _ & ->). vm_compute.
    split; discriminate.
Defined.

(** ** The five regions *)

Lemma stat_mean_Ok {lib : Pillow} image :
  (exists m, stat_mean image = Ok m)
  <-> getdata image <> [] \/ exists q, empty_mean = Ok q.
Proof.
  destruct (getdata image) as [| p data] eqn:Hdata.
  - rewrite (stat_mean_empty image Hdata). split.
    + intros [m Hm]. right.
      destruct empty_mean as [q | e]; [eauto | discriminate Hm].
    + intros [Hne | [q ->]]; [contradiction | eexists; reflexivity].
  - split; [intros _; left; discriminate |].
    intros _. unfold stat_mean, band_mean. rewrite Hdata.
    cbn [length bind]. eexists. reflexivity.
Qed.

Lemma region_color_is_Some {lib : Pillow} image region :
  is_Some (region_color image region)
  <-> getdata (crop image region) <> [] \/ exists q, empty_mean = Ok q.
Proof.
  rewrite <- stat_mean_Ok. unfold region_color.
  destruct (stat_mean (crop image region)) as [m | e].
  - split; [intros _; exists m; reflexivity | intros _; eauto].
  - split; [intros [c Hc]; discriminate Hc | intros [m Hm]; discriminate Hm].
Qed.

(** X21: the first four regions are the quadrants of the image: every
    pixel lies in exactly one of them, whatever the size. *)
Theorem quadrants_tile (w h x y : Z) :
  0 <= x < w -> 0 <= y < h ->
  length (List.filter (in_box x y) (take 4 (regions w h))) = 1%nat.
Proof.
  intros Hx Hy. unfold regions. cbn [take List.filter in_box].
  pose proof (Z.div_pos w 2) as Hw2. pose proof (Z.div_pos h 2) as Hh2.
  repeat match goal with
         | |- context [?a <=? ?b] => destruct (Z.leb_spec a b)
         | |- context [?a <? ?b] => destruct (Z.ltb_spec a b)
         end;
    cbn [andb length]; first [reflexivity | lia].
Qed.

Lemma quadrants_tile_witness :
  length (List.filter (in_box 2 1) (take 4 (regions 5 3))) = 1%nat.
Proof. apply quadrants_tile; lia. Defined.

(** X22: on an image with pixels, each of the five regions has a pixel
    exactly when the image is at least two pixels wide and two pixels high;
    a region votes for a colour exactly when it has a pixel or the library
    returns a mean for a band without pixels; so on an image at least two
    pixels wide and high all five regions vote, whatever the library. *)
Theorem all_regions_vote {lib : Pillow} (image : Image) :
  0 < width image -> 0 < height image ->
  (Forall (fun region => getdata (crop image region) <> [])
          (regions (width image) (height image))
   <-> 2 <= width image /\ 2 <= height image)
  /\ (forall region : box,
        is_Some (region_color image region)
        <-> getdata (crop image region) <> [] \/ exists q, empty_mean = Ok q)
  /\ (2 <= width image -> 2 <= height image ->
      Forall (fun region => is_Some (region_color image region))
             (regions (width image) (height image))).
Proof.
  intros Hw Hh. split; [| split].
  - split.
    + intros Hall. rewrite Forall_forall in Hall.
      assert (Hne : getdata (crop image (0, 0, width image / 2, height image / 2))
                    <> []) by (apply Hall; unfold regions; left).
      rewrite getdata_empty in Hne. cbn [crop width height] in Hne.
      split.
      * destruct (Z_lt_le_dec (width image) 2) as [Hlt | Hge]; [| exact Hge].
        assert (width image / 2 = 0) by (apply Z.div_small; lia). lia.
      * destruct (Z_lt_le_dec (height image) 2) as [Hlt | Hge]; [| exact Hge].
        assert (height image / 2 = 0) by (apply Z.div_small; lia). lia.
    + intros [Hw2 Hh2]. apply Forall_forall. intros region Hin.
      exact (regions_pixels image region Hw2 Hh2 Hin).
  - intros region. apply region_color_is_Some.
  - intros Hw2 Hh2. apply Forall_forall. intros region Hin.
    apply region_color_is_Some. left.
    exact (regions_pixels image region Hw2 Hh2 Hin).
Qed.

Lemma all_regions_vote_witness :
  Forall (fun region => is_Some (region_color (lib := mean_raises)
                                   two_tone_image region))
         (regions (width two_tone_image) (height two_tone_image)).
Proof.
  destruct (all_regions_vote (lib := mean_raises) two_tone_image)
    as (_ & _ & Hvote); [reflexivity | reflexivity |].
  apply Hvote; discriminate.
Defined.

(** ** The palette against its own classifier *)

(** X23: every prototype of the palette is classified under the name that
    lists it, except the prototype (255, 165, 0) of "orange": "yellow"
    lists the same triple and comes first, so it is classified "yellow". *)
Theorem prototypes_classified (color_name : string) (target : RGB) :
  (color_name, target) ∈ prototypes ->
  (color_name_of target = color_name
   <-> (color_name, target) <> ("orange"%string, (255, 165, 0)))
  /\ (color_name_of target <> color_name -> color_name_of target = "yellow"%string).
Proof.
  intros Hin.
  unfold prototypes, color_names in Hin. cbn [flat_map map app fst snd] in Hin.
  repeat (apply elem_of_cons in Hin as [[= -> ->] | Hin];
          [first
             [ split;
               [split; [intros _; discriminate | intros _; vm_compute; reflexivity]
               | intros Hne; exfalso; apply Hne; vm_compute; reflexivity]
             | split;
               [split; [intros Heq; vm_compute in Heq; discriminate Heq
                       | intros Hne; exfalso; apply Hne; reflexivity]
               | intros _; vm_compute; reflexivity] ]
          |]).
  inversion Hin.
Qed.

Lemma prototypes_classified_witness :
  color_name_of (255, 69, 0) = "orange"%string
  /\ color_name_of (255, 165, 0) = "yellow"%string.
Proof.
  split.
  - apply (prototypes_classified "orange" (255, 69, 0)).
    + apply (bool_decide_unpack _). vm_compute. exact I.
    + discriminate.
  - apply (prototypes_classified "orange" (255, 165, 0)).
    + apply (bool_decide_unpack _). vm_compute. exact I.
    + vm_compute. discriminate.
Defined.
